(** * Usage tracker: ingestion, pricing and aggregation

    A shallow embedding of [usage-tracker.ts] and the properties of its
    pricing resolver, cost calculator, usage store, session cache,
    period aggregation and notification trigger.

    Conventions of the embedding.
    - A JS [number] that carries money, a rate or a configured threshold
      is a binary64 float ([PrimFloat.float]); [+], [*], [/], [>] and
      [>=] are the IEEE operations, as in JS.
    - Token counts, message counters and millisecond clocks are integers
      ([Z]); where the source mixes them with floats they are converted
      by [num], the correctly rounded embedding of an integer.
    - A JS object used as a dictionary ([Record<string, V>]) is the list
      of its own properties in the order [Object.entries] enumerates
      them.  Reading [o[k]] also finds the members every object inherits
      from [Object.prototype] ([Obj_read]).  The built-in objects are
      those of the language; what the code writes onto one of them (as
      it does for a model that names an inherited member) is not part of
      the state.
    - The SQLite table is the list of its rows in insertion order; a row
      holds the values that were bound.
    - What the environment supplies (random ids, clock readings, the
      storage layer failing, the current session) is an explicit input
      of each operation.
    - The text rendering of reports and toasts ([formatUsageFull] and
      the like) and the local-time helpers ([getStartOfDay] and the
      like) are left out: a tool returns the stats it would print, a
      toast carries the values it would show, and the period starts are
      inputs. *)

From Stdlib Require Import ZArith Floats Ascii String List Sorted Permutation Bool.
From stdpp Require Import gmap strings.
Import ListNotations.

#[local] Set Warnings "-inexact-float".
#[local] Open Scope Z_scope.

(* ================================================================== *)
(** * Strings *)
(* ================================================================== *)

Module Str.

(** [s.split(sep)] for a one-character separator: never empty. *)
Fixpoint split (sep : ascii) (s : string) : list string :=
  match s with
  | EmptyString => [EmptyString]
  | String c s' =>
      if Ascii.eqb c sep then EmptyString :: split sep s'
      else match split sep s' with
           | h :: t => String c h :: t
           | [] => [String c EmptyString]
           end
  end.

(** [arr.pop()] as a value: the last element, [undefined] on []. *)
Fixpoint pop {A} (l : list A) : option A :=
  match l with
  | [] => None
  | [x] => Some x
  | _ :: l' => pop l'
  end.

(** [s.endsWith(suffix)]. *)
Fixpoint endsWith (s suffix : string) : bool :=
  if String.eqb s suffix then true
  else match s with
       | EmptyString => false
       | String _ s' => endsWith s' suffix
       end.

(** A template literal prints [undefined] for a missing value. *)
Definition template (o : option string) : string :=
  match o with Some s => s | None => "undefined" end.

(** [s.startsWith(prefix)]. *)
Fixpoint startsWith (s prefix : string) : bool :=
  match prefix with
  | EmptyString => true
  | String c prefix' =>
      match s with
      | EmptyString => false
      | String d s' => Ascii.eqb c d && startsWith s' prefix'
      end
  end.

(** [haystack.includes(needle)]: a case-sensitive substring test. *)
Fixpoint includes (haystack needle : string) : bool :=
  if startsWith haystack needle then true
  else match haystack with
       | EmptyString => false
       | String _ h' => includes h' needle
       end.

Definition slash : ascii := "/"%char.

(** The part of [s] after its last ["/"] (all of [s] without one). *)
Definition stripPrefix (s : string) : string :=
  template (pop (split slash s)).

End Str.

(* ================================================================== *)
(** * JS objects as dictionaries *)
(* ================================================================== *)

Module Obj.

(** Own properties in enumeration order: array-index keys first, by
    ascending value, then the other keys in creation order. *)
Definition t (V : Type) : Type := list (string * V).

Definition digit (c : ascii) : option N :=
  let n := N_of_ascii c in
  if ((48 <=? n) && (n <=? 57))%N then Some (n - 48)%N else None.

Fixpoint digits (acc : N) (s : string) : option N :=
  match s with
  | EmptyString => Some acc
  | String c s' =>
      match digit c with
      | Some d => digits (acc * 10 + d)%N s'
      | None => None
      end
  end.

(** The array index a key denotes, if it is the canonical decimal
    form of an integer below 2^32 - 1. *)
Definition arrayIndex (k : string) : option N :=
  match k with
  | EmptyString => None
  | String c s' =>
      if Ascii.eqb c "0" then
        match s' with EmptyString => Some 0%N | _ => None end
      else match digits 0 k with
           | Some n => if (n <? 4294967295)%N then Some n else None
           | None => None
           end
  end.

Section Ops.
Context {V : Type}.

(** The own property [k] of [o], if there is one. *)
Fixpoint get (k : string) (o : t V) : option V :=
  match o with
  | [] => None
  | (k', v) :: o' => if String.eqb k' k then Some v else get k o'
  end.

Fixpoint replace (k : string) (v : V) (o : t V) : t V :=
  match o with
  | [] => []
  | (k', v') :: o' =>
      if String.eqb k' k then (k', v) :: o' else (k', v') :: replace k v o'
  end.

(** Where a new array-index key [k] (of value [n]) is created. *)
Fixpoint insertIndex (n : N) (k : string) (v : V) (o : t V) : t V :=
  match o with
  | [] => [(k, v)]
  | (k', v') :: o' =>
      match arrayIndex k' with
      | Some n' =>
          if (n <? n')%N then (k, v) :: o
          else (k', v') :: insertIndex n k v o'
      | None => (k, v) :: o
      end
  end.

(** [o[k] = v]: an existing property keeps its place. *)
Definition set (k : string) (v : V) (o : t V) : t V :=
  match get k o with
  | Some _ => replace k v o
  | None =>
      match arrayIndex k with
      | Some n => insertIndex n k v o
      | None => o ++ [(k, v)]
      end
  end.

(** [Object.entries(o)]. *)
Definition entries (o : t V) : list (string * V) := o.

(** Copying the own properties of [src] onto [target], as each
    [...src] of an object literal does. *)
Definition assign (target src : t V) : t V :=
  fold_left (fun acc kv => set (fst kv) (snd kv) acc) (entries src) target.

(** The object literal [{ k1: v1, k2: v2, ... }]. *)
Definition literal (props : list (string * V)) : t V := assign [] props.

(** [{ ...a, ...b }], where [b] may be [undefined]. *)
Definition spread (a : t V) (b : option (t V)) : t V :=
  match b with
  | Some b => assign (assign [] a) b
  | None => assign [] a
  end.

(** An object has each key once. *)
Definition wf (o : t V) : Prop := List.NoDup (List.map fst o).

End Ops.

End Obj.

(** ** Property reads *)

(** The names every object inherits from [Object.prototype]. *)
Definition inheritedNames : list string :=
  [ "constructor"; "toString"; "toLocaleString"; "valueOf";
    "hasOwnProperty"; "isPrototypeOf"; "propertyIsEnumerable";
    "__defineGetter__"; "__defineSetter__"; "__lookupGetter__";
    "__lookupSetter__"; "__proto__" ].

Definition inheritedName (k : string) : bool :=
  List.existsb (String.eqb k) inheritedNames.

(** What reading [o[k]] finds: an own property, a member inherited from
    [Object.prototype] (a function, or the prototype itself under
    ["__proto__"]: truthy in each case), or [undefined]. *)
Inductive Read (V : Type) : Type :=
| Own (v : V)
| Inherited
| Undefined.

Arguments Own {V} v.
Arguments Inherited {V}.
Arguments Undefined {V}.

Definition Obj_read {V} (k : string) (o : Obj.t V) : Read V :=
  match Obj.get k o with
  | Some v => Own v
  | None => if inheritedName k then Inherited else Undefined
  end.

(* ================================================================== *)
(** * Numbers *)
(* ================================================================== *)

(** An integer as a JS number: rounded to the nearest binary64 value
    (exactly itself up to 2^53). *)
Definition num (z : Z) : float :=
  SF2Prim (binary_normalize prec emax z 0 false).

Definition million : float := 1000000%float.

(** [a > b] and [a >= b] on JS numbers (false when either is NaN). *)
Definition gt (a b : float) : bool := PrimFloat.ltb b a.
Definition ge (a b : float) : bool := PrimFloat.leb b a.

(* ================================================================== *)
(** * Types *)
(* ================================================================== *)

Record TokenUsageRecord := {
  id : string;
  session_id : string;
  message_id : string;
  model : string;
  provider : string;
  input_tokens : Z;
  output_tokens : Z;
  cache_read_tokens : Z;
  cache_write_tokens : Z;
  cost : option float;
  created_at : string;
  machine_id : string
}.

Record ModelPricing := {
  p_input : float;
  p_output : float;
  p_cacheRead : float;
  p_cacheWrite : float
}.

Inductive Trigger := TMessages | TCost | TTime | TOther.

Record ToastConfig := {
  t_enabled : bool;
  trigger : Trigger;
  messagesInterval : float;
  costThreshold : float;
  timeIntervalMinutes : float
}.

(** [dbPath] is left out: only the constructor of the store reads it. *)
Record PluginConfig := {
  enabled : bool;
  machineId : option string;
  toast : ToastConfig;
  pricing : Obj.t ModelPricing
}.

Record ModelStats := {
  m_input : Z;
  m_output : Z;
  m_cacheRead : Z;
  m_cacheWrite : Z;
  m_cost : option float
}.

Record SessionStats := {
  totalTokens : Z;
  totalCost : float;
  messageCount : Z;
  startTime : Z;
  byModel : Obj.t ModelStats
}.

Record ModelAggregate := {
  a_tokens : Z;
  a_cost : option float
}.

(** [Omit<AggregateStats, 'sessions'>] and [AggregateStats]. *)
Record Aggregates := {
  agg_tokens : Z;
  agg_cost : float;
  agg_messages : Z;
  agg_byModel : Obj.t ModelAggregate
}.

Record AggregateStats := {
  tokens : Z;
  s_cost : float;
  sessions : Z;
  messages : Z;
  s_byModel : Obj.t ModelAggregate
}.

(** The token tuple [{ input, output, cacheRead, cacheWrite }]. *)
Record Tokens := {
  input : Z;
  output : Z;
  cacheRead : Z;
  cacheWrite : Z
}.

(* ================================================================== *)
(** * Default pricing and configuration *)
(* ================================================================== *)

Definition mkPricing (i o r w : float) : ModelPricing :=
  {| p_input := i; p_output := o; p_cacheRead := r; p_cacheWrite := w |}.

Definition DEFAULT_PRICING : Obj.t ModelPricing :=
  Obj.literal
    [ ("anthropic/claude-sonnet-4-5", mkPricing 3.00 15.00 0.30 3.75);
      ("anthropic/claude-opus-4-5", mkPricing 5.00 25.00 0.50 6.25);
      ("openai/gpt-5", mkPricing 1.25 10.00 0.125 0.0);
      ("openai/gpt-5.1", mkPricing 1.25 10.00 0.125 0.0);
      ("openai/gpt-5.2", mkPricing 1.75 14.00 0.175 0.0);
      ("openai/gpt-5-mini", mkPricing 0.25 2.0 0.025 0.0) ].

(** [Partial<ToastConfig>] and the ["usage-tracker"] entry of the raw
    configuration ([Partial<PluginConfig>]); a missing field is [None]. *)
Record RawToast := {
  rt_enabled : option bool;
  rt_trigger : option Trigger;
  rt_messagesInterval : option float;
  rt_costThreshold : option float;
  rt_timeIntervalMinutes : option float
}.

Record RawConfig := {
  r_enabled : option bool;
  r_machineId : option string;
  r_toast : option RawToast;
  r_pricing : option (Obj.t ModelPricing)
}.

(** [a ?? b]. *)
Definition nullish {A} (a : option A) (b : A) : A :=
  match a with Some x => x | None => b end.

(** [c?.f]. *)
Definition chain {A B} (c : option A) (f : A -> option B) : option B :=
  match c with Some x => f x | None => None end.

(** The table [getConfig] builds: [{ ...defaults, ...overrides }]. *)
Definition mergePricing (defaults : Obj.t ModelPricing)
    (overrides : option (Obj.t ModelPricing)) : Obj.t ModelPricing :=
  Obj.spread defaults overrides.

Definition getConfig (hostname : string) (c : option RawConfig) : PluginConfig :=
  {| enabled := nullish (chain c r_enabled) true;
     machineId := Some (nullish (chain c r_machineId) hostname);
     toast :=
       {| t_enabled := nullish (chain (chain c r_toast) rt_enabled) false;
          trigger := nullish (chain (chain c r_toast) rt_trigger) TMessages;
          messagesInterval :=
            nullish (chain (chain c r_toast) rt_messagesInterval) 5%float;
          costThreshold :=
            nullish (chain (chain c r_toast) rt_costThreshold) 0.10%float;
          timeIntervalMinutes :=
            nullish (chain (chain c r_toast) rt_timeIntervalMinutes) 10%float |};
     pricing := mergePricing DEFAULT_PRICING (chain c r_pricing) |}.

(* ================================================================== *)
(** * Pricing resolver and cost calculator *)
(* ================================================================== *)

(** The test of the scan: [key.endsWith(`/${modelName}`) || key === modelName]. *)
Definition keyMatches (modelName : option string) (key : string) : bool :=
  Str.endsWith key (String Str.slash (Str.template modelName))
  || match modelName with
     | Some m => String.eqb key m
     | None => false
     end.

(** A member inherited from [Object.prototype] where a rate card is
    expected.  Its four rates read as [undefined], which the arithmetic
    of [calculateCost] turns into NaN exactly as it does NaN; the rates
    are therefore NaN here. *)
Definition inheritedMember : ModelPricing :=
  mkPricing PrimFloat.nan PrimFloat.nan PrimFloat.nan PrimFloat.nan.

Definition getPricing (model : string) (config : PluginConfig)
    : option ModelPricing :=
  match Obj_read model (pricing config) with
  | Own p => Some p
  | Inherited => Some inheritedMember
  | Undefined =>
      let modelName := Str.pop (Str.split Str.slash model) in
      match List.find (fun kv => keyMatches modelName (fst kv))
                      (Obj.entries (pricing config)) with
      | Some (_, p) => Some p
      | None => None
      end
  end.

Definition calculateCost (tokens : Tokens) (pricing : option ModelPricing)
    (opencodeCost : option float) : option float :=
  match pricing with
  | Some pricing =>
      Some (num (input tokens) * p_input pricing / million
            + num (output tokens) * p_output pricing / million
            + num (cacheRead tokens) * p_cacheRead pricing / million
            + num (cacheWrite tokens) * p_cacheWrite pricing / million)%float
  | None =>
      match opencodeCost with
      | Some c => if gt c 0 then Some c else None
      | None => None
      end
  end.

(* ================================================================== *)
(** * Database layer *)
(* ================================================================== *)

(** The rows of [token_usage], oldest insertion first. *)
Definition Table : Type := list TokenUsageRecord.

(** [CREATE TABLE IF NOT EXISTS]: a database file that has the table
    keeps it, a new one gets it empty. *)
Definition migrate (file : option Table) : Table :=
  match file with
  | Some rows => rows
  | None => []
  end.

(** [new UsageDatabase(dbPath)]; [None] when opening throws. *)
Definition UsageDatabase (fault : bool) (file : option Table) : option Table :=
  if fault then None else Some (migrate file).

(** The row conflicts with [record] on [id] (primary key) or on
    [message_id] (unique). *)
Definition conflicts (record r : TokenUsageRecord) : bool :=
  String.eqb (id r) (id record)
  || String.eqb (message_id r) (message_id record).

(** [INSERT OR IGNORE]: a conflicting row is skipped without an error;
    [fault] is the storage layer throwing, which [catch] turns into
    [false]. *)
Definition insert (fault : bool) (record : TokenUsageRecord) (db : Table)
    : Table * bool :=
  if fault then (db, false)
  else if List.existsb (conflicts record) db then (db, true)
  else (db ++ [record], true).

(** [SELECT 1 ... WHERE message_id = ?] finds a row. *)
Definition hasMessage (messageId : string) (db : Table) : bool :=
  List.existsb (fun r => String.eqb (message_id r) messageId) db.

(** [ORDER BY created_at ASC]: text order, ties in insertion order. *)
Fixpoint insertRow (r : TokenUsageRecord) (l : list TokenUsageRecord)
    : list TokenUsageRecord :=
  match l with
  | [] => [r]
  | x :: l' =>
      if String.leb (created_at r) (created_at x) then r :: l
      else x :: insertRow r l'
  end.

Definition orderByCreatedAt (l : list TokenUsageRecord) : list TokenUsageRecord :=
  List.fold_right insertRow [] l.

Definition getSessionStats (sessionId : string) (db : Table)
    : list TokenUsageRecord :=
  orderByCreatedAt
    (List.filter (fun r => String.eqb (session_id r) sessionId) db).

(** SQLite compares text one UTF-8 character at a time.  The value a
    lead byte of 0xC0 or more starts with ([sqlite3Utf8Trans1]). *)
Definition utf8Lead (b : N) : N :=
  (if b <? 224 then N.land b 31
   else if b <? 240 then N.land b 15
   else if b <? 248 then N.land b 7
   else if b <? 252 then N.land b 3
   else if b <? 254 then N.land b 1
   else 0)%N.

(** The character a multi-byte sequence denotes: an over-long form, a
    surrogate, 0xFFFE and 0xFFFF read as 0xFFFD. *)
Definition utf8Finish (c : N) : N :=
  (if (c <? 128) || (N.land c 4294965248 =? 55296)
      || (N.land c 4294967294 =? 65534)
   then 65533 else c)%N.

(** The characters of a text as [sqlite3Utf8Read] reads them in turn,
    up to the first zero byte: a byte below 0xC0 is a character; a lead
    byte takes every continuation byte (0x80 to 0xBF) that follows,
    accumulating in 32 bits.  [pending] is the value of the character
    being read. *)
Fixpoint utf8Chars (pending : option N) (s : string) : list N :=
  match s with
  | EmptyString =>
      match pending with
      | Some c => [utf8Finish c]
      | None => []
      end
  | String a s' =>
      let b := N_of_ascii a in
      let start :=
        (if b =? 0 then []
         else if b <? 192 then b :: utf8Chars None s'
         else utf8Chars (Some (utf8Lead b)) s')%N in
      match pending with
      | Some c =>
          if ((128 <=? b) && (b <? 192))%N
          then utf8Chars (Some ((c * 64 + N.land b 63) mod 4294967296)%N) s'
          else utf8Finish c :: start
      | None => start
      end
  end.

(** ASCII lower case, the only folding SQLite's [LIKE] does. *)
Definition lower (c : N) : N :=
  (if (65 <=? c) && (c <=? 90) then c + 32 else c)%N.

(** Two characters match: they are equal, or both are ASCII and equal
    without case. *)
Definition sameChar (c d : N) : bool :=
  ((c =? d) || ((c <? 128) && (d <? 128) && (lower c =? lower d)))%N.

(** [patternCompare] for [LIKE] on characters: [%] (37) is any run of
    characters, [_] (95) any one character; there is no escape
    character. *)
Fixpoint likeChars (pat s : list N) : bool :=
  match pat with
  | [] => match s with [] => true | _ => false end
  | c :: pat' =>
      if (c =? 37)%N then
        (fix star (s : list N) : bool :=
           likeChars pat' s
           || match s with
              | [] => false
              | _ :: s' => star s'
              end) s
      else
        match s with
        | [] => false
        | d :: s' => ((c =? 95)%N || sameChar c d) && likeChars pat' s'
        end
  end.

(** [s LIKE pat] on the UTF-8 texts SQLite holds. *)
Definition like (pat s : string) : bool :=
  likeChars (utf8Chars None pat) (utf8Chars None s).

(** A JS [Set] of strings: its elements in insertion order. *)
Definition JsSet : Type := list string.

Definition Set_add (x : string) (s : JsSet) : JsSet :=
  if List.existsb (String.eqb x) s then s else s ++ [x].

Definition Set_new (l : list string) : JsSet :=
  List.fold_left (fun s x => Set_add x s) l [].

Definition Set_size (s : JsSet) : Z := Z.of_nat (List.length s).

(** The [WHERE] clause of [getAggregateStats]; an absent or empty
    [modelFilter] adds no condition. *)
Definition rangeWhere (machineId startDate endDate : string)
    (modelFilter : option string) (r : TokenUsageRecord) : bool :=
  String.eqb (machine_id r) machineId
  && String.leb startDate (created_at r)
  && String.ltb (created_at r) endDate
  && match modelFilter with
     | None | Some EmptyString => true
     | Some f => like ("%" ++ f ++ "%") (model r)
     end.

Definition getAggregateStats (machineId startDate endDate : string)
    (modelFilter : option string) (db : Table)
    : list TokenUsageRecord * Z :=
  let records :=
    orderByCreatedAt
      (List.filter (rangeWhere machineId startDate endDate modelFilter) db) in
  let sessionIds := Set_new (List.map session_id records) in
  (records, Set_size sessionIds).

(* ================================================================== *)
(** * Utility functions *)
(* ================================================================== *)

(** [o[k].f = ...]: the object stored under [k] is changed in place;
    when [o[k]] is an inherited member the write lands on that built-in
    object and [o] stays as it is. *)
Definition Obj_modify {V} (k : string) (f : V -> V) (o : Obj.t V) : Obj.t V :=
  match Obj.get k o with
  | Some v => Obj.replace k (f v) o
  | None => o
  end.

(** [if (!o[k]) o[k] = v], for values [v] that are objects: what
    [o[k]] finds is falsy only when it is [undefined]. *)
Definition Obj_ensure {V} (k : string) (v : V) (o : Obj.t V) : Obj.t V :=
  match Obj_read k o with
  | Own _ | Inherited => o
  | Undefined => Obj.set k v o
  end.

Definition recordTokens (r : TokenUsageRecord) : Z :=
  input_tokens r + output_tokens r + cache_read_tokens r + cache_write_tokens r.

(** [(c ?? 0) + x]. *)
Definition addCost (c : option float) (x : float) : float :=
  (nullish c 0 + x)%float.

(** The locals of the loop of [calculateAggregates]. *)
Record AggLoop := {
  l_byModel : Obj.t ModelAggregate;
  l_totalTokens : Z;
  l_totalCost : float;
  l_hasAnyCost : bool
}.

Definition aggregateStep (st : AggLoop) (r : TokenUsageRecord) : AggLoop :=
  let tokens := recordTokens r in
  let byModel1 :=
    Obj_ensure (model r) {| a_tokens := 0; a_cost := None |} (l_byModel st) in
  let byModel2 :=
    Obj_modify (model r)
      (fun e => {| a_tokens := a_tokens e + tokens; a_cost := a_cost e |})
      byModel1 in
  let byModel3 :=
    match cost r with
    | Some c =>
        Obj_modify (model r)
          (fun e => {| a_tokens := a_tokens e;
                       a_cost := Some (addCost (a_cost e) c) |})
          byModel2
    | None => byModel2
    end in
  {| l_byModel := byModel3;
     l_totalTokens := l_totalTokens st + tokens;
     l_totalCost :=
       match cost r with
       | Some c => (l_totalCost st + c)%float
       | None => l_totalCost st
       end;
     l_hasAnyCost :=
       match cost r with
       | Some _ => true
       | None => l_hasAnyCost st
       end |}.

Definition aggregateInit : AggLoop :=
  {| l_byModel := []; l_totalTokens := 0; l_totalCost := 0%float;
     l_hasAnyCost := false |}.

Definition calculateAggregates (records : list TokenUsageRecord) : Aggregates :=
  let st := List.fold_left aggregateStep records aggregateInit in
  {| agg_tokens := l_totalTokens st;
     agg_cost := if l_hasAnyCost st then l_totalCost st else 0%float;
     agg_messages := Z.of_nat (List.length records);
     agg_byModel := l_byModel st |}.

Definition emptyModelStats : ModelStats :=
  {| m_input := 0; m_output := 0; m_cacheRead := 0; m_cacheWrite := 0;
     m_cost := None |}.

(** One round of the loop of [buildSessionStats]. *)
Definition buildStep (stats : SessionStats) (r : TokenUsageRecord)
    : SessionStats :=
  let tokens := recordTokens r in
  let byModel1 := Obj_ensure (model r) emptyModelStats (byModel stats) in
  let byModel2 :=
    Obj_modify (model r)
      (fun e => {| m_input := m_input e + input_tokens r;
                   m_output := m_output e + output_tokens r;
                   m_cacheRead := m_cacheRead e + cache_read_tokens r;
                   m_cacheWrite := m_cacheWrite e + cache_write_tokens r;
                   m_cost := m_cost e |})
      byModel1 in
  let byModel3 :=
    match cost r with
    | Some c =>
        Obj_modify (model r)
          (fun e => {| m_input := m_input e; m_output := m_output e;
                       m_cacheRead := m_cacheRead e;
                       m_cacheWrite := m_cacheWrite e;
                       m_cost := Some (addCost (m_cost e) c) |})
          byModel2
    | None => byModel2
    end in
  {| totalTokens := totalTokens stats + tokens;
     totalCost :=
       match cost r with
       | Some c => (totalCost stats + c)%float
       | None => totalCost stats
       end;
     messageCount := messageCount stats;
     startTime := startTime stats;
     byModel := byModel3 |}.

(** [parseDate] is [new Date(s).getTime()] and [now] is [Date.now()]. *)
Definition buildSessionStats (parseDate : string -> Z) (now : Z)
    (records : list TokenUsageRecord) : SessionStats :=
  let stats :=
    {| totalTokens := 0;
       totalCost := 0%float;
       messageCount := Z.of_nat (List.length records);
       startTime :=
         match records with
         | r :: _ => parseDate (created_at r)
         | [] => now
         end;
       byModel := [] |} in
  List.fold_left buildStep records stats.

(* ================================================================== *)
(** * Plugin state *)
(* ================================================================== *)

(** What the closure of [UsageTrackerPlugin] holds: the store, the
    session cache, the processed ids and the toast counters. *)
Record State := {
  db : Table;
  sessionStats : gmap string SessionStats;
  processedMessages : gset string;
  lastToastTime : Z;
  messagesSinceToast : Z;
  costSinceToast : float
}.

(** State after the plugin started at time [now] on store [rows]. *)
Definition initialState (rows : Table) (now : Z) : State :=
  {| db := rows; sessionStats := ∅; processedMessages := ∅;
     lastToastTime := now; messagesSinceToast := 0;
     costSinceToast := 0%float |}.

(** Computations over the plugin state. *)
Definition M (A : Type) : Type := State -> A * State.

Definition ret {A} (a : A) : M A := fun st => (a, st).

Definition bind {A B} (m : M A) (k : A -> M B) : M B :=
  fun st => let (a, st') := m st in k a st'.

Definition gets {A} (f : State -> A) : M A := fun st => (f st, st).

Definition modify (f : State -> State) : M unit := fun st => (tt, f st).

Declare Scope m_scope.
Delimit Scope m_scope with M.
Notation "x <- m ;; k" := (bind m (fun x => k))
  (at level 100, m at next level, right associativity) : m_scope.
Notation "m ;;; k" := (bind m (fun _ => k))
  (at level 100, right associativity) : m_scope.

Definition withDb (d : Table) (st : State) : State :=
  {| db := d; sessionStats := sessionStats st;
     processedMessages := processedMessages st;
     lastToastTime := lastToastTime st;
     messagesSinceToast := messagesSinceToast st;
     costSinceToast := costSinceToast st |}.

Definition withSessionStats (c : gmap string SessionStats) (st : State) : State :=
  {| db := db st; sessionStats := c;
     processedMessages := processedMessages st;
     lastToastTime := lastToastTime st;
     messagesSinceToast := messagesSinceToast st;
     costSinceToast := costSinceToast st |}.

Definition withProcessed (p : gset string) (st : State) : State :=
  {| db := db st; sessionStats := sessionStats st;
     processedMessages := p;
     lastToastTime := lastToastTime st;
     messagesSinceToast := messagesSinceToast st;
     costSinceToast := costSinceToast st |}.

Definition withToast (last msgs : Z) (c : float) (st : State) : State :=
  {| db := db st; sessionStats := sessionStats st;
     processedMessages := processedMessages st;
     lastToastTime := last; messagesSinceToast := msgs;
     costSinceToast := c |}.

(** [db.insert(record)] on the store of the state. *)
Definition dbInsert (fault : bool) (record : TokenUsageRecord) : M bool :=
  fun st => let (d, ok) := insert fault record (db st) in (ok, withDb d st).

(** [processedMessages.add(id)]. *)
Definition markProcessed (messageId : string) : M unit :=
  modify (fun st => withProcessed ({[messageId]} ∪ processedMessages st) st).

Definition freshStats (now : Z) : SessionStats :=
  {| totalTokens := 0; totalCost := 0%float; messageCount := 0;
     startTime := now; byModel := [] |}.

Definition getOrCreateSessionStats (now : Z) (sessionId : string)
    : M SessionStats :=
  fun st =>
    match sessionStats st !! sessionId with
    | Some stats => (stats, st)
    | None =>
        let stats := freshStats now in
        (stats, withSessionStats (<[sessionId := stats]> (sessionStats st)) st)
    end.

(** The writes through the alias [stats], which is the object the map
    holds under [sessionId]. *)
Definition storeSessionStats (sessionId : string) (stats : SessionStats)
    : M unit :=
  modify (fun st => withSessionStats (<[sessionId := stats]> (sessionStats st)) st).

Definition shouldShowToast (config : PluginConfig) (now : Z) (st : State) : bool :=
  if negb (t_enabled (toast config)) then false
  else match trigger (toast config) with
       | TMessages =>
           ge (num (messagesSinceToast st)) (messagesInterval (toast config))
       | TCost => ge (costSinceToast st) (costThreshold (toast config))
       | TTime =>
           ge (num (now - lastToastTime st))
              (timeIntervalMinutes (toast config) * 60 * 1000)%float
       | TOther => false
       end.

Definition resetToastTracking (now : Z) : M unit :=
  modify (withToast now 0 0%float).

(* ================================================================== *)
(** * The event hook *)
(* ================================================================== *)

Record CacheTokens := {
  c_read : option Z;
  c_write : option Z
}.

Record MessageTokens := {
  mt_input : option Z;
  mt_output : option Z;
  mt_cache : option CacheTokens
}.

(** [message.model]: a string, an object with a string [modelID] (and a
    [providerID] that may be missing), or anything else. *)
Inductive ModelField :=
| ModelString (s : string)
| ModelObject (providerID : option string) (modelID : string)
| ModelOther.

Record Message := {
  role : string;
  time_completed : option Z;
  msg_tokens : option MessageTokens;
  msg_id : string;
  sessionID : string;
  msg_model : ModelField;
  msg_cost : option float
}.

Inductive Event :=
| MessageUpdated (info : Message)
| OtherEvent.

(** What one run of the hook reads from outside: whether the write
    fails, [crypto.randomUUID()], [new Date().toISOString()], and the
    readings of [Date.now()] in [getOrCreateSessionStats],
    [shouldShowToast] and [resetToastTracking]. *)
Record Env := {
  e_fault : bool;
  e_uuid : string;
  e_iso : string;
  e_now : Z;
  e_toastNow : Z;
  e_resetNow : Z;
  e_hostname : string
}.

(** The toasts the hook shows, by their content before formatting. *)
Inductive Toast :=
| ToastSaveFailed
| ToastUsage (msgTokens : Z) (c : option float) (total : float).

Definition truthy (n : option Z) : bool :=
  match n with
  | Some t => negb (t =? 0)
  | None => false
  end.

Definition extractTokens (t : MessageTokens) : Tokens :=
  {| input := nullish (mt_input t) 0;
     output := nullish (mt_output t) 0;
     cacheRead := nullish (chain (mt_cache t) c_read) 0;
     cacheWrite := nullish (chain (mt_cache t) c_write) 0 |}.

Definition extractModel (m : ModelField) : string :=
  match m with
  | ModelString s => s
  | ModelObject providerID modelID =>
      match nullish providerID EmptyString with
      | EmptyString => modelID
      | p => p ++ "/" ++ modelID
      end
  | ModelOther => "unknown"
  end.

(** [model.split("/")[0] ?? "unknown"]. *)
Definition extractProvider (model : string) : string :=
  nullish (List.nth_error (Str.split Str.slash model) 0) "unknown".

(** The update of the cached stats of a session for one message. *)
Definition updateStats (model : string) (tokens : Tokens) (cost : option float)
    (stats : SessionStats) : SessionStats :=
  let totalMsgTokens :=
    input tokens + output tokens + cacheRead tokens + cacheWrite tokens in
  let byModel1 := Obj_ensure model emptyModelStats (byModel stats) in
  let byModel2 :=
    Obj_modify model
      (fun e => {| m_input := m_input e + input tokens;
                   m_output := m_output e + output tokens;
                   m_cacheRead := m_cacheRead e + cacheRead tokens;
                   m_cacheWrite := m_cacheWrite e + cacheWrite tokens;
                   m_cost := m_cost e |})
      byModel1 in
  let byModel3 :=
    match cost with
    | Some c =>
        Obj_modify model
          (fun e => {| m_input := m_input e; m_output := m_output e;
                       m_cacheRead := m_cacheRead e;
                       m_cacheWrite := m_cacheWrite e;
                       m_cost := Some (addCost (m_cost e) c) |})
          byModel2
    | None => byModel2
    end in
  {| totalTokens := totalTokens stats + totalMsgTokens;
     totalCost :=
       match cost with
       | Some c => (totalCost stats + c)%float
       | None => totalCost stats
       end;
     messageCount := messageCount stats + 1;
     startTime := startTime stats;
     byModel := byModel3 |}.

Definition event (config : PluginConfig) (env : Env) (ev : Event)
    : M (list Toast) :=
  (match ev with
   | OtherEvent => ret []
   | MessageUpdated message =>
     processed <- gets (fun st => bool_decide (msg_id message ∈ processedMessages st));;
     match msg_tokens message with
     | None => ret []
     | Some rawTokens =>
       if negb (String.eqb (role message) "assistant")
          || negb (truthy (time_completed message))
          || processed
       then ret []
       else
         inDb <- gets (fun st => hasMessage (msg_id message) (db st));;
         if inDb then markProcessed (msg_id message);;; ret []
         else
           let tokens := extractTokens rawTokens in
           let model := extractModel (msg_model message) in
           let provider := extractProvider model in
           let pricing := getPricing model config in
           let cost := calculateCost tokens pricing (msg_cost message) in
           let record :=
             {| id := e_uuid env;
                session_id := sessionID message;
                message_id := msg_id message;
                model := model;
                provider := provider;
                input_tokens := input tokens;
                output_tokens := output tokens;
                cache_read_tokens := cacheRead tokens;
                cache_write_tokens := cacheWrite tokens;
                cost := cost;
                created_at := e_iso env;
                machine_id := nullish (machineId config) (e_hostname env) |} in
           success <- dbInsert (e_fault env) record;;
           if negb success then ret [ToastSaveFailed]
           else
             markProcessed (msg_id message);;;
             stats0 <- getOrCreateSessionStats (e_now env) (sessionID message);;
             let stats := updateStats model tokens cost stats0 in
             storeSessionStats (sessionID message) stats;;;
             modify (fun st =>
               withToast (lastToastTime st) (messagesSinceToast st + 1)
                 (match cost with
                  | Some c => (costSinceToast st + c)%float
                  | None => costSinceToast st
                  end) st);;;
             fire <- gets (shouldShowToast config (e_toastNow env));;
             if fire then
               resetToastTracking (e_resetNow env);;;
               ret [ToastUsage
                      (input tokens + output tokens
                       + cacheRead tokens + cacheWrite tokens)
                      cost (totalCost stats)]
             else ret []
     end
   end)%M.

(** The hook over a sequence of events, each with what it reads. *)
Fixpoint events (config : PluginConfig) (l : list (Env * Event)) (st : State)
    : State :=
  match l with
  | [] => st
  | (env, ev) :: l' => events config l' (snd (event config env ev st))
  end.

(* ================================================================== *)
(** * The tools *)
(* ================================================================== *)

(** The result of [usage], before [formatUsageFull] or
    [formatUsageCompact] prints the stats. *)
Inductive UsageResult :=
| NoActiveSession
| NoUsageData
| Report (full : bool) (stats : SessionStats).

(** [current] is what [getCurrentSessionId()] resolved to;
    [!sessionId] holds of [null] and of the empty string. *)
Definition usage_execute (parseDate : string -> Z) (now : Z)
    (full : bool) (current : option string) : M UsageResult :=
  (match current with
   | None | Some EmptyString => ret NoActiveSession
   | Some sessionId =>
     cached <- gets (fun st => sessionStats st !! sessionId);;
     match cached with
     | Some stats =>
         if messageCount stats =? 0 then
           records <- gets (fun st => getSessionStats sessionId (db st));;
           match records with
           | [] => ret NoUsageData
           | _ => ret (Report full (buildSessionStats parseDate now records))
           end
         else ret (Report full stats)
     | None =>
         records <- gets (fun st => getSessionStats sessionId (db st));;
         match records with
         | [] => ret NoUsageData
         | _ => ret (Report full (buildSessionStats parseDate now records))
         end
     end
   end)%M.

Definition farFuture : string := "2100-01-01T00:00:00.000Z".

(** One period of [globalusage]: the range query folded. *)
Definition period (machineId startDate : string) (modelFilter : option string)
    : M AggregateStats :=
  (data <- gets (fun st =>
             getAggregateStats machineId startDate farFuture modelFilter (db st));;
   let agg := calculateAggregates (fst data) in
   ret {| tokens := agg_tokens agg; s_cost := agg_cost agg;
          sessions := snd data; messages := agg_messages agg;
          s_byModel := agg_byModel agg |})%M.

(** The starts of the periods, as [getStartOfDay(now)] and the like
    print them. *)
Record Starts := {
  startOfDay : string;
  startOfWeek : string;
  startOfMonth : string;
  startOfYear : string
}.

Record GlobalResult := {
  g_full : bool;
  g_today : AggregateStats;
  g_week : AggregateStats;
  g_month : AggregateStats;
  g_year : option AggregateStats;
  g_allTime : option AggregateStats
}.

Definition globalusage_execute (config : PluginConfig) (hostname : string)
    (starts : Starts) (full year all : bool) (modelFilter : option string)
    : M GlobalResult :=
  (let machineId := nullish (machineId config) hostname in
   today <- period machineId (startOfDay starts) modelFilter;;
   week <- period machineId (startOfWeek starts) modelFilter;;
   month <- period machineId (startOfMonth starts) modelFilter;;
   yearStats <-
     (if year || all then
        y <- period machineId (startOfYear starts) modelFilter;; ret (Some y)
      else ret None);;
   allTime <-
     (if all then
        a <- period machineId "1970-01-01T00:00:00.000Z" modelFilter;;
        ret (Some a)
      else ret None);;
   ret {| g_full := full; g_today := today; g_week := week;
          g_month := month; g_year := yearStats; g_allTime := allTime |})%M.

(* ================================================================== *)
(** * Further functions of the source *)
(* ================================================================== *)

(** [s.lastIndexOf(c)] for a one-character [c]: the index of its last
    occurrence, [-1] without one. *)
Fixpoint lastIndexFrom (c : ascii) (s : string) (i acc : Z) : Z :=
  match s with
  | EmptyString => acc
  | String d s' =>
      lastIndexFrom c s' (i + 1) (if Ascii.eqb d c then i else acc)
  end.

Definition Str_lastIndexOf (c : ascii) (s : string) : Z :=
  lastIndexFrom c s 0 (-1).

(** [s.substring(start, end)]: each index is clamped to [0, length],
    and the two are swapped when out of order. *)
Definition Str_substring (s : string) (start finish : Z) : string :=
  let len := Z.of_nat (String.length s) in
  let a := Z.min (Z.max start 0) len in
  let b := Z.min (Z.max finish 0) len in
  String.substring (Z.to_nat (Z.min a b)) (Z.to_nat (Z.max a b - Z.min a b)) s.

(** The directory the constructor of the store makes sure exists:
    [dbPath.substring(0, dbPath.lastIndexOf("/"))]. *)
Definition databaseDir (dbPath : string) : string :=
  Str_substring dbPath 0 (Str_lastIndexOf Str.slash dbPath).

(** [model.split("/").pop() ?? model], the model name the reports
    print. *)
Definition modelName (model : string) : string :=
  nullish (Str.pop (Str.split Str.slash model)) model.

(** [getStartOfWeek]: the day of the month it passes to [setDate], from
    [d.getDate()] and [d.getDay()] (0 is Sunday). *)
Definition weekStartDate (date day : Z) : Z :=
  date - day + (if day =? 0 then -6 else 1).

(** What [UsageTrackerPlugin] returns: no hooks, or the hooks over the
    configuration and the state of their closure. *)
Inductive Started :=
| NoHooks
| Hooks (config : PluginConfig) (st : State).

Inductive StartToast := ToastOpenFailed.

(** The start of the plugin: [openFault] is the constructor of the
    store throwing, [file] what the database file holds, [now] the
    clock. *)
Definition UsageTrackerPlugin (hostname : string) (rawConfig : option RawConfig)
    (openFault : bool) (file : option Table) (now : Z)
    : Started * list StartToast :=
  let config := getConfig hostname rawConfig in
  if negb (enabled config) then (NoHooks, [])
  else match UsageDatabase openFault file with
       | None => (NoHooks, [ToastOpenFailed])
       | Some rows => (Hooks config (initialState rows now), [])
       end.

(** [getCurrentSessionId]: the first listed session; [None] when the
    call throws, when it has no data ([Some None]) or no session. *)
Definition getCurrentSessionId (listed : option (option (list string)))
    : option string :=
  match listed with
  | Some data =>
      match nullish data [] with
      | [] => None
      | s :: _ => Some s
      end
  | None => None
  end.

(** The [usage] tool with the session taken from the host. *)
Definition usage (parseDate : string -> Z) (now : Z) (full : bool)
    (listed : option (option (list string))) : M UsageResult :=
  usage_execute parseDate now full (getCurrentSessionId listed).

(* ================================================================== *)
(** * Definitions used to state the properties *)
(* ================================================================== *)

(** No ["/"] occurs in [s]. *)
Fixpoint noSlash (s : string) : bool :=
  match s with
  | EmptyString => true
  | String c s' => negb (Ascii.eqb c Str.slash) && noSlash s'
  end.

(** The substring of [s] after its last ["/"]; all of [s] when it has
    none. *)
Fixpoint afterLastSlash (s : string) : string :=
  match s with
  | EmptyString => EmptyString
  | String c s' =>
      if Ascii.eqb c Str.slash then afterLastSlash s'
      else if noSlash s' then s
      else afterLastSlash s'
  end.

(** The resolver as the specification words it: the exact key, else
    the first entry whose key, stripped of its provider prefix, is the
    stripped model name. *)
Definition resolve (model : string) (merged : Obj.t ModelPricing)
    : option ModelPricing :=
  match Obj.get model merged with
  | Some p => Some p
  | None =>
      option_map snd
        (List.find
           (fun kv =>
              String.eqb (afterLastSlash (fst kv)) (afterLastSlash model))
           (Obj.entries merged))
  end.

(** One category's share of a cost, and the sum over the four. *)
Definition share (count : Z) (rate : float) : float :=
  (num count * rate / million)%float.

Definition rateSum (t : Tokens) (p : ModelPricing) : float :=
  (share (input t) (p_input p) + share (output t) (p_output p)
   + share (cacheRead t) (p_cacheRead p)
   + share (cacheWrite t) (p_cacheWrite p))%float.

(** The configuration [getConfig] builds from a raw configuration that
    sets only the pricing overrides, and the one it builds from none. *)
Definition configWith (overrides : list (string * ModelPricing)) : PluginConfig :=
  getConfig "localhost"
    (Some {| r_enabled := None; r_machineId := None; r_toast := None;
             r_pricing := Some (Obj.literal overrides) |}).

Definition defaultConfig : PluginConfig := getConfig "localhost" None.

(** A sequence of inserts, each with whether the storage layer fails. *)
Definition inserts (ops : list (bool * TokenUsageRecord)) (db : Table) : Table :=
  List.fold_left (fun d op => fst (insert (fst op) (snd op) d)) ops db.

(** The stored rows of a message, and whether an id is stored. *)
Definition withMessage (messageId : string) (db : Table) : list TokenUsageRecord :=
  List.filter (fun r => String.eqb (message_id r) messageId) db.

Definition hasId (i : string) (db : Table) : bool :=
  List.existsb (fun r => String.eqb (id r) i) db.

(** A row with the given id, session, message, model, input and output
    tokens, cost and time, written by machine ["host"]. *)
Definition row (i s m mo : string) (inp out : Z) (c : option float)
    (t : string) : TokenUsageRecord :=
  {| id := i; session_id := s; message_id := m; model := mo;
     provider := extractProvider mo;
     input_tokens := inp; output_tokens := out;
     cache_read_tokens := 0; cache_write_tokens := 0;
     cost := c; created_at := t; machine_id := "host" |}.

(** Sums: of integers, and of floats from zero in list order. *)
Definition sumZ (l : list Z) : Z := List.fold_right Z.add 0 l.

Definition sumCosts (cs : list float) : float :=
  List.fold_left PrimFloat.add cs 0%float.

(** The costs of the records that have one, in order. *)
Fixpoint knownCosts (rs : list TokenUsageRecord) : list float :=
  match rs with
  | [] => []
  | r :: rs' =>
      match cost r with
      | Some c => c :: knownCosts rs'
      | None => knownCosts rs'
      end
  end.

Definition hasCost (r : TokenUsageRecord) : bool :=
  match cost r with Some _ => true | None => false end.

(** A per-model cost: unknown without a known cost, else their sum. *)
Definition modelCost (cs : list float) : option float :=
  match cs with
  | [] => None
  | _ => Some (sumCosts cs)
  end.

Definition ofModel (m : string) (rs : list TokenUsageRecord)
    : list TokenUsageRecord :=
  List.filter (fun r => String.eqb (model r) m) rs.

(** The per-model entry the records of one model fold to. *)
Definition aggregateOf (rs : list TokenUsageRecord) : ModelAggregate :=
  {| a_tokens := sumZ (List.map recordTokens rs);
     a_cost := modelCost (knownCosts rs) |}.

Definition isNone {A} (o : option A) : bool :=
  match o with Some _ => false | None => true end.

(** Text order of timestamps, and rows in ascending [created_at]. *)
Definition strLe (a b : string) : Prop := String.leb a b = true.
Definition strLt (a b : string) : Prop := String.ltb a b = true.

Definition byCreatedAt (r1 r2 : TokenUsageRecord) : Prop :=
  strLe (created_at r1) (created_at r2).

(** A row is in the range of a query: its machine, the half-open
    interval, and the model filter as the [LIKE] pattern [%filter%]. *)
Definition inRange (machineId startDate endDate : string)
    (modelFilter : option string) (r : TokenUsageRecord) : Prop :=
  machine_id r = machineId
  /\ strLe startDate (created_at r)
  /\ strLt (created_at r) endDate
  /\ match modelFilter with
     | Some f => like ("%" ++ f ++ "%") (model r) = true
     | None => True
     end.

(** Texts without a zero byte, texts that start at a character boundary
    (not with a continuation byte), and ASCII texts. *)
Fixpoint noNul (s : string) : bool :=
  match s with
  | EmptyString => true
  | String a s' => negb (N_of_ascii a =? 0)%N && noNul s'
  end.

Definition startsChar (s : string) : bool :=
  match s with
  | EmptyString => true
  | String a _ => negb ((128 <=? N_of_ascii a) && (N_of_ascii a <? 192))%N
  end.

Fixpoint isAscii (s : string) : bool :=
  match s with
  | EmptyString => true
  | String a s' =>
      (1 <=? N_of_ascii a)%N && (N_of_ascii a <? 128)%N && isAscii s'
  end.

(** The number of distinct values of a list. *)
Definition distinctCount (l : list string) : Z :=
  Z.of_nat (size (list_to_set l : gset string)).

(** The part of a string before its first ["/"]. *)
Fixpoint beforeSlash (s : string) : string :=
  match s with
  | EmptyString => EmptyString
  | String c s' =>
      if Ascii.eqb c Str.slash then EmptyString else String c (beforeSlash s')
  end.

(** A completed assistant message with the given id, session, model,
    input and output tokens and host-supplied cost. *)
Definition assistantMessage (mid sid : string) (m : ModelField)
    (inp out : Z) (c : option float) : Message :=
  {| role := "assistant"; time_completed := Some 1700000000000;
     msg_tokens := Some {| mt_input := Some inp; mt_output := Some out;
                           mt_cache := None |};
     msg_id := mid; sessionID := sid; msg_model := m; msg_cost := c |}.

(** What a run of the hook reads: the id and the time stamp it gets,
    whether the write fails, and one clock reading for all its uses. *)
Definition envAt (uuid iso : string) (fault : bool) (now : Z) : Env :=
  {| e_fault := fault; e_uuid := uuid; e_iso := iso; e_now := now;
     e_toastNow := now; e_resetNow := now; e_hostname := "host" |}.

(** The hook gets as far as writing the record of [message]. *)
Definition ingestible (message : Message) (st : State) : bool :=
  String.eqb (role message) "assistant"
  && truthy (time_completed message)
  && negb (isNone (msg_tokens message))
  && negb (bool_decide (msg_id message ∈ processedMessages st))
  && negb (hasMessage (msg_id message) (db st)).

(** A usage toast is among the toasts shown. *)
Definition usageShown (toasts : list Toast) : bool :=
  List.existsb (fun t => match t with ToastUsage _ _ _ => true | _ => false end)
    toasts.

(** A configuration with another toast policy. *)
Definition withToastConfig (t : ToastConfig) (config : PluginConfig)
    : PluginConfig :=
  {| enabled := enabled config; machineId := machineId config;
     toast := t; pricing := pricing config |}.

(** The cached token total of a session (zero without an entry), and
    the token total of its stored rows. *)
Definition cachedTotal (sessionId : string) (st : State) : Z :=
  match sessionStats st !! sessionId with
  | Some stats => totalTokens stats
  | None => 0
  end.

Definition ofSession (sessionId : string) (db : Table) : list TokenUsageRecord :=
  List.filter (fun r => String.eqb (session_id r) sessionId) db.

Definition storedTotal (sessionId : string) (db : Table) : Z :=
  sumZ (List.map recordTokens (ofSession sessionId db)).

(** The token total that a report of [usage] shows. *)
Definition reportedTotal (r : UsageResult) : option Z :=
  match r with
  | Report _ stats => Some (totalTokens stats)
  | NoActiveSession | NoUsageData => None
  end.

(** The cost the hook computes for a message, the record it writes,
    and the state it leaves before deciding on a toast. *)
Definition costOf (config : PluginConfig) (message : Message)
    (raw : MessageTokens) : option float :=
  calculateCost (extractTokens raw)
    (getPricing (extractModel (msg_model message)) config) (msg_cost message).

Definition recordOf (config : PluginConfig) (env : Env) (message : Message)
    (raw : MessageTokens) : TokenUsageRecord :=
  {| id := e_uuid env;
     session_id := sessionID message;
     message_id := msg_id message;
     model := extractModel (msg_model message);
     provider := extractProvider (extractModel (msg_model message));
     input_tokens := input (extractTokens raw);
     output_tokens := output (extractTokens raw);
     cache_read_tokens := cacheRead (extractTokens raw);
     cache_write_tokens := cacheWrite (extractTokens raw);
     cost := costOf config message raw;
     created_at := e_iso env;
     machine_id := nullish (machineId config) (e_hostname env) |}.

Definition statsAfter (config : PluginConfig) (env : Env) (message : Message)
    (raw : MessageTokens) (st : State) : SessionStats :=
  updateStats (extractModel (msg_model message)) (extractTokens raw)
    (costOf config message raw)
    (nullish (sessionStats st !! sessionID message) (freshStats (e_now env))).

Definition ingested (config : PluginConfig) (env : Env) (message : Message)
    (raw : MessageTokens) (st : State) : State :=
  {| db := fst (insert false (recordOf config env message raw) (db st));
     sessionStats :=
       <[sessionID message := statsAfter config env message raw st]>
         (sessionStats st);
     processedMessages := {[msg_id message]} ∪ processedMessages st;
     lastToastTime := lastToastTime st;
     messagesSinceToast := messagesSinceToast st + 1;
     costSinceToast :=
       match costOf config message raw with
       | Some c => (costSinceToast st + c)%float
       | None => costSinceToast st
       end |}.

(** Token counts that are not negative: of a row, of a store, of the
    message of an event, of a run of events. *)
Definition nonnegRow (r : TokenUsageRecord) : bool :=
  (0 <=? input_tokens r) && (0 <=? output_tokens r)
  && (0 <=? cache_read_tokens r) && (0 <=? cache_write_tokens r).

Definition nonnegEvent (ev : Event) : bool :=
  match ev with
  | MessageUpdated message =>
      match msg_tokens message with
      | Some raw =>
          let t := extractTokens raw in
          (0 <=? input t) && (0 <=? output t)
          && (0 <=? cacheRead t) && (0 <=? cacheWrite t)
      | None => true
      end
  | OtherEvent => true
  end.

Definition nonnegEvents (l : list (Env * Event)) : bool :=
  List.forallb (fun e => nonnegEvent (snd e)) l.

(** Each run of the hook draws an id that no stored row has. *)
Fixpoint freshIds (config : PluginConfig) (l : list (Env * Event)) (st : State)
    : bool :=
  match l with
  | [] => true
  | (env, ev) :: l' =>
      negb (hasId (e_uuid env) (db st))
      && freshIds config l' (snd (event config env ev st))
  end.

(** The token tuple of a row, and the stats that ingesting the rows one
    by one into a fresh cache entry gives. *)
Definition tokensOf (r : TokenUsageRecord) : Tokens :=
  {| input := input_tokens r; output := output_tokens r;
     cacheRead := cache_read_tokens r; cacheWrite := cache_write_tokens r |}.

Definition ingestAll (now : Z) (rs : list TokenUsageRecord) : SessionStats :=
  List.fold_left (fun s r => updateStats (model r) (tokensOf r) (cost r) s)
    rs (freshStats now).

(** The cache holds, for each session, the fold of the hook's update
    over the rows written for it, and no entry without such a row. *)
Definition cacheFollows (added : list TokenUsageRecord) (st : State) : Prop :=
  forall sid,
    match sessionStats st !! sid with
    | Some stats =>
        ofSession sid added <> []
        /\ stats = ingestAll (startTime stats) (ofSession sid added)
    | None => ofSession sid added = []
    end.

(** The tokens of a per-model entry, and of a whole breakdown. *)
Definition breakdownTokens (o : Obj.t ModelAggregate) : Z :=
  sumZ (List.map (fun kv => a_tokens (snd kv)) (Obj.entries o)).

Definition modelTokens (e : ModelStats) : Z :=
  m_input e + m_output e + m_cacheRead e + m_cacheWrite e.

Definition breakdownStats (o : Obj.t ModelStats) : Z :=
  sumZ (List.map (fun kv => modelTokens (snd kv)) (Obj.entries o)).

(** The per-model entry of a session that the records of one model
    fold to. *)
Definition statsOf (rs : list TokenUsageRecord) : ModelStats :=
  {| m_input := sumZ (List.map input_tokens rs);
     m_output := sumZ (List.map output_tokens rs);
     m_cacheRead := sumZ (List.map cache_read_tokens rs);
     m_cacheWrite := sumZ (List.map cache_write_tokens rs);
     m_cost := modelCost (knownCosts rs) |}.

(** The model of a row, of an event, of all the events of a run does
    not name a member every object inherits. *)
Definition plainModel (r : TokenUsageRecord) : bool :=
  negb (inheritedName (model r)).

Definition plainEvent (ev : Event) : bool :=
  match ev with
  | MessageUpdated message =>
      negb (inheritedName (extractModel (msg_model message)))
  | OtherEvent => true
  end.

Definition plainEvents (l : list (Env * Event)) : bool :=
  List.forallb (fun e => plainEvent (snd e)) l.

(** The sum of a measure over the values of an object. *)
Definition weight {V} (w : V -> Z) (o : Obj.t V) : Z :=
  sumZ (List.map (fun kv => w (snd kv)) o).

(** The message is a completed assistant message with token data. *)
Definition qualifies (message : Message) : bool :=
  String.eqb (role message) "assistant"
  && truthy (time_completed message)
  && negb (isNone (msg_tokens message)).

(** The state after the hook met a message that is already stored. *)
Definition remembered (message : Message) (st : State) : State :=
  withProcessed ({[msg_id message]} ∪ processedMessages st) st.

(** The token total of a message. *)
Definition tokensTotal (t : Tokens) : Z :=
  input t + output t + cacheRead t + cacheWrite t.

(* ================================================================== *)
(** * Facts about strings *)
(* ================================================================== *)

Section StrFacts.

Lemma split_nonempty sep s : exists h t, Str.split sep s = h :: t.
Proof.
  destruct s as [|c s]; simpl; [eauto|].
  destruct (Ascii.eqb c sep); [eauto|].
  destruct (Str.split sep s); eauto.
Qed.

Lemma split_noSlash s : noSlash s = true -> Str.split Str.slash s = [s].
Proof.
  induction s as [|c s IH]; simpl; [reflexivity|].
  intros [Hc Hs]%andb_prop. apply negb_true_iff in Hc. rewrite Hc.
  rewrite (IH Hs). reflexivity.
Qed.

(** With a ["/"] in [s] the split has at least two parts. *)
Lemma split_slash s :
  noSlash s = false -> exists h x t, Str.split Str.slash s = h :: x :: t.
Proof.
  induction s as [|c s IH]; simpl; [discriminate|].
  destruct (Ascii.eqb c Str.slash); simpl.
  - intros _. destruct (split_nonempty Str.slash s) as (h & t & ->). eauto.
  - intros H. destruct (IH H) as (h & x & t & ->). eauto.
Qed.

Lemma stripPrefix_noSlash_id s : noSlash s = true -> Str.stripPrefix s = s.
Proof. intros H. unfold Str.stripPrefix. rewrite split_noSlash; auto. Qed.

Lemma stripPrefix_cons_slash s :
  Str.stripPrefix (String Str.slash s) = Str.stripPrefix s.
Proof.
  unfold Str.stripPrefix. simpl.
  destruct (split_nonempty Str.slash s) as (h & t & ->). reflexivity.
Qed.

Lemma stripPrefix_cons_other c s :
  Ascii.eqb c Str.slash = false -> noSlash s = false ->
  Str.stripPrefix (String c s) = Str.stripPrefix s.
Proof.
  intros Hc Hs. unfold Str.stripPrefix. simpl. rewrite Hc.
  destruct (split_slash s Hs) as (h & x & t & ->). reflexivity.
Qed.

Lemma stripPrefix_is_noSlash s : noSlash (Str.stripPrefix s) = true.
Proof.
  induction s as [|c s IH]; [reflexivity|].
  destruct (Ascii.eqb c Str.slash) eqn:Hc.
  - apply Ascii.eqb_eq in Hc. subst c. now rewrite stripPrefix_cons_slash.
  - destruct (noSlash s) eqn:Hs.
    + rewrite stripPrefix_noSlash_id; simpl; now rewrite ?Hc, ?Hs.
    + now rewrite stripPrefix_cons_other.
Qed.

(** [s.split("/").pop()] is the substring after the last ["/"]. *)
Lemma stripPrefix_afterLastSlash s : Str.stripPrefix s = afterLastSlash s.
Proof.
  induction s as [|c s IH]; [reflexivity|]. cbn [afterLastSlash].
  destruct (Ascii.eqb c Str.slash) eqn:Hc.
  - apply Ascii.eqb_eq in Hc. subst c. now rewrite stripPrefix_cons_slash.
  - destruct (noSlash s) eqn:Hs.
    + apply stripPrefix_noSlash_id. simpl. now rewrite Hc, Hs.
    + now rewrite stripPrefix_cons_other.
Qed.

(** What [afterLastSlash] returns has no ["/"], and is all of [s] or
    what follows a ["/"] of [s]. *)
Lemma afterLastSlash_spec s :
  noSlash (afterLastSlash s) = true
  /\ (noSlash s = true /\ afterLastSlash s = s
      \/ exists p, s = (p ++ String Str.slash (afterLastSlash s))%string).
Proof.
  split; [rewrite <- stripPrefix_afterLastSlash; apply stripPrefix_is_noSlash|].
  induction s as [|c s IH]; [left; split; reflexivity|].
  cbn [afterLastSlash noSlash].
  destruct (Ascii.eqb c Str.slash) eqn:Hc.
  - apply Ascii.eqb_eq in Hc. subst c. right.
    destruct IH as [[Hs ->]|[p Hp]].
    + now exists EmptyString.
    + exists (String Str.slash p). rewrite Hp at 1. reflexivity.
  - destruct (noSlash s) eqn:Hs; [left; split; reflexivity|]. right.
    destruct IH as [[Hs' _]|[p Hp]]; [congruence|].
    exists (String c p). rewrite Hp at 1. reflexivity.
Qed.

Lemma pop_split_stripPrefix s :
  Str.pop (Str.split Str.slash s) = Some (Str.stripPrefix s).
Proof.
  unfold Str.stripPrefix.
  destruct (split_nonempty Str.slash s) as (h & t & ->).
  revert h. induction t as [|x t IH]; intros h; [reflexivity|].
  change (Str.pop (h :: x :: t)) with (Str.pop (x :: t)). now rewrite IH.
Qed.

(** A string that ends with a suffix holding a ["/"] holds one too. *)
Lemma endsWith_slash_noSlash s m :
  noSlash s = true -> Str.endsWith s (String Str.slash m) = false.
Proof.
  induction s as [|c s IH]; intros Hs; [reflexivity|].
  simpl in Hs. apply andb_prop in Hs as [Hc Hs]. apply negb_true_iff in Hc.
  cbn [Str.endsWith].
  destruct (String.eqb_spec (String c s) (String Str.slash m)) as [E|_].
  - injection E as -> _. now rewrite Ascii.eqb_refl in Hc.
  - now apply IH.
Qed.

Lemma eqb_noSlash_mismatch s m :
  noSlash s = false -> noSlash m = true -> String.eqb s m = false.
Proof.
  intros Hs Hm. apply String.eqb_neq. intros ->. congruence.
Qed.

(** The test of the scan, for a model name without ["/"], compares the
    stripped key with it. *)
Lemma keyMatches_stripPrefix m key :
  noSlash m = true ->
  keyMatches (Some m) key = String.eqb (Str.stripPrefix key) m.
Proof.
  intros Hm. unfold keyMatches. cbn [Str.template].
  induction key as [|c k IH].
  - cbn. destruct m; reflexivity.
  - cbn [Str.endsWith].
    destruct (Ascii.eqb c Str.slash) eqn:Hc.
    + apply Ascii.eqb_eq in Hc. subst c. rewrite stripPrefix_cons_slash.
      rewrite <- IH.
      rewrite (eqb_noSlash_mismatch (String Str.slash k) m) by (auto; reflexivity).
      rewrite orb_false_r.
      change (String.eqb (String Str.slash k) (String Str.slash m))
        with (Ascii.eqb Str.slash Str.slash && String.eqb k m)%bool.
      rewrite Ascii.eqb_refl. cbn [andb].
      destruct (String.eqb k m); now rewrite ?orb_true_r, ?orb_false_r.
    + assert (String.eqb (String c k) (String Str.slash m) = false) as ->.
      { apply String.eqb_neq. intros E. injection E as -> _.
        now rewrite Ascii.eqb_refl in Hc. }
      destruct (noSlash k) eqn:Hk.
      * rewrite endsWith_slash_noSlash by assumption.
        rewrite stripPrefix_noSlash_id; [reflexivity|].
        simpl. now rewrite Hc, Hk.
      * rewrite stripPrefix_cons_other by assumption. rewrite <- IH.
        rewrite (eqb_noSlash_mismatch (String c k) m);
          [| simpl; now rewrite Hk, andb_false_r | assumption].
        rewrite (eqb_noSlash_mismatch k m) by assumption.
        reflexivity.
Qed.

End StrFacts.

(* ================================================================== *)
(** * Facts about objects *)
(* ================================================================== *)

Section ObjFacts.
Context {V : Type}.
Implicit Types (o : Obj.t V) (k : string) (v : V).

Lemma get_replace k v o k' :
  Obj.get k' (Obj.replace k v o) =
  if String.eqb k k' then option_map (fun _ => v) (Obj.get k o)
  else Obj.get k' o.
Proof.
  induction o as [|[k0 v0] o IH]; simpl.
  - now destruct (String.eqb k k').
  - destruct (String.eqb_spec k0 k) as [->|Hk0]; simpl.
    + destruct (String.eqb_spec k k'); reflexivity.
    + rewrite IH. destruct (String.eqb_spec k0 k') as [->|Hk'].
      * destruct (String.eqb_spec k k'); [congruence | reflexivity].
      * reflexivity.
Qed.

Lemma get_insertIndex n k v o k' :
  Obj.get k o = None ->
  Obj.get k' (Obj.insertIndex n k v o) =
  if String.eqb k k' then Some v else Obj.get k' o.
Proof.
  induction o as [|[k0 v0] o IH]; simpl; [reflexivity|].
  destruct (String.eqb_spec k0 k) as [->|Hk0]; [discriminate|]. intros Hget.
  destruct (Obj.arrayIndex k0) as [n'|]; [destruct (n <? n')%N|]; simpl;
    try reflexivity.
  rewrite (IH Hget).
  destruct (String.eqb_spec k0 k') as [->|]; [|reflexivity].
  destruct (String.eqb_spec k k'); [congruence | reflexivity].
Qed.

Lemma get_snoc k v o k' :
  Obj.get k o = None ->
  Obj.get k' (o ++ [(k, v)]) =
  if String.eqb k k' then Some v else Obj.get k' o.
Proof.
  induction o as [|[k0 v0] o IH]; simpl; [reflexivity|].
  destruct (String.eqb_spec k0 k) as [->|Hk0]; [discriminate|]. intros Hget.
  rewrite (IH Hget).
  destruct (String.eqb_spec k0 k') as [->|]; [|reflexivity].
  destruct (String.eqb_spec k k'); [congruence | reflexivity].
Qed.

(** Reading a property after a write. *)
Lemma get_set k v o k' :
  Obj.get k' (Obj.set k v o) =
  if String.eqb k k' then Some v else Obj.get k' o.
Proof.
  unfold Obj.set. destruct (Obj.get k o) as [v0|] eqn:Hget.
  - rewrite get_replace, Hget. reflexivity.
  - destruct (Obj.arrayIndex k).
    + now apply get_insertIndex.
    + now apply get_snoc.
Qed.

Lemma get_None_notin k o : Obj.get k o = None <-> ~ List.In k (List.map fst o).
Proof.
  induction o as [|[k0 v0] o IH]; simpl; [tauto|].
  destruct (String.eqb_spec k0 k) as [->|Hk0].
  - split; [discriminate | tauto].
  - rewrite IH. tauto.
Qed.

(** Copying [src] onto [target]: a key of [src] takes its value there,
    any other key keeps the target's. *)
Lemma get_assign (target src : Obj.t V) k :
  Obj.wf src ->
  Obj.get k (Obj.assign target src) =
  match Obj.get k src with
  | Some v => Some v
  | None => Obj.get k target
  end.
Proof.
  unfold Obj.assign, Obj.entries, Obj.wf.
  revert target. induction src as [|[k0 v0] src IH]; intros target Hwf; simpl.
  - reflexivity.
  - inversion Hwf as [|? ? Hnotin Hwf']; subst.
    rewrite (IH _ Hwf'), get_set.
    destruct (String.eqb_spec k0 k) as [->|Hne]; [|reflexivity].
    apply get_None_notin in Hnotin. simpl in Hnotin. now rewrite Hnotin.
Qed.

Lemma get_spread (a b : Obj.t V) k :
  Obj.wf a -> Obj.wf b ->
  Obj.get k (Obj.spread a (Some b)) =
  match Obj.get k b with
  | Some v => Some v
  | None => Obj.get k a
  end.
Proof.
  intros Ha Hb. unfold Obj.spread. rewrite !get_assign by assumption.
  simpl. now destruct (Obj.get k a).
Qed.

Lemma get_spread_None (a : Obj.t V) k :
  Obj.wf a -> Obj.get k (Obj.spread a None) = Obj.get k a.
Proof.
  intros Ha. unfold Obj.spread. rewrite get_assign by assumption.
  simpl. now destruct (Obj.get k a).
Qed.

(** [o[k].f = ...] and [if (!o[k]) o[k] = v], read back. *)
Lemma get_modify k (f : V -> V) o k' :
  Obj.get k' (Obj_modify k f o) =
  if String.eqb k k' then option_map f (Obj.get k' o) else Obj.get k' o.
Proof.
  unfold Obj_modify. destruct (Obj.get k o) as [v0|] eqn:Hget.
  - rewrite get_replace, Hget.
    destruct (String.eqb_spec k k') as [<-|]; [now rewrite Hget | reflexivity].
  - destruct (String.eqb_spec k k') as [<-|]; [now rewrite Hget | reflexivity].
Qed.

Lemma get_ensure k v o k' :
  Obj.get k' (Obj_ensure k v o) =
  if String.eqb k k' then
    match Obj.get k' o with
    | Some x => Some x
    | None => if inheritedName k then None else Some v
    end
  else Obj.get k' o.
Proof.
  unfold Obj_ensure, Obj_read. destruct (Obj.get k o) as [v0|] eqn:Hget.
  - destruct (String.eqb_spec k k') as [<-|]; [now rewrite Hget | reflexivity].
  - destruct (inheritedName k).
    + destruct (String.eqb_spec k k') as [<-|]; [now rewrite Hget | reflexivity].
    + rewrite get_set.
      destruct (String.eqb_spec k k') as [<-|]; [now rewrite Hget | reflexivity].
Qed.

(** An inherited name never becomes an own property by
    [if (!o[k]) o[k] = v]. *)
Lemma ensure_inherited k v o :
  inheritedName k = true -> Obj_ensure k v o = o.
Proof.
  intros H. unfold Obj_ensure, Obj_read. rewrite H.
  now destruct (Obj.get k o).
Qed.

End ObjFacts.

(* ================================================================== *)
(** * Pricing resolver *)
(* ================================================================== *)

Lemma find_ext {A} (f g : A -> bool) l :
  (forall x, f x = g x) -> List.find f l = List.find g l.
Proof.
  intros E. induction l as [|x l IH]; simpl; [reflexivity|].
  now rewrite E, IH.
Qed.

(** The source's resolver is the specification's, on any table, for a
    model that does not name an inherited member. *)
Lemma getPricing_resolve model config :
  inheritedName model = false ->
  getPricing model config = resolve model (pricing config).
Proof.
  intros Hplain. unfold getPricing, resolve, Obj_read. rewrite Hplain.
  destruct (Obj.get model (pricing config)); [reflexivity|].
  rewrite pop_split_stripPrefix.
  rewrite (find_ext _
    (fun kv => String.eqb (afterLastSlash (fst kv)) (afterLastSlash model))).
  - destruct (List.find _ _) as [[? ?]|]; reflexivity.
  - intros [key p]. rewrite <- !stripPrefix_afterLastSlash.
    apply keyMatches_stripPrefix, stripPrefix_is_noSlash.
Qed.

Lemma DEFAULT_PRICING_wf : Obj.wf DEFAULT_PRICING.
Proof.
  unfold Obj.wf. vm_compute.
  repeat (constructor; [simpl; intuition discriminate|]). constructor.
Qed.

(** C3 (amended). For a model string that does not name a member every
    object inherits (["constructor"], ["toString"] and the like), the
    resolver looks the model up by its exact key in the merged table, in
    which an override replaces only the default of the same key; failing
    that it returns the first entry, in the order [Object.entries] lists
    the table, whose key stripped of its provider prefix equals the
    stripped model name (a key ending in ["/" + name], or the bare
    name); failing that it reports absent. No step changes case or
    white space. So ["my-model"] resolves for ["acme/my-model"], while
    for ["anthropic/claude-sonnet-4-5"] the built-in entry of that exact
    key is returned, not an override keyed ["claude-sonnet-4-5"]. *)
Theorem C3_pricing_resolution
    (model hostname : string) (raw : option RawConfig)
    (defaults overrides : Obj.t ModelPricing) (config : PluginConfig) :
  inheritedName model = false ->
  Obj.wf defaults -> Obj.wf overrides ->
  getPricing model config = resolve model (pricing config)
  /\ pricing (getConfig hostname raw)
     = mergePricing DEFAULT_PRICING (chain raw r_pricing)
  /\ (forall k,
        Obj.get k (mergePricing defaults (Some overrides))
        = match Obj.get k overrides with
          | Some p => Some p
          | None => Obj.get k defaults
          end)
  /\ (forall k, Obj.get k (mergePricing defaults None) = Obj.get k defaults)
  /\ getPricing "acme/my-model" (configWith [("my-model", mkPricing 1 2 3 4)])
     = Some (mkPricing 1 2 3 4)
  /\ getPricing "anthropic/claude-sonnet-4-5"
       (configWith [("claude-sonnet-4-5", mkPricing 1 2 3 4)])
     = Some (mkPricing 3.00 15.00 0.30 3.75)
  /\ getPricing "gpt-5" defaultConfig = Some (mkPricing 1.25 10.00 0.125 0.0)
  /\ getPricing "openai/GPT-5" defaultConfig = None
  /\ getPricing "openai/gpt-5 " defaultConfig = None
  /\ getPricing "acme/unknown-model" defaultConfig = None.
Proof.
  intros Hplain Hd Ho.
  split; [apply getPricing_resolve, Hplain|].
  split; [reflexivity|].
  split; [intros k; apply get_spread; assumption|].
  split; [intros k; apply get_spread_None; assumption|].
  repeat split; vm_compute; reflexivity.
Qed.

(** The resolver on the built-in table with one bare override. *)
Lemma C3_pricing_resolution_witness :
  getPricing "acme/my-model" (configWith [("my-model", mkPricing 1 2 3 4)])
  = resolve "acme/my-model"
      (pricing (configWith [("my-model", mkPricing 1 2 3 4)])).
Proof.
  assert (Hd : Obj.wf DEFAULT_PRICING) by exact DEFAULT_PRICING_wf.
  assert (Ho : Obj.wf (Obj.literal [("my-model", mkPricing 1 2 3 4)])).
  { unfold Obj.wf. vm_compute. repeat constructor. simpl. tauto. }
  exact (proj1 (C3_pricing_resolution "acme/my-model" "localhost" None
                  DEFAULT_PRICING (Obj.literal [("my-model", mkPricing 1 2 3 4)])
                  (configWith [("my-model", mkPricing 1 2 3 4)])
                  eq_refl Hd Ho)).
Defined.

(** C3, as stated, fails: with the built-in table an override keyed
    ["claude-sonnet-4-5"] is not what ["anthropic/claude-sonnet-4-5"]
    resolves to; the default entry of that exact key is. *)
Lemma C3_counterexample_default_entry_wins :
  getPricing "anthropic/claude-sonnet-4-5"
    (configWith [("claude-sonnet-4-5", mkPricing 1 2 3 4)])
  = Some (mkPricing 3.00 15.00 0.30 3.75)
  /\ Some (mkPricing 3.00 15.00 0.30 3.75) <> Some (mkPricing 1 2 3 4).
Proof.
  split; [vm_compute; reflexivity|].
  intros E.
  apply (f_equal (fun o => match o with
                           | Some q => PrimFloat.eqb (p_input q) 3
                           | None => false
                           end)) in E.
  vm_compute in E. discriminate E.
Qed.

(* ================================================================== *)
(** * Cost calculator *)
(* ================================================================== *)

(** C2. With a rate card the cost is the sum over the four categories
    of count x rate / 1,000,000, whatever the fallback and also when
    the sum is zero; without one it is the fallback when that is
    strictly positive, and unknown otherwise. *)
Theorem C2_calculateCost_precedence
    (t : Tokens) (p : ModelPricing) (fallback : option float) (c : float) :
  calculateCost t (Some p) fallback = Some (rateSum t p)
  /\ calculateCost t None (Some c) = (if gt c 0 then Some c else None)
  /\ calculateCost t None None = None
  /\ calculateCost {| input := 0; output := 0; cacheRead := 0; cacheWrite := 0 |}
       (Some (mkPricing 3.00 15.00 0.30 3.75)) (Some 2.5%float)
     = Some 0%float
  /\ calculateCost t (getPricing "acme/unknown-model" defaultConfig)
       (Some 2.5%float) = Some 2.5%float
  /\ calculateCost t (getPricing "acme/unknown-model" defaultConfig)
       (Some 0%float) = None
  /\ calculateCost t (getPricing "acme/unknown-model" defaultConfig) None = None
  /\ calculateCost t None (Some (-1)%float) = None
  /\ calculateCost t None (Some nan) = None.
Proof.
  repeat split; reflexivity.
Qed.

(* ================================================================== *)
(** * Usage store: idempotent insert *)
(* ================================================================== *)

Section StoreFacts.
Implicit Types (db : Table) (r : TokenUsageRecord) (m : string).

Lemma hasMessage_conflicts r db :
  hasMessage (message_id r) db = true -> List.existsb (conflicts r) db = true.
Proof.
  unfold hasMessage. rewrite !List.existsb_exists.
  intros (x & Hin & Hx). exists x. split; [assumption|].
  unfold conflicts. now rewrite Hx, orb_true_r.
Qed.

Lemma fresh_no_conflict r db :
  hasMessage (message_id r) db = false -> hasId (id r) db = false ->
  List.existsb (conflicts r) db = false.
Proof.
  unfold hasMessage, hasId, conflicts.
  induction db as [|x db IH]; simpl; [reflexivity|].
  intros [-> Hm]%orb_false_elim [-> Hi]%orb_false_elim. simpl. auto.
Qed.

Lemma withMessage_nil m db : hasMessage m db = false -> withMessage m db = [].
Proof.
  unfold hasMessage, withMessage.
  induction db as [|x db IH]; simpl; [reflexivity|].
  intros [-> Hm]%orb_false_elim. auto.
Qed.

Lemma hasMessage_app m db db' :
  hasMessage m (db ++ db') = hasMessage m db || hasMessage m db'.
Proof. apply List.existsb_app. Qed.

(** A stored message absorbs the insert of any record that carries it:
    nothing is written, and [true] is returned unless storage fails. *)
Lemma insert_duplicate fault r db :
  hasMessage (message_id r) db = true -> insert fault r db = (db, negb fault).
Proof.
  intros H. unfold insert. destruct fault; [reflexivity|].
  now rewrite (hasMessage_conflicts _ _ H).
Qed.

(** A record with a new message and a new id is appended. *)
Lemma insert_fresh r db :
  hasMessage (message_id r) db = false -> hasId (id r) db = false ->
  insert false r db = (db ++ [r], true).
Proof.
  intros Hm Hi. unfold insert. now rewrite (fresh_no_conflict _ _ Hm Hi).
Qed.

(** No insert touches the rows of a message that is stored. *)
Lemma insert_keeps_message fault r m db :
  hasMessage m db = true ->
  withMessage m (fst (insert fault r db)) = withMessage m db
  /\ hasMessage m (fst (insert fault r db)) = true.
Proof.
  intros H. unfold insert. destruct fault; [auto|].
  destruct (List.existsb (conflicts r) db) eqn:Hc; [auto|]. simpl.
  split.
  - unfold withMessage. rewrite List.filter_app. simpl.
    destruct (String.eqb_spec (message_id r) m) as [<-|_].
    + now rewrite (hasMessage_conflicts _ _ H) in Hc.
    + apply List.app_nil_r.
  - now rewrite hasMessage_app, H.
Qed.

Lemma inserts_keep_message ops m db :
  hasMessage m db = true ->
  withMessage m (inserts ops db) = withMessage m db
  /\ hasMessage m (inserts ops db) = true.
Proof.
  revert db. induction ops as [|[f r] ops IH]; intros db H; [auto|].
  unfold inserts in *. simpl.
  destruct (insert_keeps_message f r m db H) as [E1 E2].
  destruct (IH _ E2) as [E3 E4]. split; congruence.
Qed.

(** A store grown from nothing holds each message once. *)
Lemma insert_NoDup fault r db :
  List.NoDup (List.map message_id db) ->
  List.NoDup (List.map message_id (fst (insert fault r db))).
Proof.
  intros H. unfold insert. destruct fault; [assumption|].
  destruct (List.existsb (conflicts r) db) eqn:Hc; [assumption|]. simpl.
  rewrite List.map_app. simpl.
  apply List.NoDup_app; repeat split; try assumption.
  - repeat constructor. simpl. tauto.
  - intros m Hin [<-|[]].
    apply List.in_map_iff in Hin as (x & Hx & Hin).
    assert (List.existsb (conflicts r) db = true) as E; [|congruence].
    apply List.existsb_exists. exists x. split; [assumption|].
    unfold conflicts. rewrite Hx, String.eqb_refl. apply orb_true_r.
Qed.

Lemma inserts_NoDup ops db :
  List.NoDup (List.map message_id db) ->
  List.NoDup (List.map message_id (inserts ops db)).
Proof.
  revert db. induction ops as [|[f r] ops IH]; intros db H; [assumption|].
  apply IH, insert_NoDup, H.
Qed.

End StoreFacts.

(** C1. Of two records with the same [messageId], inserted with any
    other inserts between and after them, the store keeps exactly one
    row for that message: the record inserted first (a new message under
    a newly generated id, written by a working store). The second insert
    changes nothing and reports success unless the storage layer itself
    fails. A store grown from an empty one never holds a message twice,
    and migrating a migrated store changes nothing. *)
Theorem C1_insert_idempotent
    (db0 : Table) (r1 r2 : TokenUsageRecord)
    (between after : list (bool * TokenUsageRecord)) (fault2 : bool) :
  message_id r2 = message_id r1 ->
  hasMessage (message_id r1) db0 = false ->
  hasId (id r1) db0 = false ->
  let db1 := fst (insert false r1 db0) in
  let db2 := inserts between db1 in
  let db3 := fst (insert fault2 r2 db2) in
  insert fault2 r2 db2 = (db2, negb fault2)
  /\ withMessage (message_id r1) db3 = [r1]
  /\ withMessage (message_id r1) (inserts after db3) = [r1]
  /\ (forall ops, List.NoDup (List.map message_id (inserts ops (migrate None))))
  /\ (forall file, migrate (Some (migrate file)) = migrate file).
Proof.
  intros Hsame Hm Hi db1 db2 db3.
  assert (Hdb1 : db1 = db0 ++ [r1]).
  { unfold db1. now rewrite insert_fresh. }
  assert (H1 : hasMessage (message_id r1) db1 = true).
  { rewrite Hdb1, hasMessage_app. unfold hasMessage at 2. simpl.
    rewrite String.eqb_refl. apply orb_true_r. }
  assert (W1 : withMessage (message_id r1) db1 = [r1]).
  { rewrite Hdb1. unfold withMessage. rewrite List.filter_app.
    fold (withMessage (message_id r1) db0). rewrite (withMessage_nil _ _ Hm).
    simpl. now rewrite String.eqb_refl. }
  destruct (inserts_keep_message between _ _ H1) as [W2 H2]. fold db2 in W2, H2.
  assert (E : insert fault2 r2 db2 = (db2, negb fault2)).
  { apply insert_duplicate. now rewrite Hsame. }
  assert (E3 : db3 = db2) by (unfold db3; now rewrite E).
  split; [exact E|]. rewrite E3.
  split; [congruence|].
  split.
  - destruct (inserts_keep_message after _ _ H2) as [W3 _]. congruence.
  - split.
    + intros ops. apply inserts_NoDup. constructor.
    + intros [rows|]; reflexivity.
Qed.

(** Two records of message [m1] among other inserts, one of which the
    storage layer fails. *)
Lemma C1_insert_idempotent_witness :
  let r0 := row "id0" "s1" "m0" "openai/gpt-5" 10 20 None "2024-01-01T00:00:00.000Z" in
  let r1 := row "id1" "s1" "m1" "openai/gpt-5" 1000 500 (Some 0.01%float)
              "2024-01-02T00:00:00.000Z" in
  let r2 := row "id2" "s2" "m1" "anthropic/claude-opus-4-5" 7 7 None
              "2024-01-03T00:00:00.000Z" in
  let r3 := row "id3" "s1" "m3" "openai/gpt-5" 1 1 None "2024-01-02T12:00:00.000Z" in
  withMessage "m1"
    (inserts [(false, r2); (false, r3)]
       (fst (insert false r2
               (inserts [(false, r3); (true, r2)]
                  (fst (insert false r1 [r0]))))))
  = [r1].
Proof.
  intros r0 r1 r2 r3.
  exact (proj1 (proj2 (proj2
    (C1_insert_idempotent [r0] r1 r2 [(false, r3); (true, r2)]
       [(false, r2); (false, r3)] false eq_refl eq_refl eq_refl)))).
Defined.

(* ================================================================== *)
(** * Aggregation *)
(* ================================================================== *)

Section SumFacts.

Lemma sumZ_cons x l : sumZ (x :: l) = x + sumZ l.
Proof. reflexivity. Qed.

Lemma sumZ_app l1 l2 : sumZ (l1 ++ l2) = sumZ l1 + sumZ l2.
Proof. induction l1 as [|x l1 IH]; simpl; [reflexivity | rewrite IH; ring]. Qed.

Lemma knownCosts_app rs1 rs2 :
  knownCosts (rs1 ++ rs2) = knownCosts rs1 ++ knownCosts rs2.
Proof.
  induction rs1 as [|r rs1 IH]; simpl; [reflexivity|].
  destruct (cost r); simpl; now rewrite IH.
Qed.

Lemma sumCosts_snoc cs c : sumCosts (cs ++ [c]) = (sumCosts cs + c)%float.
Proof. unfold sumCosts. now rewrite List.fold_left_app. Qed.

Lemma modelCost_snoc cs c :
  modelCost (cs ++ [c]) = Some (addCost (modelCost cs) c).
Proof.
  destruct cs as [|c0 cs]; [reflexivity|].
  change (modelCost ((c0 :: cs) ++ [c])) with (Some (sumCosts ((c0 :: cs) ++ [c]))).
  now rewrite sumCosts_snoc.
Qed.

Lemma existsb_hasCost rs :
  List.existsb hasCost rs = negb (isNone (modelCost (knownCosts rs))).
Proof.
  induction rs as [|r rs IH]; simpl; [reflexivity|].
  unfold hasCost at 1. destruct (cost r); simpl; [reflexivity | exact IH].
Qed.

Lemma forallb_unknown rs :
  List.forallb (fun r => isNone (cost r)) rs = isNone (modelCost (knownCosts rs)).
Proof.
  induction rs as [|r rs IH]; simpl; [reflexivity|].
  destruct (cost r); simpl; [reflexivity | exact IH].
Qed.

(** The entry of a model after one more of its records. *)
Lemma aggregateOf_snoc rs r :
  aggregateOf (rs ++ [r]) =
  {| a_tokens := a_tokens (aggregateOf rs) + recordTokens r;
     a_cost := match cost r with
               | Some c => Some (addCost (a_cost (aggregateOf rs)) c)
               | None => a_cost (aggregateOf rs)
               end |}.
Proof.
  unfold aggregateOf. cbn [a_tokens a_cost].
  rewrite List.map_app, sumZ_app, knownCosts_app. simpl.
  rewrite Z.add_0_r. f_equal.
  destruct (cost r); [apply modelCost_snoc | now rewrite List.app_nil_r].
Qed.

End SumFacts.

(** What the loop of [calculateAggregates] holds after [rs]. *)
Lemma aggregate_loop rs :
  let st := List.fold_left aggregateStep rs aggregateInit in
  l_totalTokens st = sumZ (List.map recordTokens rs)
  /\ l_totalCost st = sumCosts (knownCosts rs)
  /\ l_hasAnyCost st = List.existsb hasCost rs
  /\ forall m,
       Obj.get m (l_byModel st) =
       if inheritedName m then None
       else match ofModel m rs with
            | [] => None
            | ms => Some (aggregateOf ms)
            end.
Proof.
  induction rs as [|r rs IH] using List.rev_ind.
  - simpl. repeat split; try reflexivity. intros m. now destruct (inheritedName m).
  - cbv zeta in *. rewrite List.fold_left_app. simpl.
    set (st := List.fold_left aggregateStep rs aggregateInit) in *.
    destruct IH as (Ht & Hc & Hh & Hm).
    unfold aggregateStep. cbn [l_totalTokens l_totalCost l_hasAnyCost l_byModel].
    repeat split.
    + rewrite List.map_app, sumZ_app, Ht. simpl. ring.
    + rewrite knownCosts_app, Hc. simpl.
      destruct (cost r); [now rewrite sumCosts_snoc | now rewrite List.app_nil_r].
    + rewrite List.existsb_app, Hh. simpl.
      unfold hasCost.
      destruct (cost r); simpl; now rewrite ?orb_true_r, ?orb_false_r.
    + intros m. unfold ofModel. rewrite List.filter_app. simpl.
      fold (ofModel m rs). specialize (Hm m).
      destruct (String.eqb_spec (model r) m) as [E|E].
      * rewrite E.
        assert (Hnew : Some (aggregateOf (ofModel m rs ++ [r]))
                       = match ofModel m rs ++ [r] with
                         | [] => None
                         | ms => Some (aggregateOf ms)
                         end) by now destruct (ofModel m rs).
        rewrite <- Hnew, aggregateOf_snoc.
        destruct (cost r) as [c|] eqn:Hcost;
          rewrite ?get_modify, get_ensure, ?String.eqb_refl, Hm;
          (destruct (inheritedName m); [reflexivity|]);
          now destruct (ofModel m rs).
      * rewrite List.app_nil_r, <- Hm.
        apply String.eqb_neq in E.
        destruct (cost r) as [c|]; rewrite ?get_modify, get_ensure, ?E; reflexivity.
Qed.

(** C4. The aggregate token total is the sum of the four token fields
    over all records, the message count is the number of records, the
    cost total adds the known costs only and is the number zero when
    no record has one.  The per-model entries are those of the models
    that do not name a member every object inherits: such a model with
    records has an entry whose tokens and known costs are summed over
    its records.  Each per-model cost there is, is unknown exactly when
    each record of that model has an unknown cost.  The two records of
    the specification give 3500 tokens, cost 0.01 and two messages. *)
Theorem C4_calculateAggregates_fold (records : list TokenUsageRecord) (m : string) :
  let agg := calculateAggregates records in
  agg_tokens agg = sumZ (List.map recordTokens records)
  /\ agg_messages agg = Z.of_nat (List.length records)
  /\ agg_cost agg = sumCosts (knownCosts records)
  /\ agg_cost agg
     = (if List.existsb hasCost records then sumCosts (knownCosts records)
        else 0%float)
  /\ Obj.get m (agg_byModel agg)
     = (if inheritedName m then None
        else match ofModel m records with
             | [] => None
             | ms => Some (aggregateOf ms)
             end)
  /\ match Obj.get m (agg_byModel agg) with
     | Some e =>
         isNone (a_cost e)
         = List.forallb (fun r => isNone (cost r)) (ofModel m records)
     | None => True
     end
  /\ (let two :=
        calculateAggregates
          [ row "a" "s1" "m1" "openai/gpt-5" 1000 500 (Some 0.01%float)
              "2024-01-01T10:00:00.000Z";
            row "b" "s1" "m2" "openai/gpt-5" 2000 0 None
              "2024-01-01T11:00:00.000Z" ] in
      agg_tokens two = 3500 /\ agg_cost two = 0.01%float
      /\ agg_messages two = 2
      /\ option_map a_cost (Obj.get "openai/gpt-5" (agg_byModel two))
         = Some (Some 0.01%float)).
Proof.
  destruct (aggregate_loop records) as (Ht & Hc & Hh & Hm).
  cbv zeta. unfold calculateAggregates.
  cbn [agg_tokens agg_messages agg_cost agg_byModel].
  assert (Hcost : (if l_hasAnyCost (List.fold_left aggregateStep records aggregateInit)
                   then l_totalCost (List.fold_left aggregateStep records aggregateInit)
                   else 0%float)
                  = sumCosts (knownCosts records)).
  { rewrite Hh, Hc, existsb_hasCost.
    now destruct (knownCosts records). }
  split; [exact Ht|]. split; [reflexivity|]. split; [exact Hcost|].
  split.
  { rewrite Hcost, existsb_hasCost. now destruct (knownCosts records). }
  split; [apply Hm|].
  split.
  { rewrite Hm. destruct (inheritedName m); [exact I|].
    destruct (ofModel m records) as [|r0 ms]; [exact I|].
    cbn [aggregateOf a_cost]. symmetry. apply forallb_unknown. }
  vm_compute. repeat split; reflexivity.
Qed.

(* ================================================================== *)
(** * Range query *)
(* ================================================================== *)

Section OrderFacts.

Lemma ascii_compare_refl a : Ascii.compare a a = Eq.
Proof. apply N.compare_refl. Qed.

Lemma ascii_compare_lt_trans a b c :
  Ascii.compare a b = Lt -> Ascii.compare b c = Lt -> Ascii.compare a c = Lt.
Proof.
  unfold Ascii.compare. rewrite !N.compare_lt_iff. apply N.lt_trans.
Qed.

Lemma compare_refl s : String.compare s s = Eq.
Proof.
  induction s as [|a s IH]; simpl; [reflexivity|].
  now rewrite ascii_compare_refl.
Qed.

Lemma compare_lt_trans s1 : forall s2 s3,
  String.compare s1 s2 = Lt -> String.compare s2 s3 = Lt ->
  String.compare s1 s3 = Lt.
Proof.
  induction s1 as [|a s1 IH]; intros [|b s2] [|c s3]; simpl;
    try discriminate; try reflexivity.
  destruct (Ascii.compare a b) eqn:Eab; try discriminate;
    destruct (Ascii.compare b c) eqn:Ebc; try discriminate; intros H1 H2.
  - apply Ascii.compare_eq_iff in Eab, Ebc. subst.
    rewrite ascii_compare_refl. eauto.
  - apply Ascii.compare_eq_iff in Eab. subst. now rewrite Ebc.
  - apply Ascii.compare_eq_iff in Ebc. subst. now rewrite Eab.
  - now rewrite (ascii_compare_lt_trans _ _ _ Eab Ebc).
Qed.

Lemma strLe_cases a b : strLe a b <-> String.compare a b = Lt \/ a = b.
Proof.
  unfold strLe, String.leb. split.
  - destruct (String.compare a b) eqn:E; try discriminate; intros _.
    + right. now apply String.compare_eq_iff.
    + now left.
  - intros [-> | ->]; [reflexivity | now rewrite compare_refl].
Qed.

Lemma strLe_trans a b c : strLe a b -> strLe b c -> strLe a c.
Proof.
  rewrite !strLe_cases. intros [H1 | ->] [H2 | ->]; auto.
  left. eapply compare_lt_trans; eassumption.
Qed.

Lemma strLe_total a b : String.leb a b = false -> strLe b a.
Proof.
  intros H. destruct (String.leb_total a b) as [E|E]; [congruence | exact E].
Qed.

Lemma insertRow_Permutation r l : Permutation (insertRow r l) (r :: l).
Proof.
  induction l as [|x l IH]; simpl; [reflexivity|].
  destruct (String.leb (created_at r) (created_at x)); [reflexivity|].
  rewrite IH. apply perm_swap.
Qed.

Lemma orderByCreatedAt_Permutation l : Permutation (orderByCreatedAt l) l.
Proof.
  induction l as [|x l IH]; simpl; [reflexivity|].
  rewrite insertRow_Permutation. now constructor.
Qed.

Lemma insertRow_HdRel r x l :
  byCreatedAt x r -> HdRel byCreatedAt x l -> HdRel byCreatedAt x (insertRow r l).
Proof.
  intros Hxr Hl. destruct l as [|y l]; simpl; [now constructor|].
  destruct (String.leb (created_at r) (created_at y)); constructor;
    [assumption | now inversion Hl].
Qed.

Lemma insertRow_Sorted r l :
  Sorted byCreatedAt l -> Sorted byCreatedAt (insertRow r l).
Proof.
  induction 1 as [|x l Hs IH Hhd]; simpl; [repeat constructor|].
  destruct (String.leb (created_at r) (created_at x)) eqn:E.
  - constructor; [now constructor | now constructor].
  - constructor; [exact IH|].
    apply insertRow_HdRel; [|assumption]. now apply strLe_total.
Qed.

Lemma orderByCreatedAt_Sorted l : Sorted byCreatedAt (orderByCreatedAt l).
Proof.
  induction l as [|x l IH]; simpl; [constructor | now apply insertRow_Sorted].
Qed.

(** The rows come back in ascending [created_at]. *)
Lemma orderByCreatedAt_StronglySorted l :
  StronglySorted byCreatedAt (orderByCreatedAt l).
Proof.
  apply Sorted_StronglySorted; [|apply orderByCreatedAt_Sorted].
  intros x y z. apply strLe_trans.
Qed.

End OrderFacts.

Section SetFacts.

Lemma existsb_eqb_elem x (s : list string) :
  List.existsb (String.eqb x) s = true <-> x ∈ s.
Proof.
  rewrite List.existsb_exists, list_elem_of_In. split.
  - intros (y & Hin & ->%String.eqb_eq). exact Hin.
  - intros Hin. exists x. split; [exact Hin | apply String.eqb_refl].
Qed.

Lemma Set_add_spec x (s : JsSet) :
  NoDup s -> NoDup (Set_add x s) /\ forall y, y ∈ Set_add x s <-> y = x \/ y ∈ s.
Proof.
  intros Hnd. unfold Set_add.
  destruct (List.existsb (String.eqb x) s) eqn:E.
  - apply existsb_eqb_elem in E. split; [exact Hnd|].
    intros y. split; [auto | intros [->|]; assumption].
  - assert (Hx : x ∉ s).
    { intros Hin%existsb_eqb_elem. congruence. }
    split.
    + apply NoDup_app. repeat split; [exact Hnd | | apply NoDup_singleton].
      intros y Hy ->%list_elem_of_singleton. contradiction.
    + intros y. rewrite elem_of_app, list_elem_of_singleton. tauto.
Qed.

Lemma Set_fold_spec (l : list string) (s : JsSet) :
  NoDup s ->
  NoDup (List.fold_left (fun s x => Set_add x s) l s)
  /\ forall y, y ∈ List.fold_left (fun s x => Set_add x s) l s <-> y ∈ s \/ y ∈ l.
Proof.
  revert s. induction l as [|x l IH]; intros s Hnd; simpl.
  - split; [exact Hnd|]. intros y. rewrite elem_of_nil. tauto.
  - destruct (Set_add_spec x s Hnd) as [Hnd' Hin'].
    destruct (IH _ Hnd') as [Hnd'' Hin'']. split; [exact Hnd''|].
    intros y. rewrite Hin'', Hin', elem_of_cons. tauto.
Qed.

(** The size of [new Set(l)] is the number of distinct values of [l]. *)
Lemma Set_size_distinct (l : list string) : Set_size (Set_new l) = distinctCount l.
Proof.
  unfold Set_size, distinctCount, Set_new.
  destruct (Set_fold_spec l [] (NoDup_nil_2)) as [Hnd Hin].
  rewrite <- (size_list_to_set (C := gset string) _ Hnd).
  do 2 f_equal. apply set_eq. intros y.
  rewrite !elem_of_list_to_set, Hin, elem_of_nil. tauto.
Qed.

End SetFacts.

Section LikeFacts.

Lemma likeChars_percent p s :
  likeChars (37%N :: p) s =
  likeChars p s || match s with
                   | [] => false
                   | _ :: s' => likeChars (37%N :: p) s'
                   end.
Proof. destruct s; reflexivity. Qed.

Lemma likeChars_other c p d s :
  (c =? 37)%N = false ->
  likeChars (c :: p) (d :: s) =
  ((c =? 95)%N || sameChar c d) && likeChars p s.
Proof. intros H. simpl. now rewrite H. Qed.

(** [%] alone matches everything. *)
Lemma likeChars_any s : likeChars [37%N] s = true.
Proof.
  induction s as [|c s IH]; [reflexivity|].
  rewrite likeChars_percent. now rewrite IH, orb_true_r.
Qed.

(** A leading [%] skips any prefix. *)
Lemma likeChars_skip a p s :
  likeChars p s = true -> likeChars (37%N :: p) (a ++ s) = true.
Proof.
  intros H. induction a as [|c a IH].
  - rewrite likeChars_percent. cbn [app]. now rewrite H.
  - cbn [app]. rewrite likeChars_percent. now rewrite IH, orb_true_r.
Qed.

Lemma sameChar_refl c : sameChar c c = true.
Proof. unfold sameChar. now rewrite N.eqb_refl. Qed.

(** A pattern matches itself, whatever it holds, before a final [%]. *)
Lemma likeChars_self n b : likeChars (n ++ [37%N]) (n ++ b) = true.
Proof.
  induction n as [|c n IH]; [apply likeChars_any|].
  cbn [app].
  destruct (c =? 37)%N eqn:Hc.
  - apply N.eqb_eq in Hc. subst c.
    rewrite likeChars_percent.
    assert (likeChars (37%N :: n ++ [37%N]) (n ++ b) = true) as ->.
    { rewrite likeChars_percent. now rewrite IH. }
    apply orb_true_r.
  - rewrite likeChars_other by assumption.
    now rewrite IH, sameChar_refl, orb_true_r.
Qed.

Lemma append_cons a (x y : string) :
  (String a x ++ y)%string = String a (x ++ y)%string.
Proof. reflexivity. Qed.

Lemma append_nil (y : string) : ("" ++ y)%string = y.
Proof. reflexivity. Qed.

Lemma noNul_app x y : noNul (x ++ y)%string = noNul x && noNul y.
Proof.
  induction x as [|a x IH]; [reflexivity|].
  rewrite append_cons. cbn [noNul]. now rewrite IH, andb_assoc.
Qed.

Lemma isAscii_app x y : isAscii (x ++ y)%string = isAscii x && isAscii y.
Proof.
  induction x as [|a x IH]; [reflexivity|].
  rewrite append_cons. cbn [isAscii]. now rewrite IH, andb_assoc.
Qed.

Lemma isAscii_noNul s : isAscii s = true -> noNul s = true.
Proof.
  induction s as [|a s IH]; [reflexivity|]. cbn [isAscii noNul].
  intros [[H1 _]%andb_prop H2]%andb_prop. rewrite (IH H2), andb_true_r.
  apply N.leb_le in H1. apply negb_true_iff, N.eqb_neq.
  lia.
Qed.

Lemma isAscii_startsChar s : isAscii s = true -> startsChar s = true.
Proof.
  destruct s as [|a s]; [reflexivity|]. cbn [isAscii startsChar].
  intros [[_ H1]%andb_prop _]%andb_prop.
  apply negb_true_iff, andb_false_iff. left.
  apply N.leb_gt. apply N.ltb_lt in H1. exact H1.
Qed.

(** Reading the characters of a text that continues after a character
    boundary: those of the first part, then those of the rest. *)
Lemma utf8Chars_app x y :
  noNul x = true -> startsChar y = true ->
  forall pending,
    utf8Chars pending (x ++ y)%string
    = utf8Chars pending x ++ utf8Chars None y.
Proof.
  intros Hx Hy. induction x as [|a x IH]; intros pending.
  - rewrite append_nil. destruct pending as [c|]; [|reflexivity].
    destruct y as [|b y]; [reflexivity|].
    cbn [startsChar] in Hy. apply negb_true_iff in Hy.
    cbn [utf8Chars]. now rewrite Hy.
  - rewrite append_cons. cbn [noNul] in Hx.
    apply andb_prop in Hx as [Ha Hx]. apply negb_true_iff in Ha.
    specialize (IH Hx).
    destruct pending as [c|]; cbn [utf8Chars]; rewrite Ha, !IH;
      repeat match goal with
             | |- context [if ?b then _ else _] => destruct b
             end; reflexivity.
Qed.

(** A model without zero bytes in which the filter occurs from one
    character boundary to another is matched by [%filter%]. *)
Lemma occurrence_like a f b :
  noNul (a ++ f ++ b)%string = true ->
  startsChar f = true -> startsChar b = true ->
  like ("%" ++ f ++ "%") (a ++ f ++ b) = true.
Proof.
  rewrite !noNul_app. intros [Ha [Hf Hb]%andb_prop]%andb_prop Sf Sb.
  unfold like.
  assert (Sfb : startsChar (f ++ b)%string = true).
  { destruct f as [|c f]; [exact Sb | exact Sf]. }
  rewrite (utf8Chars_app a _ Ha Sfb), (utf8Chars_app f b Hf Sb).
  rewrite append_cons, append_nil.
  change (utf8Chars None (String "%" (f ++ "%")))
    with (37%N :: utf8Chars None (f ++ "%")%string).
  rewrite (utf8Chars_app f "%" Hf eq_refl).
  apply likeChars_skip, likeChars_self.
Qed.

Lemma startsWith_append n h :
  Str.startsWith h n = true -> exists b, h = (n ++ b)%string.
Proof.
  revert h. induction n as [|c n IH]; intros h; simpl.
  - eauto.
  - destruct h as [|d h]; [discriminate|].
    intros [->%Ascii.eqb_eq (b & ->)%IH]%andb_prop. eauto.
Qed.

Lemma includes_append h n :
  Str.includes h n = true -> exists a b, h = (a ++ n ++ b)%string.
Proof.
  induction h as [|c h IH]; cbn [Str.includes].
  - destruct (Str.startsWith "" n) eqn:E; [|discriminate]. intros _.
    apply startsWith_append in E as (b & ->). now exists "", b.
  - destruct (Str.startsWith (String c h) n) eqn:E.
    + intros _. apply startsWith_append in E as (b & ->). now exists "", b.
    + intros (a & b & ->)%IH. now exists (String c a), b.
Qed.

(** Every ASCII model that contains the filter is matched by
    [%filter%]. *)
Lemma includes_like h n :
  isAscii h = true -> Str.includes h n = true ->
  like ("%" ++ n ++ "%") h = true.
Proof.
  intros Hh (a & b & ->)%includes_append.
  pose proof (isAscii_noNul _ Hh) as Hnul.
  rewrite !isAscii_app in Hh.
  apply andb_prop in Hh as [_ [Hn Hb]%andb_prop].
  apply occurrence_like; auto using isAscii_startsChar.
Qed.

(** The empty filter's pattern matches every model. *)
Lemma like_empty_filter s : like ("%" ++ "" ++ "%") s = true.
Proof.
  unfold like.
  change (utf8Chars None ("%" ++ "" ++ "%")) with [37%N; 37%N].
  rewrite likeChars_percent. now rewrite likeChars_any.
Qed.

End LikeFacts.

(** The [WHERE] clause holds of the rows in range. *)
Lemma rangeWhere_inRange machineId startDate endDate modelFilter r :
  rangeWhere machineId startDate endDate modelFilter r = true
  <-> inRange machineId startDate endDate modelFilter r.
Proof.
  unfold rangeWhere, inRange, strLe, strLt.
  rewrite !andb_true_iff, String.eqb_eq.
  destruct modelFilter as [[|c f]|].
  - pose proof (like_empty_filter (model r)). tauto.
  - tauto.
  - tauto.
Qed.

(** C6 (amended). The range query returns exactly the stored rows of
    the given machine whose [created_at] lies in the half-open interval
    and, when a filter is given, whose model matches the [LIKE] pattern
    [%filter%]: the filter may occur anywhere in the model, letters
    compare without regard to ASCII case, and [%] and [_] in the filter
    are wildcards ([_] for one character, of one or more bytes). The
    rows come in ascending [created_at], with the count of their
    distinct session ids. A model without zero bytes is matched whenever
    the filter occurs in it from one character boundary to another, and
    so is every ASCII model that contains the filter: ["sonnet"] matches
    ["anthropic/claude-sonnet-4-5"] and excludes ["openai/gpt-5"]. *)
Theorem C6_range_query
    (machineId startDate endDate : string) (modelFilter : option string)
    (db : Table) :
  let res := getAggregateStats machineId startDate endDate modelFilter db in
  (forall r, List.In r (fst res)
             <-> List.In r db
                 /\ inRange machineId startDate endDate modelFilter r)
  /\ Permutation (fst res)
       (List.filter (rangeWhere machineId startDate endDate modelFilter) db)
  /\ StronglySorted byCreatedAt (fst res)
  /\ snd res = distinctCount (List.map session_id (fst res))
  /\ (forall a f b,
        noNul (a ++ f ++ b)%string && startsChar f && startsChar b = true ->
        like ("%" ++ f ++ "%") (a ++ f ++ b) = true)
  /\ (forall f m,
        isAscii m && Str.includes m f = true ->
        like ("%" ++ f ++ "%") m = true)
  /\ (let sonnet := row "a" "s1" "m1" "anthropic/claude-sonnet-4-5" 10 5 None
                      "2024-03-01T10:00:00.000Z" in
      let gpt := row "b" "s2" "m2" "openai/gpt-5" 10 5 None
                   "2024-03-01T09:00:00.000Z" in
      let cafe := row "c" "s3" "m3" "acme/café-1" 10 5 None
                    "2024-03-01T08:00:00.000Z" in
      getAggregateStats "host" "2024-03-01T00:00:00.000Z" farFuture
        (Some "sonnet") [sonnet; gpt] = ([sonnet], 1)
      /\ getAggregateStats "host" "2024-03-01T00:00:00.000Z" farFuture
           None [sonnet; gpt] = ([gpt; sonnet], 2)
      /\ getAggregateStats "host" "2024-03-01T00:00:00.000Z" farFuture
           (Some "Claude_Sonnet") [sonnet; gpt] = ([sonnet], 1)
      /\ getAggregateStats "host" "2024-03-01T00:00:00.000Z" farFuture
           (Some "caf_-1") [sonnet; cafe] = ([cafe], 1)
      /\ getAggregateStats "host" "2024-03-01T00:00:00.000Z" farFuture
           (Some "caf__-1") [sonnet; cafe] = ([], 0)
      /\ getAggregateStats "host" "2024-03-01T00:00:00.000Z" farFuture
           (Some "CAFÉ") [sonnet; cafe] = ([], 0)
      /\ getAggregateStats "host" "2024-03-01T10:00:00.000Z"
           "2024-03-01T10:00:00.000Z" None [sonnet; gpt] = ([], 0)
      /\ getAggregateStats "other" "2024-03-01T00:00:00.000Z" farFuture
           None [sonnet; gpt] = ([], 0)).
Proof.
  cbv zeta. unfold getAggregateStats. cbn [fst snd].
  split.
  { intros r. rewrite <- rangeWhere_inRange, <- List.filter_In.
    split; apply Permutation_in;
      [|symmetry]; apply orderByCreatedAt_Permutation. }
  split; [apply orderByCreatedAt_Permutation|].
  split; [apply orderByCreatedAt_StronglySorted|].
  split; [apply Set_size_distinct|].
  split.
  { intros a f b [[H1 H2]%andb_prop H3]%andb_prop.
    now apply occurrence_like. }
  split.
  { intros f m [H1 H2]%andb_prop. now apply includes_like. }
  vm_compute. repeat split; reflexivity.
Qed.

(** C6, as stated, fails: the filter ["SONNET"] is not a case-sensitive
    substring of ["anthropic/claude-sonnet-4-5"], yet the query returns
    the row; so does ["s_nn%t"], which is no substring at all. *)
Lemma C6_counterexample_like_ignores_case :
  let sonnet := row "a" "s1" "m1" "anthropic/claude-sonnet-4-5" 10 5 None
                  "2024-03-01T10:00:00.000Z" in
  Str.includes (model sonnet) "SONNET" = false
  /\ getAggregateStats "host" "2024-03-01T00:00:00.000Z" farFuture
       (Some "SONNET") [sonnet] = ([sonnet], 1)
  /\ Str.includes (model sonnet) "s_nn%t" = false
  /\ getAggregateStats "host" "2024-03-01T00:00:00.000Z" farFuture
       (Some "s_nn%t") [sonnet] = ([sonnet], 1).
Proof. vm_compute. repeat split; reflexivity. Qed.

(* ================================================================== *)
(** * The event hook, case by case *)
(* ================================================================== *)

Section EventFacts.

Lemma withDb_same st : withDb (db st) st = st.
Proof. now destruct st. Qed.

Lemma insert_false_ok r d : snd (insert false r d) = true.
Proof. unfold insert. now destruct (List.existsb (conflicts r) d). Qed.

(** A message that gets as far as the write: a failing write shows the
    error toast and leaves the whole state as it was; a working one
    leaves [ingested], and shows the usage toast and resets the
    counters when the policy fires on it. *)
Lemma event_ingestible config env message raw st :
  ingestible message st = true -> msg_tokens message = Some raw ->
  event config env (MessageUpdated message) st =
  if e_fault env then ([ToastSaveFailed], st)
  else
    let st' := ingested config env message raw st in
    if shouldShowToast config (e_toastNow env) st' then
      ([ToastUsage
          (input (extractTokens raw) + output (extractTokens raw)
           + cacheRead (extractTokens raw) + cacheWrite (extractTokens raw))
          (costOf config message raw)
          (totalCost (statsAfter config env message raw st))],
       withToast (e_resetNow env) 0 0%float st')
    else ([], st').
Proof.
  unfold ingestible. intros H Hraw.
  repeat (apply andb_prop in H as [H ?]).
  repeat match goal with
         | Hn : negb _ = true |- _ => apply negb_true_iff in Hn
         end.
  unfold event, bind, gets, ret. rewrite Hraw.
  match goal with
  | Hp : bool_decide _ = false, Ht : truthy _ = true |- _ =>
      rewrite H, Ht, Hp
  end.
  cbn [negb orb].
  match goal with Hd : hasMessage _ _ = false |- _ => rewrite Hd end.
  unfold dbInsert.
  fold (costOf config message raw). fold (recordOf config env message raw).
  destruct (e_fault env) eqn:Hf.
  - unfold insert. cbn [negb]. now rewrite withDb_same.
  - pose proof (insert_false_ok (recordOf config env message raw) (db st)) as Hok.
    unfold ingested, statsAfter.
    destruct (insert false (recordOf config env message raw) (db st))
      as [d ok].
    cbn [snd] in Hok. subst ok. cbn [negb fst].
    destruct st as [d0 cache seen last msgs spent].
    cbv beta iota zeta delta
      [markProcessed modify getOrCreateSessionStats storeSessionStats
       resetToastTracking withToast withDb withProcessed withSessionStats
       db sessionStats processedMessages lastToastTime messagesSinceToast
       costSinceToast fst snd].
    destruct (cache !! sessionID message) as [stats0|];
      cbv beta iota zeta delta
        [withToast withDb withProcessed withSessionStats nullish
         db sessionStats processedMessages lastToastTime messagesSinceToast
         costSinceToast fst snd];
      rewrite ?insert_insert_eq;
      match goal with
      | |- context [if ?b then _ else _] => destruct b; reflexivity
      end.
Qed.

(** Any other event shows no toast and leaves the store, the session
    cache and the toast counters as they were. *)
Lemma event_skipped config env ev st :
  match ev with
  | MessageUpdated message => ingestible message st = false
  | OtherEvent => True
  end ->
  let res := event config env ev st in
  fst res = []
  /\ db (snd res) = db st
  /\ sessionStats (snd res) = sessionStats st
  /\ lastToastTime (snd res) = lastToastTime st
  /\ messagesSinceToast (snd res) = messagesSinceToast st
  /\ costSinceToast (snd res) = costSinceToast st.
Proof.
  destruct ev as [message|]; [|intros _; cbv zeta; simpl; auto 10].
  unfold ingestible. intros H. cbv zeta.
  unfold event, bind, gets, ret.
  destruct (msg_tokens message) as [raw|]; [|simpl; auto 10].
  destruct (String.eqb (role message) "assistant"); [|simpl; auto 10].
  destruct (truthy (time_completed message)); [|simpl; auto 10].
  destruct (bool_decide (msg_id message ∈ processedMessages st));
    [simpl; auto 10|].
  cbn [negb orb isNone andb] in *.
  rewrite negb_false_iff in H. rewrite H.
  unfold markProcessed, modify. simpl. auto 10.
Qed.

End EventFacts.

(* ================================================================== *)
(** * Write failure *)
(* ================================================================== *)

(** C7 (amended). When the write of a new record fails, the hook shows
    exactly one error toast and changes nothing: the session cache, the
    processed ids, the store and the toast counters are as before, so
    the record is not part of the running total, and the message is
    still taken up when a later event carries it again. *)
Theorem C7_write_failure_leaves_state
    (config : PluginConfig) (env : Env) (message : Message) (st : State) :
  ingestible message st = true ->
  e_fault env = true ->
  event config env (MessageUpdated message) st = ([ToastSaveFailed], st)
  /\ ingestible message (snd (event config env (MessageUpdated message) st))
     = true.
Proof.
  intros Hin Hf.
  assert (exists raw, msg_tokens message = Some raw) as [raw Hraw].
  { unfold ingestible in Hin. destruct (msg_tokens message); [eauto|].
    simpl in Hin. now rewrite !andb_false_r in Hin. }
  rewrite (event_ingestible _ _ _ _ _ Hin Hraw), Hf. auto.
Qed.

(** A failing write of the first message of a session. *)
Lemma C7_write_failure_leaves_state_witness :
  let message :=
    assistantMessage "m1" "s1" (ModelString "openai/gpt-5") 1000 500 None in
  let env := envAt "id1" "2024-03-01T10:00:00.000Z" true 1709287200000 in
  event defaultConfig env (MessageUpdated message) (initialState [] 0)
  = ([ToastSaveFailed], initialState [] 0).
Proof.
  intros message env.
  exact (proj1 (C7_write_failure_leaves_state defaultConfig env message
                  (initialState [] 0) eq_refl eq_refl)).
Defined.

(** C7, as stated, fails: after a failed write of a record of 1500
    tokens for session ["s1"], one error toast was shown and the cache
    has no entry for the session. *)
Lemma C7_counterexample_cache_not_updated :
  let message :=
    assistantMessage "m1" "s1" (ModelString "openai/gpt-5") 1000 500 None in
  let env := envAt "id1" "2024-03-01T10:00:00.000Z" true 1709287200000 in
  let res := event defaultConfig env (MessageUpdated message) (initialState [] 0) in
  fst res = [ToastSaveFailed]
  /\ sessionStats (snd res) !! "s1" = None
  /\ cachedTotal "s1" (snd res) = 0.
Proof. vm_compute. repeat split; reflexivity. Qed.

(* ================================================================== *)
(** * Provider *)
(* ================================================================== *)

Lemma split_beforeSlash s :
  exists t, Str.split Str.slash s = beforeSlash s :: t.
Proof.
  induction s as [|c s [t IH]]; simpl; [eauto|].
  destruct (Ascii.eqb c Str.slash); [eauto|].
  rewrite IH. eauto.
Qed.

(** C8. The provider of a record is the part of its model before the
    first ["/"]; for a model without ["/"] that is the whole model, not
    ["unknown"]: the hook stores provider ["gpt-5"] for model ["gpt-5"]. *)
Theorem C8_provider_is_first_segment (m : string) :
  extractProvider m = beforeSlash m
  /\ extractProvider "anthropic/claude-sonnet-4-5" = "anthropic"
  /\ extractProvider "gpt-5" = "gpt-5"
  /\ (let message :=
        assistantMessage "m1" "s1" (ModelObject None "gpt-5") 1000 500 None in
      let env := envAt "id1" "2024-03-01T10:00:00.000Z" false 1709287200000 in
      List.map (fun r => (model r, provider r))
        (db (snd (event defaultConfig env (MessageUpdated message)
                    (initialState [] 0))))
      = [("gpt-5", "gpt-5")]).
Proof.
  split.
  - unfold extractProvider. destruct (split_beforeSlash m) as [t ->].
    reflexivity.
  - vm_compute. repeat split; reflexivity.
Qed.

(* ================================================================== *)
(** * Notification trigger *)
(* ================================================================== *)

(** C9. A disabled policy never fires, in any state of the counters,
    and the hook then shows no usage toast; whenever the hook shows a
    usage toast it has reset the three counters, under each of the
    three trigger modes. *)
Theorem C9_toast_trigger
    (config : PluginConfig) (env : Env) (ev : Event) (st : State) (now : Z)
    (tr : Trigger) (mi ct tm : float) :
  let disabled :=
    withToastConfig
      {| t_enabled := false; trigger := tr; messagesInterval := mi;
         costThreshold := ct; timeIntervalMinutes := tm |} config in
  shouldShowToast disabled now st = false
  /\ usageShown (fst (event disabled env ev st)) = false
  /\ (let res := event config env ev st in
      if usageShown (fst res) then
        lastToastTime (snd res) = e_resetNow env
        /\ messagesSinceToast (snd res) = 0
        /\ costSinceToast (snd res) = 0%float
      else True)
  /\ (let message :=
        assistantMessage "m1" "s1" (ModelString "openai/gpt-5") 1000 500 None in
      let env := envAt "id1" "2024-03-01T10:00:00.000Z" false 60000 in
      let fired policy :=
        let res := event (withToastConfig policy defaultConfig) env
                     (MessageUpdated message) (initialState [] 0) in
        (usageShown (fst res), lastToastTime (snd res),
         messagesSinceToast (snd res), costSinceToast (snd res)) in
      fired {| t_enabled := true; trigger := TMessages; messagesInterval := 1;
               costThreshold := 100; timeIntervalMinutes := 100 |}
      = (true, 60000, 0, 0%float)
      /\ fired {| t_enabled := true; trigger := TCost; messagesInterval := 100;
                  costThreshold := 0.001; timeIntervalMinutes := 100 |}
         = (true, 60000, 0, 0%float)
      /\ fired {| t_enabled := true; trigger := TTime; messagesInterval := 100;
                  costThreshold := 100; timeIntervalMinutes := 1 |}
         = (true, 60000, 0, 0%float)
      /\ fired {| t_enabled := true; trigger := TMessages; messagesInterval := 2;
                  costThreshold := 0; timeIntervalMinutes := 0 |}
         = (false, 0, 1, 0.0062500000000000003%float)).
Proof.
  assert (Hreset : forall config0,
    let res := event config0 env ev st in
    if usageShown (fst res) then
      shouldShowToast config0 (e_toastNow env)
        match ev with
        | MessageUpdated message =>
            match msg_tokens message with
            | Some raw => ingested config0 env message raw st
            | None => st
            end
        | OtherEvent => st
        end = true
      /\ lastToastTime (snd res) = e_resetNow env
      /\ messagesSinceToast (snd res) = 0
      /\ costSinceToast (snd res) = 0%float
    else True).
  { intros config0.
    assert (Hskip : match ev with
                    | MessageUpdated message => ingestible message st = false
                    | OtherEvent => True
                    end ->
                    let res := event config0 env ev st in
                    if usageShown (fst res) then False else True).
    { intros H. pose proof (event_skipped config0 env ev st H) as E.
      cbv zeta in *. destruct E as [E _]. now rewrite E. }
    cbv zeta in *. destruct ev as [message|].
    - destruct (ingestible message st) eqn:Hin.
      + assert (exists raw, msg_tokens message = Some raw) as [raw Hraw].
        { unfold ingestible in Hin. destruct (msg_tokens message); [eauto|].
          simpl in Hin. now rewrite !andb_false_r in Hin. }
        rewrite (event_ingestible _ _ _ _ _ Hin Hraw), Hraw.
        destruct (e_fault env); [exact I|]. cbv zeta.
        destruct (shouldShowToast config0 (e_toastNow env)
                    (ingested config0 env message raw st)); simpl; auto.
      + specialize (Hskip eq_refl).
        destruct (usageShown (fst (event config0 env (MessageUpdated message) st)));
          [contradiction | exact I].
    - specialize (Hskip I).
      destruct (usageShown (fst (event config0 env OtherEvent st)));
        [contradiction | exact I]. }
  cbv zeta. split; [reflexivity|]. split.
  - specialize (Hreset
      (withToastConfig
         {| t_enabled := false; trigger := tr; messagesInterval := mi;
            costThreshold := ct; timeIntervalMinutes := tm |} config)).
    cbv zeta in Hreset.
    destruct (usageShown _); [|reflexivity].
    destruct Hreset as [Hfire _]. discriminate Hfire.
  - split.
    + specialize (Hreset config). cbv zeta in Hreset.
      destruct (usageShown _); [|exact I]. tauto.
    + vm_compute. repeat split; reflexivity.
Qed.

(* ================================================================== *)
(** * The query path *)
(* ================================================================== *)

(** C10. Neither tool changes the plugin state: the session cache (and
    all else) is the same after a query as before. Without a current
    session (none, or one whose id is the empty string) [usage] reports
    that there is none; for a session whose cache entry is missing or
    counts no message it reports stats built from the stored rows, which
    it does not put in the cache. *)
Theorem C10_queries_leave_cache
    (parseDate : string -> Z) (now : Z) (full year all : bool)
    (current : option string) (sessionId : string) (st : State)
    (config : PluginConfig) (hostname : string) (starts : Starts)
    (modelFilter : option string) :
  snd (usage_execute parseDate now full current st) = st
  /\ sessionStats (snd (usage_execute parseDate now full current st))
     = sessionStats st
  /\ snd (globalusage_execute config hostname starts full year all modelFilter st)
     = st
  /\ fst (usage_execute parseDate now full None st) = NoActiveSession
  /\ fst (usage_execute parseDate now full (Some sessionId) st)
     = (let rebuilt :=
          match getSessionStats sessionId (db st) with
          | [] => NoUsageData
          | records => Report full (buildSessionStats parseDate now records)
          end in
        if String.eqb sessionId "" then NoActiveSession
        else match sessionStats st !! sessionId with
             | Some stats =>
                 if messageCount stats =? 0 then rebuilt else Report full stats
             | None => rebuilt
             end).
Proof.
  assert (Husage : forall cur, snd (usage_execute parseDate now full cur st) = st).
  { intros [[|c sid]|]; try reflexivity.
    unfold usage_execute, bind, gets, ret.
    destruct (sessionStats st !! String c sid) as [stats|].
    - destruct (messageCount stats =? 0); [|reflexivity].
      now destruct (getSessionStats (String c sid) (db st)).
    - now destruct (getSessionStats (String c sid) (db st)). }
  split; [apply Husage|]. split; [now rewrite Husage|]. split.
  { unfold globalusage_execute, bind, ret.
    destruct (year || all), all; reflexivity. }
  split; [reflexivity|].
  destruct sessionId as [|c sid]; [reflexivity|].
  unfold usage_execute, bind, gets, ret. cbv zeta.
  change (String.eqb (String c sid) "") with false. cbv iota.
  destruct (sessionStats st !! String c sid) as [stats|].
  - destruct (messageCount stats =? 0); [|reflexivity].
    now destruct (getSessionStats (String c sid) (db st)).
  - now destruct (getSessionStats (String c sid) (db st)).
Qed.

(* ================================================================== *)
(** * Session totals *)
(* ================================================================== *)

Section SessionFacts.

Lemma sumZ_Permutation l1 l2 : Permutation l1 l2 -> sumZ l1 = sumZ l2.
Proof.
  induction 1; simpl; try congruence; try ring.
Qed.

Lemma buildStep_totalTokens rs s0 :
  totalTokens (List.fold_left buildStep rs s0)
  = totalTokens s0 + sumZ (List.map recordTokens rs).
Proof.
  revert s0. induction rs as [|r rs IH]; intros s0; [simpl; ring|].
  cbn [List.fold_left List.map]. rewrite IH.
  unfold buildStep, sumZ. cbn [totalTokens List.fold_right]. ring.
Qed.

(** Rebuilt stats count the tokens of all stored rows of the session. *)
Lemma rebuilt_totalTokens parseDate now sessionId d :
  totalTokens (buildSessionStats parseDate now (getSessionStats sessionId d))
  = storedTotal sessionId d.
Proof.
  unfold buildSessionStats. rewrite buildStep_totalTokens. cbn [totalTokens].
  unfold storedTotal, getSessionStats, ofSession. rewrite Z.add_0_l.
  apply sumZ_Permutation, Permutation_map, orderByCreatedAt_Permutation.
Qed.

(** The loop of [buildSessionStats] and the update of the hook apply
    the same rule to the totals and the per-model entries. *)
Lemma buildStep_updateStats a b r :
  totalTokens a = totalTokens b -> totalCost a = totalCost b ->
  byModel a = byModel b ->
  totalTokens (buildStep a r)
  = totalTokens (updateStats (model r) (tokensOf r) (cost r) b)
  /\ totalCost (buildStep a r)
     = totalCost (updateStats (model r) (tokensOf r) (cost r) b)
  /\ byModel (buildStep a r)
     = byModel (updateStats (model r) (tokensOf r) (cost r) b).
Proof.
  intros Ht Hc Hm. unfold buildStep, updateStats, recordTokens, tokensOf.
  cbn [totalTokens totalCost byModel input output cacheRead cacheWrite].
  rewrite Ht, Hc, Hm. auto.
Qed.

Lemma updateStats_messageCount rs s0 :
  messageCount
    (List.fold_left (fun s r => updateStats (model r) (tokensOf r) (cost r) s)
       rs s0)
  = messageCount s0 + Z.of_nat (List.length rs).
Proof.
  revert s0. induction rs as [|r rs IH]; intros s0.
  - simpl. ring.
  - cbn [List.fold_left List.length]. rewrite IH.
    unfold updateStats. cbn [messageCount]. lia.
Qed.

Lemma buildStep_messageCount rs s0 :
  messageCount (List.fold_left buildStep rs s0) = messageCount s0.
Proof.
  revert s0. induction rs as [|r rs IH]; intros s0; [reflexivity|].
  cbn [List.fold_left]. now rewrite IH.
Qed.

Lemma rebuild_agrees parseDate now t rs :
  let rebuilt := buildSessionStats parseDate now rs in
  let folded := ingestAll t rs in
  totalTokens rebuilt = totalTokens folded
  /\ totalCost rebuilt = totalCost folded
  /\ messageCount rebuilt = messageCount folded
  /\ byModel rebuilt = byModel folded.
Proof.
  cbv zeta. unfold buildSessionStats, ingestAll.
  set (b0 := {| totalTokens := 0; totalCost := 0%float;
                messageCount := Z.of_nat (List.length rs);
                startTime := match rs with
                             | r :: _ => parseDate (created_at r)
                             | [] => now
                             end;
                byModel := [] |}).
  assert (H : forall l a b,
    totalTokens a = totalTokens b -> totalCost a = totalCost b ->
    byModel a = byModel b ->
    let x := List.fold_left buildStep l a in
    let y := List.fold_left
               (fun s r => updateStats (model r) (tokensOf r) (cost r) s) l b in
    totalTokens x = totalTokens y /\ totalCost x = totalCost y
    /\ byModel x = byModel y).
  { induction l as [|r l IH]; intros a b Ht Hc Hm; [simpl; auto|].
    destruct (buildStep_updateStats a b r Ht Hc Hm) as (Ht' & Hc' & Hm').
    apply (IH _ _ Ht' Hc' Hm'). }
  destruct (H rs b0 (freshStats t) eq_refl eq_refl eq_refl) as (Ht & Hc & Hm).
  repeat split; try assumption.
  rewrite buildStep_messageCount, updateStats_messageCount. simpl. ring.
Qed.

Lemma events_app config l1 l2 st :
  events config (l1 ++ l2) st = events config l2 (events config l1 st).
Proof.
  revert st. induction l1 as [|[env ev] l1 IH]; intros st; [reflexivity|].
  simpl. apply IH.
Qed.

Lemma ingestible_raw message st :
  ingestible message st = true -> exists raw, msg_tokens message = Some raw.
Proof.
  unfold ingestible. destruct (msg_tokens message); [eauto|].
  simpl. now rewrite !andb_false_r.
Qed.

(** What one run of the hook does to the cached total of a session and
    to the total of its stored rows. *)
Lemma event_totals config env ev st sessionId :
  let st' := snd (event config env ev st) in
  (nonnegEvent ev = true -> cachedTotal sessionId st <= cachedTotal sessionId st')
  /\ (hasId (e_uuid env) (db st) = false ->
      cachedTotal sessionId st' - cachedTotal sessionId st
      = storedTotal sessionId (db st') - storedTotal sessionId (db st)).
Proof.
  cbv zeta.
  assert (Hskip : match ev with
                  | MessageUpdated message => ingestible message st = false
                  | OtherEvent => True
                  end ->
                  cachedTotal sessionId (snd (event config env ev st))
                  = cachedTotal sessionId st
                  /\ db (snd (event config env ev st)) = db st).
  { intros H. pose proof (event_skipped config env ev st H) as E.
    cbv zeta in E. destruct E as (_ & Hd & Hc & _).
    unfold cachedTotal. now rewrite Hc, Hd. }
  destruct ev as [message|]; [destruct (ingestible message st) eqn:Hin|].
  2,3: destruct (Hskip ltac:(auto)) as [-> ->]; split; intros _; lia.
  destruct (ingestible_raw _ _ Hin) as [raw Hraw].
  rewrite (event_ingestible _ _ _ _ _ Hin Hraw).
  destruct (e_fault env); [split; intros _; cbn [snd]; lia|].
  cbv zeta.
  set (T := input (extractTokens raw) + output (extractTokens raw)
            + cacheRead (extractTokens raw) + cacheWrite (extractTokens raw)).
  assert (Hcache :
    cachedTotal sessionId (ingested config env message raw st)
    = cachedTotal sessionId st
      + if String.eqb (sessionID message) sessionId then T else 0).
  { unfold cachedTotal, ingested. cbn [sessionStats].
    destruct (String.eqb_spec (sessionID message) sessionId) as [<-|Hne].
    - rewrite lookup_insert_eq. unfold statsAfter, updateStats.
      cbn [totalTokens]. fold T.
      now destruct (sessionStats st !! sessionID message).
    - rewrite lookup_insert_ne by assumption. lia. }
  assert (Hres :
    cachedTotal sessionId
      (snd (if shouldShowToast config (e_toastNow env)
                 (ingested config env message raw st)
            then ([ToastUsage T (costOf config message raw)
                     (totalCost (statsAfter config env message raw st))],
                  withToast (e_resetNow env) 0 0%float
                    (ingested config env message raw st))
            else ([], ingested config env message raw st)))
    = cachedTotal sessionId (ingested config env message raw st)
    /\ db (snd (if shouldShowToast config (e_toastNow env)
                      (ingested config env message raw st)
                 then ([ToastUsage T (costOf config message raw)
                          (totalCost (statsAfter config env message raw st))],
                       withToast (e_resetNow env) 0 0%float
                         (ingested config env message raw st))
                 else ([], ingested config env message raw st)))
       = db (ingested config env message raw st)).
  { destruct (shouldShowToast _ _ _); split; reflexivity. }
  destruct Hres as [-> ->]. rewrite Hcache. split.
  - intros Hnn. cbn [nonnegEvent] in Hnn. rewrite Hraw in Hnn.
    cbv zeta in Hnn.
    apply andb_prop in Hnn as [[[H1 H2]%andb_prop H3]%andb_prop H4].
    apply Z.leb_le in H1, H2, H3, H4.
    destruct (String.eqb (sessionID message) sessionId); unfold T; lia.
  - intros Hfresh.
    assert (Hm : hasMessage (msg_id message) (db st) = false).
    { unfold ingestible in Hin. apply andb_prop in Hin as [_ Hin].
      now apply negb_true_iff in Hin. }
    unfold ingested at 1. cbn [db].
    rewrite (insert_fresh (recordOf config env message raw) (db st) Hm Hfresh).
    cbn [fst]. unfold storedTotal, ofSession.
    rewrite List.filter_app, List.map_app, sumZ_app. simpl.
    destruct (String.eqb (sessionID message) sessionId); simpl;
      unfold recordTokens, T; simpl; lia.
Qed.

Lemma events_monotone config l st sessionId :
  nonnegEvents l = true ->
  cachedTotal sessionId st <= cachedTotal sessionId (events config l st).
Proof.
  revert st. induction l as [|[env ev] l IH]; intros st; simpl; [lia|].
  intros [Hev Hl]%andb_prop.
  destruct (event_totals config env ev st sessionId) as [Hmono _].
  specialize (Hmono Hev). specialize (IH (snd (event config env ev st)) Hl).
  lia.
Qed.

Lemma events_below_store config l st sessionId :
  freshIds config l st = true ->
  cachedTotal sessionId st <= storedTotal sessionId (db st) ->
  cachedTotal sessionId (events config l st)
  <= storedTotal sessionId (db (events config l st)).
Proof.
  revert st. induction l as [|[env ev] l IH]; intros st; simpl; [auto|].
  intros [Hid Hl]%andb_prop Hinv. apply negb_true_iff in Hid.
  apply (IH _ Hl).
  destruct (event_totals config env ev st sessionId) as [_ Hdelta].
  specialize (Hdelta Hid). lia.
Qed.

Lemma storedTotal_nonneg sessionId d :
  List.forallb nonnegRow d = true -> 0 <= storedTotal sessionId d.
Proof.
  unfold storedTotal, ofSession.
  induction d as [|r d IH]; simpl; [lia|].
  intros [Hr Hd]%andb_prop. specialize (IH Hd).
  destruct (String.eqb (session_id r) sessionId); [|exact IH].
  unfold nonnegRow in Hr.
  apply andb_prop in Hr as [[[H1 H2]%andb_prop H3]%andb_prop H4].
  apply Z.leb_le in H1, H2, H3, H4.
  cbn [List.map]. rewrite sumZ_cons. unfold recordTokens in *. lia.
Qed.

End SessionFacts.

(** C5. The token total of a session does decrease when the cache is
    lost: a session reports 30 tokens; the plugin starts again on the
    same store and [usage] still reports 30, rebuilt from the stored
    row; then a message of 5 tokens is ingested, which gives the session
    a new cache entry, and [usage] reports that entry: 5 tokens, while
    the store holds 35 for the session. *)
Theorem C5_total_drops_after_cache_loss :
  let first :=
    (envAt "id0" "2024-03-01T09:00:00.000Z" false 1709283600000,
     MessageUpdated
       (assistantMessage "m0" "s1" (ModelString "openai/gpt-5") 10 20 None)) in
  let second :=
    (envAt "id1" "2024-03-01T10:00:00.000Z" false 1709287200000,
     MessageUpdated
       (assistantMessage "m1" "s1" (ModelString "openai/gpt-5") 2 3 None)) in
  let report st :=
    reportedTotal (fst (usage_execute (fun _ => 0) 0 false (Some "s1") st)) in
  let before := events defaultConfig [first] (initialState [] 0) in
  let restarted := initialState (db before) 1709287000000 in
  let after := events defaultConfig [second] restarted in
  report before = Some 30
  /\ UsageTrackerPlugin "localhost" None false (Some (db before)) 1709287000000
     = (Hooks defaultConfig restarted, [])
  /\ report restarted = Some 30
  /\ report after = Some 5
  /\ cachedTotal "s1" after = 5
  /\ storedTotal "s1" (db after) = 35
  /\ totalTokens
       (buildSessionStats (fun _ => 0) 0 (getSessionStats "s1" (db after)))
     = 35.
Proof. vm_compute. repeat split; reflexivity. Qed.

(* ================================================================== *)
(** * More on the pricing resolver *)
(* ================================================================== *)

Section PricingMore.

Lemma find_none_existsb {A} (f : A -> bool) l :
  isNone (List.find f l) = negb (List.existsb f l).
Proof.
  induction l as [|x l IH]; simpl; [reflexivity|].
  destruct (f x); [reflexivity | exact IH].
Qed.

Lemma get_Some_existsb {V} (o : Obj.t V) k v (f : string -> bool) :
  Obj.get k o = Some v -> f k = true ->
  List.existsb (fun kv => f (fst kv)) o = true.
Proof.
  induction o as [|[k0 v0] o IH]; simpl; [discriminate|].
  destruct (String.eqb_spec k0 k) as [->|_].
  - intros _ ->. reflexivity.
  - intros Hget Hf. rewrite (IH Hget Hf). apply orb_true_r.
Qed.

End PricingMore.

(** What the resolver does with a model that is no key of the table. *)
Lemma getPricing_cases model config :
  getPricing model config
  = match Obj.get model (pricing config) with
    | Some p => Some p
    | None =>
        if inheritedName model then Some inheritedMember
        else option_map snd
               (List.find
                  (fun kv =>
                     String.eqb (afterLastSlash (fst kv)) (afterLastSlash model))
                  (Obj.entries (pricing config)))
    end.
Proof.
  destruct (inheritedName model) eqn:Hplain.
  - unfold getPricing, Obj_read. rewrite Hplain.
    now destruct (Obj.get model (pricing config)).
  - rewrite (getPricing_resolve _ _ Hplain). reflexivity.
Qed.

(** A model whose exact key is an override gets the override's card,
    and a model whose exact key is only built in keeps the built-in
    card, whatever else the override table holds. *)
Theorem exact_key_resolution
    (hostname : string) (raw : RawConfig) (overrides : Obj.t ModelPricing)
    (m : string) :
  r_pricing raw = Some overrides ->
  Obj.wf overrides ->
  match Obj.get m overrides, Obj.get m DEFAULT_PRICING with
  | Some p, _ => getPricing m (getConfig hostname (Some raw)) = Some p
  | None, Some d => getPricing m (getConfig hostname (Some raw)) = Some d
  | None, None =>
      Obj.get m (pricing (getConfig hostname (Some raw))) = None
  end.
Proof.
  intros Hraw Hwf.
  assert (Hget : Obj.get m (pricing (getConfig hostname (Some raw)))
                 = match Obj.get m overrides with
                   | Some p => Some p
                   | None => Obj.get m DEFAULT_PRICING
                   end).
  { cbn [getConfig pricing chain]. rewrite Hraw. unfold mergePricing.
    apply (get_spread _ _ _ DEFAULT_PRICING_wf Hwf). }
  rewrite getPricing_cases, Hget.
  destruct (Obj.get m overrides) as [p|]; [reflexivity|].
  destruct (Obj.get m DEFAULT_PRICING) as [d|]; reflexivity.
Qed.

(** An override of the exact key of a built-in model, beside an
    unrelated one. *)
Lemma exact_key_resolution_witness :
  getPricing "openai/gpt-5"
    (configWith [("acme/x", mkPricing 9 9 9 9);
                 ("openai/gpt-5", mkPricing 1 2 3 4)])
  = Some (mkPricing 1 2 3 4).
Proof.
  assert (Hwf : Obj.wf (Obj.literal [("acme/x", mkPricing 9 9 9 9);
                                     ("openai/gpt-5", mkPricing 1 2 3 4)])).
  { unfold Obj.wf. vm_compute.
    repeat (constructor; [simpl; intuition discriminate|]). constructor. }
  exact (exact_key_resolution "localhost"
           {| r_enabled := None; r_machineId := None; r_toast := None;
              r_pricing := Some (Obj.literal [("acme/x", mkPricing 9 9 9 9);
                                              ("openai/gpt-5", mkPricing 1 2 3 4)]) |}
           _ "openai/gpt-5" eq_refl Hwf).
Defined.

(** A model is unpriced exactly when no key of the table has its bare
    name (the part after the last ["/"]) and the model does not name a
    member every object inherits. For ["constructor"] the inherited
    member is taken for the rate card: the cost is NaN, not the
    fallback; so it is for each of the twelve inherited names. *)
Theorem getPricing_absent_iff_no_bare_name (model : string) (config : PluginConfig) :
  isNone (getPricing model config)
  = negb (inheritedName model)
    && negb (List.existsb
               (fun kv => String.eqb (afterLastSlash (fst kv)) (afterLastSlash model))
               (Obj.entries (pricing config)))
  /\ List.forallb
       (fun k =>
          match calculateCost
                  {| input := 10; output := 5; cacheRead := 0; cacheWrite := 0 |}
                  (getPricing k defaultConfig) (Some 2.5%float) with
          | Some c => negb (PrimFloat.eqb c c)
          | None => false
          end)
       ["constructor"; "toString"; "toLocaleString"; "valueOf";
          "hasOwnProperty"; "isPrototypeOf"; "propertyIsEnumerable";
          "__defineGetter__"; "__defineSetter__"; "__lookupGetter__";
          "__lookupSetter__"; "__proto__"]
     = true
  /\ calculateCost {| input := 10; output := 5; cacheRead := 0; cacheWrite := 0 |}
       (getPricing "constructor" defaultConfig) (Some 2.5%float)
     = Some nan.
Proof.
  split; [|split; vm_compute; reflexivity].
  rewrite getPricing_cases.
  destruct (Obj.get model (pricing config)) as [p|] eqn:Hget.
  - unfold Obj.entries.
    rewrite (get_Some_existsb _ _ _
               (fun k => String.eqb (afterLastSlash k) (afterLastSlash model))
               Hget (String.eqb_refl _)).
    now rewrite andb_false_r.
  - destruct (inheritedName model); [reflexivity|].
    rewrite <- find_none_existsb. now destruct (List.find _ _).
Qed.

(** Two models without an entry of their own, neither naming a member
    every object inherits, that differ only in what stands before the
    last ["/"] resolve to the same card. *)
Theorem getPricing_ignores_provider (m1 m2 : string) (config : PluginConfig) :
  inheritedName m1 = false ->
  inheritedName m2 = false ->
  Obj.get m1 (pricing config) = None ->
  Obj.get m2 (pricing config) = None ->
  afterLastSlash m1 = afterLastSlash m2 ->
  getPricing m1 config = getPricing m2 config.
Proof.
  intros P1 P2 H1 H2 E. rewrite !getPricing_cases.
  now rewrite H1, H2, P1, P2, E.
Qed.

(** The same bare name under two providers unknown to the table. *)
Lemma getPricing_ignores_provider_witness :
  getPricing "azure/gpt-5" defaultConfig = getPricing "proxy/eu/gpt-5" defaultConfig.
Proof.
  exact (getPricing_ignores_provider "azure/gpt-5" "proxy/eu/gpt-5" defaultConfig
           eq_refl eq_refl eq_refl eq_refl eq_refl).
Defined.

(* ================================================================== *)
(** * Model names, providers and paths *)
(* ================================================================== *)

Section NameFacts.

Lemma noSlash_app a b :
  noSlash (a ++ b)%string = noSlash a && noSlash b.
Proof.
  induction a as [|c a IH]; [reflexivity|].
  change (String c a ++ b)%string with (String c (a ++ b)%string).
  cbn [noSlash]. now rewrite IH, andb_assoc.
Qed.

Lemma beforeSlash_app p t :
  noSlash p = true -> beforeSlash (p ++ String Str.slash t)%string = p.
Proof.
  induction p as [|c p IH]; intros Hp.
  - reflexivity.
  - change (String c p ++ String Str.slash t)%string
      with (String c (p ++ String Str.slash t)%string).
    cbn [noSlash] in Hp. apply andb_prop in Hp as [Hc Hp].
    apply negb_true_iff in Hc. cbn [beforeSlash]. now rewrite Hc, IH.
Qed.

Lemma afterLastSlash_noSlash t : noSlash t = true -> afterLastSlash t = t.
Proof.
  intros H. rewrite <- stripPrefix_afterLastSlash.
  now apply stripPrefix_noSlash_id.
Qed.

Lemma afterLastSlash_app p t :
  noSlash t = true -> afterLastSlash (p ++ String Str.slash t)%string = t.
Proof.
  intros Ht. induction p as [|c p IH].
  - change (afterLastSlash (String Str.slash t) = t). cbn [afterLastSlash].
    rewrite Ascii.eqb_refl. now apply afterLastSlash_noSlash.
  - change (String c p ++ String Str.slash t)%string
      with (String c (p ++ String Str.slash t)%string).
    cbn [afterLastSlash]. destruct (Ascii.eqb c Str.slash); [exact IH|].
    rewrite noSlash_app. cbn [noSlash]. rewrite Ascii.eqb_refl.
    cbn [negb andb]. rewrite andb_false_r. exact IH.
Qed.

Lemma modelName_stripPrefix m : modelName m = Str.stripPrefix m.
Proof. unfold modelName. now rewrite pop_split_stripPrefix. Qed.

Lemma lastIndexFrom_noSlash s i acc :
  noSlash s = true -> lastIndexFrom Str.slash s i acc = acc.
Proof.
  revert i acc. induction s as [|c s IH]; intros i acc Hs; [reflexivity|].
  cbn [noSlash] in Hs. apply andb_prop in Hs as [Hc Hs].
  apply negb_true_iff in Hc. cbn [lastIndexFrom]. rewrite Hc. now apply IH.
Qed.

Lemma lastIndexFrom_app p t i acc :
  noSlash t = true ->
  lastIndexFrom Str.slash (p ++ String Str.slash t)%string i acc
  = i + Z.of_nat (String.length p).
Proof.
  intros Ht. revert i acc. induction p as [|c p IH]; intros i acc.
  - change (lastIndexFrom Str.slash (String Str.slash t) i acc = i + 0).
    cbn [lastIndexFrom]. rewrite Ascii.eqb_refl.
    rewrite lastIndexFrom_noSlash by assumption. ring.
  - change (String c p ++ String Str.slash t)%string
      with (String c (p ++ String Str.slash t)%string).
    cbn [lastIndexFrom String.length]. rewrite IH. lia.
Qed.

Lemma substring_prefix p r :
  String.substring 0 (String.length p) (p ++ r)%string = p.
Proof.
  induction p as [|c p IH]; [now destruct r|].
  change (String c p ++ r)%string with (String c (p ++ r)%string).
  cbn [String.length String.substring]. now rewrite IH.
Qed.

Lemma length_append p r :
  String.length (p ++ r)%string = (String.length p + String.length r)%nat.
Proof.
  induction p as [|c p IH]; [reflexivity|].
  change (String c p ++ r)%string with (String c (p ++ r)%string).
  cbn [String.length]. now rewrite IH.
Qed.

End NameFacts.

(** The model name that the reports print is the part of the model
    after its last ["/"]; it holds no ["/"], and the fallback to the
    whole model never applies. *)
Theorem modelName_is_bare_name (m : string) :
  modelName m = afterLastSlash m
  /\ noSlash (modelName m) = true
  /\ Str.pop (Str.split Str.slash m) = Some (afterLastSlash m).
Proof.
  rewrite modelName_stripPrefix, pop_split_stripPrefix,
    stripPrefix_afterLastSlash.
  repeat split. apply afterLastSlash_spec.
Qed.

(** A structured model is normalised to [provider/model] when it has a
    provider, and to the model id alone when the provider is missing or
    empty; from a provider and a model id without ["/"] the stored
    provider and the printed model name give the two parts back. *)
Theorem extractModel_round_trip (p m : string) :
  extractModel (ModelObject (Some p) m)
  = (if String.eqb p "" then m else p ++ "/" ++ m)%string
  /\ extractModel (ModelObject None m) = m
  /\ (if noSlash p && negb (String.eqb p "")
      then extractProvider (extractModel (ModelObject (Some p) m)) = p
      else True)
  /\ (if noSlash m
      then modelName (extractModel (ModelObject (Some p) m)) = m
      else True).
Proof.
  assert (E : extractModel (ModelObject (Some p) m)
              = (if String.eqb p "" then m else p ++ String Str.slash m)%string).
  { destruct p; reflexivity. }
  split; [exact E|]. split; [reflexivity|]. split.
  - destruct (noSlash p) eqn:Hp; [|exact I].
    destruct (String.eqb p "") eqn:Hne; [exact I|]. cbn [negb andb].
    rewrite E. unfold extractProvider.
    destruct (split_beforeSlash (p ++ String Str.slash m)%string) as [t ->].
    cbn [List.nth_error nullish]. now apply beforeSlash_app.
  - destruct (noSlash m) eqn:Hm; [|exact I]. rewrite E.
    rewrite modelName_stripPrefix, stripPrefix_afterLastSlash.
    destruct (String.eqb p "").
    + now apply afterLastSlash_noSlash.
    + now apply afterLastSlash_app.
Qed.

(** The directory of the database file is the path up to its last
    ["/"], so that directory, ["/"] and the file name give the path
    back; a path without ["/"] has the empty directory. *)
Theorem databaseDir_splits_path (dbPath : string) :
  if noSlash dbPath then databaseDir dbPath = EmptyString
  else (databaseDir dbPath ++ String Str.slash (afterLastSlash dbPath))%string
       = dbPath.
Proof.
  unfold databaseDir, Str_lastIndexOf, Str_substring.
  destruct (afterLastSlash_spec dbPath) as [Hns [[Hs _]|[p Hp]]].
  - rewrite Hs, lastIndexFrom_noSlash by assumption.
    cbv zeta. replace (Z.min (Z.max (-1) 0) _) with 0 by lia.
    replace (Z.min (Z.max 0 0) _) with 0 by lia.
    simpl. now destruct dbPath.
  - set (t := afterLastSlash dbPath) in *. clearbody t. subst dbPath.
    rewrite noSlash_app. cbn [noSlash]. rewrite Ascii.eqb_refl.
    cbn [negb andb]. rewrite andb_false_r.
    rewrite lastIndexFrom_app by assumption. cbv zeta.
    rewrite length_append. cbn [String.length].
    replace (Z.min (Z.max 0 0) _) with 0 by lia.
    replace (Z.min (Z.max (0 + Z.of_nat (String.length p)) 0) _)
      with (Z.of_nat (String.length p)) by lia.
    replace (Z.min 0 (Z.of_nat (String.length p))) with 0 by lia.
    replace (Z.max 0 (Z.of_nat (String.length p)) - 0)
      with (Z.of_nat (String.length p)) by lia.
    rewrite Nat2Z.id. change (Z.to_nat 0) with 0%nat.
    now rewrite substring_prefix.
Qed.

(* ================================================================== *)
(** * More on the usage store *)
(* ================================================================== *)

Section StoreMore.
Implicit Types (db : Table) (r : TokenUsageRecord).

Lemma conflicts_split r db :
  List.existsb (conflicts r) db
  = hasId (id r) db || hasMessage (message_id r) db.
Proof.
  unfold hasId, hasMessage, conflicts.
  induction db as [|x db IH]; simpl; [reflexivity|].
  rewrite IH.
  destruct (String.eqb (id x) (id r)), (String.eqb (message_id x) (message_id r));
    simpl; rewrite ?orb_true_r; try reflexivity.
Qed.

Lemma insert_appends fault r db :
  exists added,
    fst (insert fault r db) = db ++ added
    /\ (added = [] \/ added = [r]).
Proof.
  unfold insert. destruct fault; [exists []; rewrite List.app_nil_r; auto|].
  destruct (List.existsb (conflicts r) db).
  - exists []. rewrite List.app_nil_r. auto.
  - exists [r]. auto.
Qed.

Lemma insert_NoDup_id fault r db :
  List.NoDup (List.map id db) ->
  List.NoDup (List.map id (fst (insert fault r db))).
Proof.
  intros H. unfold insert. destruct fault; [assumption|].
  destruct (List.existsb (conflicts r) db) eqn:Hc; [assumption|]. simpl.
  rewrite List.map_app. simpl.
  apply List.NoDup_app; repeat split; try assumption.
  - repeat constructor. simpl. tauto.
  - intros i Hin [<-|[]].
    apply List.in_map_iff in Hin as (x & Hx & Hin).
    assert (List.existsb (conflicts r) db = true) as E; [|congruence].
    apply List.existsb_exists. exists x. split; [assumption|].
    unfold conflicts. now rewrite Hx, String.eqb_refl.
Qed.

(** Membership in the result of a range query. *)
Lemma range_In machineId startDate endDate modelFilter db r :
  List.In r (fst (getAggregateStats machineId startDate endDate modelFilter db))
  <-> List.In r db /\ inRange machineId startDate endDate modelFilter r.
Proof.
  unfold getAggregateStats. cbn [fst].
  rewrite <- rangeWhere_inRange, <- List.filter_In.
  split; apply Permutation_in; [|symmetry]; apply orderByCreatedAt_Permutation.
Qed.

Lemma filter_length_le {A} (f g : A -> bool) l :
  (forall x, f x = true -> g x = true) ->
  (List.length (List.filter f l) <= List.length (List.filter g l))%nat.
Proof.
  intros H. induction l as [|x l IH]; simpl; [lia|].
  destruct (f x) eqn:Hf.
  - rewrite (H _ Hf). simpl. lia.
  - destruct (g x); simpl; lia.
Qed.

Lemma distinctCount_incl (l1 l2 : list string) :
  (forall x, List.In x l1 -> List.In x l2) ->
  distinctCount l1 <= distinctCount l2.
Proof.
  intros H. unfold distinctCount. apply inj_le, subseteq_size.
  intros x. rewrite !elem_of_list_to_set, !list_elem_of_In. apply H.
Qed.

Lemma distinctCount_le_length (l : list string) :
  distinctCount l <= Z.of_nat (List.length l).
Proof.
  unfold distinctCount. apply inj_le.
  induction l as [|x l IH]; [reflexivity|].
  cbn [list_to_set List.length].
  rewrite size_union_alt, size_singleton.
  assert (Hsz : (size (list_to_set l ∖ {[x]} : gset string)
                 <= size (list_to_set l : gset string))%nat).
  { apply subseteq_size. intros y Hy. now apply elem_of_difference in Hy. }
  lia.
Qed.

End StoreMore.

(** The store is append-only: a run of inserts leaves every row that
    was there in its place and unchanged, and adds at most one row per
    insert, each the record of one of the inserts. *)
Theorem inserts_append_only (ops : list (bool * TokenUsageRecord)) (db : Table) :
  exists added,
    inserts ops db = db ++ added
    /\ (List.length added <= List.length ops)%nat
    /\ List.incl added (List.map snd ops).
Proof.
  revert db. induction ops as [|[f r] ops IH]; intros db.
  - exists []. simpl. rewrite List.app_nil_r. repeat split; auto.
    intros x [].
  - destruct (insert_appends f r db) as (a1 & E1 & Ha1).
    destruct (IH (fst (insert f r db))) as (a2 & E2 & Hlen & Hincl).
    exists (a1 ++ a2). unfold inserts in *. cbn [List.fold_left fst snd].
    rewrite E2, E1, List.app_assoc. split; [reflexivity|].
    rewrite List.length_app. cbn [List.length List.map snd].
    split.
    + destruct Ha1 as [-> | ->]; simpl; lia.
    + intros x [Hx|Hx]%List.in_app_or.
      * destruct Ha1 as [-> | ->]; [destruct Hx|].
        destruct Hx as [<-|[]]. now left.
      * right. now apply Hincl.
Qed.

(** Both keys stay unique: a store in which no two rows share an id and
    no two share a message id is still such a store after any inserts. *)
Theorem inserts_keep_keys_unique
    (ops : list (bool * TokenUsageRecord)) (db : Table) :
  List.NoDup (List.map id db) ->
  List.NoDup (List.map message_id db) ->
  List.NoDup (List.map id (inserts ops db))
  /\ List.NoDup (List.map message_id (inserts ops db)).
Proof.
  revert db. induction ops as [|[f r] ops IH]; intros db Hi Hm; [auto|].
  apply IH; [now apply insert_NoDup_id | now apply insert_NoDup].
Qed.

(** Inserts that collide on the id and on the message id. *)
Lemma inserts_keep_keys_unique_witness :
  let r1 := row "id1" "s1" "m1" "openai/gpt-5" 1 1 None "2024-01-01T00:00:00.000Z" in
  let r2 := row "id1" "s1" "m2" "openai/gpt-5" 2 2 None "2024-01-02T00:00:00.000Z" in
  let r3 := row "id3" "s2" "m1" "openai/gpt-5" 3 3 None "2024-01-03T00:00:00.000Z" in
  let r4 := row "id4" "s2" "m4" "openai/gpt-5" 4 4 None "2024-01-04T00:00:00.000Z" in
  List.NoDup (List.map id (inserts [(false, r2); (false, r3); (false, r4)] [r1]))
  /\ List.NoDup
       (List.map message_id (inserts [(false, r2); (false, r3); (false, r4)] [r1])).
Proof.
  intros r1 r2 r3 r4.
  assert (Hi : List.NoDup (List.map id [r1])).
  { repeat constructor. simpl. tauto. }
  assert (Hm : List.NoDup (List.map message_id [r1])).
  { repeat constructor. simpl. tauto. }
  exact (inserts_keep_keys_unique [(false, r2); (false, r3); (false, r4)] [r1] Hi Hm).
Defined.

(** An insert on working storage always reports success, and stores
    nothing exactly when the id or the message is already stored: after
    it the message is stored unless only the id was taken. On failing
    storage it reports failure and stores nothing. *)
Theorem insert_reports_and_stores (r : TokenUsageRecord) (db : Table) :
  snd (insert false r db) = true
  /\ fst (insert false r db)
     = (if hasId (id r) db || hasMessage (message_id r) db then db
        else db ++ [r])
  /\ hasMessage (message_id r) (fst (insert false r db))
     = hasMessage (message_id r) db || negb (hasId (id r) db)
  /\ insert true r db = (db, false).
Proof.
  split; [apply insert_false_ok|].
  unfold insert. rewrite conflicts_split.
  destruct (hasId (id r) db) eqn:Hi, (hasMessage (message_id r) db) eqn:Hm;
    cbn [orb negb fst]; rewrite ?Hm; repeat split; try reflexivity.
  rewrite hasMessage_app, Hm. unfold hasMessage. simpl.
  now rewrite String.eqb_refl.
Qed.

(** The session query returns exactly the stored rows of the session,
    each as often as it is stored, in ascending [created_at]. *)
Theorem getSessionStats_rows_of_session (sessionId : string) (db : Table) :
  (forall r, List.In r (getSessionStats sessionId db)
             <-> List.In r db /\ session_id r = sessionId)
  /\ Permutation (getSessionStats sessionId db) (ofSession sessionId db)
  /\ StronglySorted byCreatedAt (getSessionStats sessionId db).
Proof.
  unfold getSessionStats. fold (ofSession sessionId db).
  split; [|split].
  - intros r. rewrite <- String.eqb_eq.
    rewrite <- (List.filter_In (fun r => String.eqb (session_id r) sessionId)).
    fold (ofSession sessionId db).
    split; apply Permutation_in; [|symmetry]; apply orderByCreatedAt_Permutation.
  - apply orderByCreatedAt_Permutation.
  - apply orderByCreatedAt_StronglySorted.
Qed.

(** A window that starts earlier holds every row of a window that
    starts later (same machine, end and filter), so it has at least as
    many rows and as many distinct sessions. *)
Theorem range_earlier_start_includes
    (machineId start1 start2 endDate : string) (modelFilter : option string)
    (db : Table) :
  strLe start1 start2 ->
  let wide := getAggregateStats machineId start1 endDate modelFilter db in
  let narrow := getAggregateStats machineId start2 endDate modelFilter db in
  List.incl (fst narrow) (fst wide)
  /\ (List.length (fst narrow) <= List.length (fst wide))%nat
  /\ snd narrow <= snd wide.
Proof.
  intros Hle. cbv zeta.
  assert (Hin : forall r,
    inRange machineId start2 endDate modelFilter r ->
    inRange machineId start1 endDate modelFilter r).
  { intros r (Hm & Hs & He & Hf). repeat split; try assumption.
    eapply strLe_trans; eassumption. }
  assert (Hincl : List.incl
    (fst (getAggregateStats machineId start2 endDate modelFilter db))
    (fst (getAggregateStats machineId start1 endDate modelFilter db))).
  { intros r. rewrite !range_In. intros [Hdb Hr]. auto. }
  split; [exact Hincl|]. split.
  - unfold getAggregateStats. cbn [fst].
    rewrite !(Permutation_length (orderByCreatedAt_Permutation _)).
    apply filter_length_le. intros r. rewrite !rangeWhere_inRange. apply Hin.
  - unfold getAggregateStats in *. cbn [fst snd] in *.
    rewrite !Set_size_distinct. apply distinctCount_incl.
    intros s (r & <- & Hr)%List.in_map_iff.
    apply List.in_map. now apply Hincl.
Qed.

(** The day inside the week, on two rows. *)
Lemma range_earlier_start_includes_witness :
  let r1 := row "a" "s1" "m1" "openai/gpt-5" 1 1 None "2024-03-04T08:00:00.000Z" in
  let r2 := row "b" "s2" "m2" "openai/gpt-5" 2 2 None "2024-03-06T08:00:00.000Z" in
  snd (getAggregateStats "host" "2024-03-06T00:00:00.000Z" farFuture None [r1; r2])
  <= snd (getAggregateStats "host" "2024-03-04T00:00:00.000Z" farFuture None [r1; r2]).
Proof.
  intros r1 r2.
  exact (proj2 (proj2 (range_earlier_start_includes "host"
    "2024-03-04T00:00:00.000Z" "2024-03-06T00:00:00.000Z" farFuture None
    [r1; r2] eq_refl))).
Defined.

(** The session count of a range query lies between zero and the
    number of rows, and is zero exactly when there is no row. *)
Theorem sessionCount_bounds
    (machineId startDate endDate : string) (modelFilter : option string)
    (db : Table) :
  let res := getAggregateStats machineId startDate endDate modelFilter db in
  0 <= snd res <= Z.of_nat (List.length (fst res))
  /\ (snd res =? 0) = match fst res with [] => true | _ => false end.
Proof.
  cbv zeta. unfold getAggregateStats. cbn [fst snd].
  rewrite Set_size_distinct.
  set (records := orderByCreatedAt _). split.
  - split; [unfold distinctCount; lia|].
    rewrite <- (List.length_map session_id). apply distinctCount_le_length.
  - destruct records as [|r records]; [reflexivity|].
    apply Z.eqb_neq. unfold distinctCount. cbn [List.map list_to_set].
    assert (size ({[session_id r]} ∪ list_to_set (List.map session_id records)
                  : gset string) <> 0%nat); [|lia].
    apply size_non_empty_iff. set_solver.
Qed.

(* ================================================================== *)
(** * More on aggregation *)
(* ================================================================== *)

Section WeightFacts.
Context {V : Type} (w : V -> Z).

Lemma weight_replace k v (o : Obj.t V) old :
  Obj.get k o = Some old ->
  weight w (Obj.replace k v o) = weight w o - w old + w v.
Proof.
  unfold weight, sumZ. induction o as [|[k0 v0] o IH]; simpl; [discriminate|].
  destruct (String.eqb k0 k).
  - intros [= ->]. simpl. ring.
  - intros H. simpl. rewrite (IH H). ring.
Qed.

Lemma weight_insertIndex n k v (o : Obj.t V) :
  weight w (Obj.insertIndex n k v o) = weight w o + w v.
Proof.
  unfold weight, sumZ. induction o as [|[k0 v0] o IH]; simpl; [ring|].
  destruct (Obj.arrayIndex k0) as [n'|]; [destruct (n <? n')%N|];
    simpl; rewrite ?IH; ring.
Qed.

Lemma weight_snoc k v (o : Obj.t V) :
  weight w (o ++ [(k, v)]) = weight w o + w v.
Proof.
  unfold weight. rewrite List.map_app, sumZ_app. simpl. ring.
Qed.

Lemma weight_ensure k v (o : Obj.t V) :
  w v = 0 -> weight w (Obj_ensure k v o) = weight w o.
Proof.
  intros Hv. unfold Obj_ensure, Obj_read, Obj.set.
  destruct (Obj.get k o); [reflexivity|].
  destruct (inheritedName k); [reflexivity|].
  destruct (Obj.arrayIndex k).
  - rewrite weight_insertIndex. lia.
  - rewrite weight_snoc. lia.
Qed.

Lemma weight_modify k (f : V -> V) (o : Obj.t V) d :
  (forall e, w (f e) = w e + d) ->
  weight w (Obj_modify k f o)
  = weight w o + match Obj.get k o with Some _ => d | None => 0 end.
Proof.
  intros Hf. unfold Obj_modify. destruct (Obj.get k o) as [e|] eqn:Hget.
  - rewrite (weight_replace _ _ _ _ Hget), Hf. ring.
  - ring.
Qed.

Lemma weight_modify_same k (f : V -> V) (o : Obj.t V) :
  (forall e, w (f e) = w e) -> weight w (Obj_modify k f o) = weight w o.
Proof.
  intros Hf. rewrite (weight_modify k f o 0).
  - destruct (Obj.get k o); ring.
  - intros e. rewrite Hf. ring.
Qed.

(** [if (!o[k]) o[k] = v; o[k].f += d]: the measure grows by [d] unless
    [o[k]] is an inherited member. *)
Lemma weight_touch k v (f : V -> V) (o : Obj.t V) d :
  w v = 0 -> (forall e, w (f e) = w e + d) ->
  weight w (Obj_modify k f (Obj_ensure k v o))
  = weight w o + match Obj_read k o with Inherited => 0 | _ => d end.
Proof.
  intros Hv Hf. rewrite (weight_modify _ _ _ d Hf), (weight_ensure _ _ _ Hv).
  rewrite get_ensure, String.eqb_refl. unfold Obj_read.
  destruct (Obj.get k o); [reflexivity|].
  now destruct (inheritedName k).
Qed.

Lemma read_plain k (o : Obj.t V) (a b : Z) :
  inheritedName k = false ->
  match Obj_read k o with Inherited => a | _ => b end = b.
Proof.
  intros H. unfold Obj_read. rewrite H. now destruct (Obj.get k o).
Qed.

Lemma read_inherited k (o : Obj.t V) (a b : Z) :
  inheritedName k = true -> Obj.get k o = None ->
  match Obj_read k o with Inherited => a | _ => b end = a.
Proof.
  intros H Hget. unfold Obj_read. now rewrite H, Hget.
Qed.

End WeightFacts.

Section AggregateMore.

Lemma aggregateStep_breakdown st r :
  breakdownTokens (l_byModel (aggregateStep st r))
  = breakdownTokens (l_byModel st)
    + match Obj_read (model r) (l_byModel st) with
      | Inherited => 0
      | _ => recordTokens r
      end.
Proof.
  unfold aggregateStep, breakdownTokens, Obj.entries. cbn [l_byModel].
  fold (weight a_tokens (l_byModel st)).
  rewrite <- (weight_touch a_tokens (model r) {| a_tokens := 0; a_cost := None |}
                (fun e => {| a_tokens := a_tokens e + recordTokens r;
                             a_cost := a_cost e |})
                (l_byModel st) (recordTokens r) eq_refl (fun _ => eq_refl)).
  destruct (cost r) as [c|]; [|reflexivity].
  apply (weight_modify_same a_tokens). reflexivity.
Qed.

Lemma aggregate_tokens rs :
  agg_tokens (calculateAggregates rs) = sumZ (List.map recordTokens rs).
Proof. apply (aggregate_loop rs). Qed.

Lemma buildStep_breakdown s r :
  breakdownStats (byModel (buildStep s r))
  = breakdownStats (byModel s)
    + match Obj_read (model r) (byModel s) with
      | Inherited => 0
      | _ => recordTokens r
      end.
Proof.
  unfold buildStep, breakdownStats, Obj.entries. cbn [byModel].
  fold (weight modelTokens (byModel s)).
  rewrite <- (weight_touch modelTokens (model r) emptyModelStats
                (fun e => {| m_input := m_input e + input_tokens r;
                             m_output := m_output e + output_tokens r;
                             m_cacheRead := m_cacheRead e + cache_read_tokens r;
                             m_cacheWrite := m_cacheWrite e + cache_write_tokens r;
                             m_cost := m_cost e |})
                (byModel s) (recordTokens r) eq_refl).
  - destruct (cost r) as [c|]; [|reflexivity].
    apply (weight_modify_same modelTokens). reflexivity.
  - intros e. unfold modelTokens, recordTokens. simpl. ring.
Qed.

Lemma filter_all {A} (f : A -> bool) l :
  List.forallb f l = true -> List.filter f l = l.
Proof.
  induction l as [|x l IH]; simpl; [reflexivity|].
  intros [-> Hl]%andb_prop. now rewrite (IH Hl).
Qed.

Lemma statsOf_snoc rs r :
  statsOf (rs ++ [r]) =
  {| m_input := m_input (statsOf rs) + input_tokens r;
     m_output := m_output (statsOf rs) + output_tokens r;
     m_cacheRead := m_cacheRead (statsOf rs) + cache_read_tokens r;
     m_cacheWrite := m_cacheWrite (statsOf rs) + cache_write_tokens r;
     m_cost := match cost r with
               | Some c => Some (addCost (m_cost (statsOf rs)) c)
               | None => m_cost (statsOf rs)
               end |}.
Proof.
  unfold statsOf. cbn [m_input m_output m_cacheRead m_cacheWrite m_cost].
  rewrite !List.map_app, !sumZ_app, knownCosts_app. simpl.
  rewrite !Z.add_0_r. f_equal.
  destruct (cost r); [apply modelCost_snoc | now rewrite List.app_nil_r].
Qed.

(** What the loop of [buildSessionStats] holds after [rs]. *)
Lemma build_loop rs s0 :
  byModel s0 = [] -> totalCost s0 = 0%float ->
  let s := List.fold_left buildStep rs s0 in
  totalCost s = sumCosts (knownCosts rs)
  /\ startTime s = startTime s0
  /\ forall m,
       Obj.get m (byModel s) =
       if inheritedName m then None
       else match ofModel m rs with
            | [] => None
            | ms => Some (statsOf ms)
            end.
Proof.
  intros Hb Hc. induction rs as [|r rs IH] using List.rev_ind.
  - simpl. rewrite Hb, Hc. repeat split; try reflexivity.
    intros m. now destruct (inheritedName m).
  - cbv zeta in *. rewrite List.fold_left_app. simpl.
    set (s := List.fold_left buildStep rs s0) in *.
    destruct IH as (Hcost & Hstart & Hm).
    unfold buildStep. cbn [totalCost startTime byModel].
    repeat split.
    + rewrite knownCosts_app, Hcost. simpl.
      destruct (cost r); [now rewrite sumCosts_snoc | now rewrite List.app_nil_r].
    + exact Hstart.
    + intros m. unfold ofModel. rewrite List.filter_app. simpl.
      fold (ofModel m rs). specialize (Hm m).
      destruct (String.eqb_spec (model r) m) as [E|E].
      * rewrite E.
        assert (Hnew : Some (statsOf (ofModel m rs ++ [r]))
                       = match ofModel m rs ++ [r] with
                         | [] => None
                         | ms => Some (statsOf ms)
                         end) by now destruct (ofModel m rs).
        rewrite <- Hnew, statsOf_snoc.
        destruct (cost r) as [c|] eqn:Hcost';
          rewrite ?get_modify, get_ensure, ?String.eqb_refl, Hm;
          (destruct (inheritedName m); [reflexivity|]);
          now destruct (ofModel m rs).
      * rewrite List.app_nil_r, <- Hm.
        apply String.eqb_neq in E.
        destruct (cost r) as [c|]; rewrite ?get_modify, get_ensure, ?E; reflexivity.
Qed.

(** The per-model token counts after the loops: the tokens of the rows
    whose model does not name an inherited member. *)
Lemma aggregate_breakdown rs :
  breakdownTokens (l_byModel (List.fold_left aggregateStep rs aggregateInit))
  = sumZ (List.map recordTokens (List.filter plainModel rs)).
Proof.
  induction rs as [|r rs IH] using List.rev_ind; [reflexivity|].
  rewrite List.fold_left_app. cbn [List.fold_left].
  rewrite aggregateStep_breakdown, IH, List.filter_app, List.map_app, sumZ_app.
  f_equal. cbn [List.filter]. unfold plainModel.
  destruct (inheritedName (model r)) eqn:Hplain; cbn [negb].
  - apply read_inherited; [exact Hplain|].
    destruct (aggregate_loop rs) as (_ & _ & _ & Hm). cbv zeta in Hm.
    now rewrite Hm, Hplain.
  - rewrite read_plain by exact Hplain. simpl. ring.
Qed.

Lemma build_breakdown rs s0 :
  byModel s0 = [] -> totalCost s0 = 0%float ->
  breakdownStats (byModel (List.fold_left buildStep rs s0))
  = sumZ (List.map recordTokens (List.filter plainModel rs)).
Proof.
  intros Hb Hc. induction rs as [|r rs IH] using List.rev_ind.
  - simpl. now rewrite Hb.
  - rewrite List.fold_left_app. cbn [List.fold_left].
    rewrite buildStep_breakdown, IH, List.filter_app, List.map_app, sumZ_app.
    f_equal. cbn [List.filter]. unfold plainModel.
    destruct (inheritedName (model r)) eqn:Hplain; cbn [negb].
    + apply read_inherited; [exact Hplain|].
      destruct (build_loop rs s0 Hb Hc) as (_ & _ & Hm). cbv zeta in Hm.
      now rewrite Hm, Hplain.
    + rewrite read_plain by exact Hplain. simpl. ring.
Qed.

Lemma getSessionStats_In sessionId db r :
  List.In r (getSessionStats sessionId db)
  <-> List.In r db /\ session_id r = sessionId.
Proof.
  unfold getSessionStats. rewrite <- String.eqb_eq.
  rewrite <- (List.filter_In (fun r => String.eqb (session_id r) sessionId)).
  split; apply Permutation_in; [|symmetry]; apply orderByCreatedAt_Permutation.
Qed.

Lemma strLe_refl a : strLe a a.
Proof. apply strLe_cases. now right. Qed.

End AggregateMore.

(** The per-model token counts of an aggregate add up to the tokens of
    the rows whose model does not name a member every object inherits
    (such a row gets no per-model entry): to the token total when no
    row has such a model. *)
Theorem aggregates_breakdown_adds_up (records : list TokenUsageRecord) :
  breakdownTokens (agg_byModel (calculateAggregates records))
  = sumZ (List.map recordTokens (List.filter plainModel records))
  /\ (if List.forallb plainModel records
      then breakdownTokens (agg_byModel (calculateAggregates records))
           = agg_tokens (calculateAggregates records)
      else True)
  /\ (let odd :=
        List.map
          (fun k => row "a" "s1" "m1" k 10 5 None "2024-03-01T10:00:00.000Z")
          ["constructor"; "toString"; "toLocaleString"; "valueOf";
          "hasOwnProperty"; "isPrototypeOf"; "propertyIsEnumerable";
          "__defineGetter__"; "__defineSetter__"; "__lookupGetter__";
          "__lookupSetter__"; "__proto__"] in
      agg_byModel (calculateAggregates odd) = []
      /\ agg_tokens (calculateAggregates odd) = 180).
Proof.
  assert (H : breakdownTokens (agg_byModel (calculateAggregates records))
              = sumZ (List.map recordTokens (List.filter plainModel records))).
  { unfold calculateAggregates. cbn [agg_byModel]. apply aggregate_breakdown. }
  split; [exact H|]. split.
  - destruct (List.forallb plainModel records) eqn:Hall; [|exact I].
    now rewrite H, aggregate_tokens, (filter_all _ _ Hall).
  - vm_compute. split; reflexivity.
Qed.

(** Token total and message count of an aggregate do not depend on the
    order of the rows, and over two lists of rows put together they are
    the sums of those of each list. *)
Theorem aggregates_order_and_concat (rs rs' l1 l2 : list TokenUsageRecord) :
  Permutation rs rs' ->
  agg_tokens (calculateAggregates rs) = agg_tokens (calculateAggregates rs')
  /\ agg_messages (calculateAggregates rs)
     = agg_messages (calculateAggregates rs')
  /\ agg_tokens (calculateAggregates (l1 ++ l2))
     = agg_tokens (calculateAggregates l1) + agg_tokens (calculateAggregates l2)
  /\ agg_messages (calculateAggregates (l1 ++ l2))
     = agg_messages (calculateAggregates l1)
       + agg_messages (calculateAggregates l2).
Proof.
  intros Hp. rewrite !aggregate_tokens.
  unfold calculateAggregates. cbn [agg_messages].
  split; [apply sumZ_Permutation, Permutation_map, Hp|].
  split; [now rewrite (Permutation_length Hp)|].
  split; [now rewrite List.map_app, sumZ_app|].
  rewrite List.length_app. lia.
Qed.

(** Two rows in both orders. *)
Lemma aggregates_order_and_concat_witness :
  let r1 := row "a" "s1" "m1" "openai/gpt-5" 1000 500 (Some 0.01%float)
              "2024-03-04T08:00:00.000Z" in
  let r2 := row "b" "s2" "m2" "acme/x" 2000 0 None "2024-03-04T08:00:00.000Z" in
  agg_tokens (calculateAggregates [r1; r2])
  = agg_tokens (calculateAggregates [r2; r1]).
Proof.
  intros r1 r2.
  exact (proj1 (aggregates_order_and_concat [r1; r2] [r2; r1] [r1] [r2]
                  (perm_swap r2 r1 []))).
Defined.

(** Stats built from records: each model with a record, unless it names
    a member every object inherits, has an entry that sums the four
    token fields and the known costs of its records (cost unknown when
    none is known), and there is no other entry; the cost total adds
    the known costs, and the message count is the number of records. *)
Theorem buildSessionStats_per_model
    (parseDate : string -> Z) (now : Z) (records : list TokenUsageRecord)
    (m : string) :
  let stats := buildSessionStats parseDate now records in
  Obj.get m (byModel stats)
  = (if inheritedName m then None
     else match ofModel m records with
          | [] => None
          | ms => Some (statsOf ms)
          end)
  /\ totalCost stats = sumCosts (knownCosts records)
  /\ messageCount stats = Z.of_nat (List.length records).
Proof.
  cbv zeta. unfold buildSessionStats.
  set (s0 := {| totalTokens := 0; totalCost := 0%float;
                messageCount := Z.of_nat (List.length records);
                startTime := _; byModel := [] |}).
  destruct (build_loop records s0 eq_refl eq_refl) as (Hc & _ & Hm).
  split; [apply Hm|]. split; [exact Hc|].
  now rewrite buildStep_messageCount.
Qed.

(** The per-model token counts of built stats add up to the tokens of
    the rows whose model does not name a member every object inherits:
    to the token total when no row has such a model. *)
Theorem buildSessionStats_breakdown_adds_up
    (parseDate : string -> Z) (now : Z) (records : list TokenUsageRecord) :
  breakdownStats (byModel (buildSessionStats parseDate now records))
  = sumZ (List.map recordTokens (List.filter plainModel records))
  /\ (if List.forallb plainModel records
      then breakdownStats (byModel (buildSessionStats parseDate now records))
           = totalTokens (buildSessionStats parseDate now records)
      else True).
Proof.
  assert (H : breakdownStats (byModel (buildSessionStats parseDate now records))
              = sumZ (List.map recordTokens (List.filter plainModel records))).
  { unfold buildSessionStats. now apply build_breakdown. }
  split; [exact H|].
  destruct (List.forallb plainModel records) eqn:Hall; [|exact I].
  rewrite H, (filter_all _ _ Hall). unfold buildSessionStats.
  rewrite buildStep_totalTokens. cbn [totalTokens]. ring.
Qed.

(** Stats rebuilt for a session start at its earliest stored row: the
    start time is read from a row of the session whose [created_at] no
    other row of the session precedes; without a stored row it is the
    current time. *)
Theorem rebuilt_startTime_is_earliest
    (parseDate : string -> Z) (now : Z) (sessionId : string) (db : Table) :
  match getSessionStats sessionId db with
  | [] =>
      startTime (buildSessionStats parseDate now (getSessionStats sessionId db))
      = now
      /\ ofSession sessionId db = []
  | first :: _ =>
      startTime (buildSessionStats parseDate now (getSessionStats sessionId db))
      = parseDate (created_at first)
      /\ List.In first db /\ session_id first = sessionId
      /\ forall r, List.In r db -> session_id r = sessionId ->
                   strLe (created_at first) (created_at r)
  end.
Proof.
  pose proof (getSessionStats_In sessionId db) as Hin.
  pose proof (orderByCreatedAt_StronglySorted
                (List.filter (fun r => String.eqb (session_id r) sessionId) db))
    as Hsorted.
  pose proof (orderByCreatedAt_Permutation
                (List.filter (fun r => String.eqb (session_id r) sessionId) db))
    as Hperm.
  fold (getSessionStats sessionId db) in Hsorted, Hperm.
  fold (ofSession sessionId db) in Hperm.
  assert (Hstart : forall rs,
    startTime (buildSessionStats parseDate now rs)
    = match rs with r :: _ => parseDate (created_at r) | [] => now end).
  { intros rs. unfold buildSessionStats.
    set (s0 := {| totalTokens := 0; totalCost := 0%float;
                  messageCount := Z.of_nat (List.length rs);
                  startTime := _; byModel := [] |}).
    now destruct (build_loop rs s0 eq_refl eq_refl) as (_ & -> & _). }
  destruct (getSessionStats sessionId db) as [|first rest] eqn:E.
  - split; [apply Hstart|]. now apply Permutation_nil.
  - split; [apply Hstart|].
    destruct (proj1 (Hin first) (or_introl eq_refl)) as [Hdb Hs].
    split; [exact Hdb|]. split; [exact Hs|].
    intros r Hr Hsr.
    destruct (proj2 (Hin r) (conj Hr Hsr)) as [<-|Hrest]; [apply strLe_refl|].
    inversion Hsorted as [|? ? _ Hall]; subst.
    rewrite List.Forall_forall in Hall. now apply Hall.
Qed.

(* ================================================================== *)
(** * More on the event hook *)
(* ================================================================== *)

Section EventMore.

Lemma event_processed config env message st :
  msg_id message ∈ processedMessages st ->
  event config env (MessageUpdated message) st = ([], st).
Proof.
  intros Hin. unfold event, bind, gets, ret.
  destruct (msg_tokens message); [|reflexivity].
  rewrite (bool_decide_eq_true_2 _ Hin). now rewrite !orb_true_r.
Qed.

Lemma event_unqualified config env message st :
  qualifies message = false ->
  event config env (MessageUpdated message) st = ([], st).
Proof.
  unfold qualifies. intros H. unfold event, bind, gets, ret.
  destruct (msg_tokens message); [|reflexivity].
  cbn [isNone negb] in H. rewrite andb_true_r in H.
  apply andb_false_iff in H as [-> | ->]; cbn [negb orb]; [reflexivity|].
  now rewrite orb_true_r.
Qed.

Lemma event_known config env message st :
  qualifies message = true ->
  msg_id message ∉ processedMessages st ->
  hasMessage (msg_id message) (db st) = true ->
  event config env (MessageUpdated message) st = ([], remembered message st).
Proof.
  unfold qualifies. intros [[Hr Ht]%andb_prop Hk]%andb_prop Hp Hdb.
  unfold event, bind, gets, ret.
  destruct (msg_tokens message); [|discriminate].
  rewrite Hr, Ht, (bool_decide_eq_false_2 _ Hp). cbn [negb orb].
  rewrite Hdb. reflexivity.
Qed.

Lemma ingestible_split message st :
  ingestible message st
  = qualifies message
    && negb (bool_decide (msg_id message ∈ processedMessages st))
    && negb (hasMessage (msg_id message) (db st)).
Proof. reflexivity. Qed.

(** The four ways a run of the hook can go. *)
Lemma event_cases config env ev st :
  event config env ev st = ([], st)
  \/ (exists message,
        ev = MessageUpdated message
        /\ hasMessage (msg_id message) (db st) = true
        /\ event config env ev st = ([], remembered message st))
  \/ (exists message raw,
        ev = MessageUpdated message
        /\ ingestible message st = true
        /\ msg_tokens message = Some raw
        /\ e_fault env = true
        /\ event config env ev st = ([ToastSaveFailed], st))
  \/ (exists message raw toasts,
        ev = MessageUpdated message
        /\ ingestible message st = true
        /\ msg_tokens message = Some raw
        /\ e_fault env = false
        /\ (event config env ev st
            = (toasts, ingested config env message raw st)
            \/ event config env ev st
               = (toasts,
                  withToast (e_resetNow env) 0 0%float
                    (ingested config env message raw st)))).
Proof.
  destruct ev as [message|]; [|now left].
  destruct (qualifies message) eqn:Hq;
    [|left; now apply event_unqualified].
  destruct (bool_decide (msg_id message ∈ processedMessages st)) eqn:Hp.
  { left. apply event_processed. now apply bool_decide_eq_true in Hp. }
  apply bool_decide_eq_false in Hp.
  destruct (hasMessage (msg_id message) (db st)) eqn:Hdb.
  { right. left. exists message. repeat split; try assumption.
    now apply event_known. }
  assert (Hin : ingestible message st = true).
  { rewrite ingestible_split, Hq, Hdb, (bool_decide_eq_false_2 _ Hp).
    reflexivity. }
  destruct (ingestible_raw _ _ Hin) as [raw Hraw].
  pose proof (event_ingestible config env message raw st Hin Hraw) as E.
  right. right. destruct (e_fault env) eqn:Hf.
  - left. exists message, raw. auto.
  - right. cbv zeta in E.
    destruct (shouldShowToast config (e_toastNow env)
                (ingested config env message raw st)).
    + eexists message, raw, _. repeat split; try assumption. right. exact E.
    + eexists message, raw, _. repeat split; try assumption. left. exact E.
Qed.

Lemma updateStats_breakdown m t c s :
  breakdownStats (byModel (updateStats m t c s))
  = breakdownStats (byModel s)
    + match Obj_read m (byModel s) with
      | Inherited => 0
      | _ => tokensTotal t
      end.
Proof.
  unfold updateStats, breakdownStats, Obj.entries, tokensTotal. cbn [byModel].
  fold (weight modelTokens (byModel s)).
  rewrite <- (weight_touch modelTokens m emptyModelStats
                (fun e => {| m_input := m_input e + input t;
                             m_output := m_output e + output t;
                             m_cacheRead := m_cacheRead e + cacheRead t;
                             m_cacheWrite := m_cacheWrite e + cacheWrite t;
                             m_cost := m_cost e |})
                (byModel s) (input t + output t + cacheRead t + cacheWrite t)
                eq_refl).
  - destruct c as [c|]; [|reflexivity].
    apply (weight_modify_same modelTokens). reflexivity.
  - intros e. unfold modelTokens. simpl. ring.
Qed.

(** The session cache after one run of the hook. *)
Lemma event_cache config env ev st :
  sessionStats (snd (event config env ev st)) = sessionStats st
  \/ exists message raw,
       sessionStats (snd (event config env ev st))
       = <[sessionID message := statsAfter config env message raw st]>
           (sessionStats st).
Proof.
  destruct (event_cases config env ev st)
    as [E|[(m & _ & _ & E)|[(m & raw & _ & _ & _ & _ & E)
       |(m & raw & t & _ & _ & _ & _ & [E|E])]]];
    rewrite E; cbn [snd]; try (now left); right; now exists m, raw.
Qed.

(** The session cache after one run of the hook, with the message
    that changed it. *)
Lemma event_cache_of config env ev st :
  sessionStats (snd (event config env ev st)) = sessionStats st
  \/ exists message raw,
       ev = MessageUpdated message
       /\ sessionStats (snd (event config env ev st))
          = <[sessionID message := statsAfter config env message raw st]>
              (sessionStats st).
Proof.
  destruct (event_cases config env ev st)
    as [E|[(m & _ & _ & E)|[(m & raw & _ & _ & _ & _ & E)
       |(m & raw & t & Hev & _ & _ & _ & [E|E])]]];
    rewrite E; cbn [snd]; try (now left); right; now exists m, raw.
Qed.


End EventMore.

(** Delivering a message again after it was ingested changes nothing:
    whatever the second run reads, it shows no toast and leaves the
    store, the cache, the processed ids and the counters as they are. *)
Theorem event_replay_changes_nothing
    (config : PluginConfig) (env env' : Env) (message : Message) (st : State) :
  ingestible message st = true ->
  e_fault env = false ->
  let st' := snd (event config env (MessageUpdated message) st) in
  event config env' (MessageUpdated message) st' = ([], st').
Proof.
  intros Hin Hf. cbv zeta. apply event_processed.
  destruct (ingestible_raw _ _ Hin) as [raw Hraw].
  rewrite (event_ingestible _ _ _ _ _ Hin Hraw), Hf. cbv zeta.
  destruct (shouldShowToast _ _ _); cbn [snd processedMessages withToast ingested];
    set_solver.
Qed.

(** The same message delivered twice, the second time with failing
    storage. *)
Lemma event_replay_changes_nothing_witness :
  let message :=
    assistantMessage "m1" "s1" (ModelString "openai/gpt-5") 1000 500 None in
  let env := envAt "id1" "2024-03-01T10:00:00.000Z" false 1709287200000 in
  let env' := envAt "id2" "2024-03-01T10:00:01.000Z" true 1709287201000 in
  let st' := snd (event defaultConfig env (MessageUpdated message)
                    (initialState [] 0)) in
  event defaultConfig env' (MessageUpdated message) st' = ([], st').
Proof.
  intros message env env'.
  exact (event_replay_changes_nothing defaultConfig env env' message
           (initialState [] 0) eq_refl eq_refl).
Defined.

(** An event that is not a message update, and a message that is not
    from the assistant, not completed, without token data or already
    processed, is ignored: no toast, and the state exactly as before
    (nothing is read from the store). *)
Theorem event_ignores_unqualified
    (config : PluginConfig) (env : Env) (message : Message) (st : State) :
  event config env OtherEvent st = ([], st)
  /\ (if qualifies message
         && negb (bool_decide (msg_id message ∈ processedMessages st))
      then True
      else event config env (MessageUpdated message) st = ([], st)).
Proof.
  split; [reflexivity|].
  destruct (qualifies message) eqn:Hq; [|now apply event_unqualified].
  destruct (bool_decide (msg_id message ∈ processedMessages st)) eqn:Hp;
    [|exact I].
  apply event_processed. now apply bool_decide_eq_true in Hp.
Qed.

(** A message that the store already holds (ingested before a restart)
    is only remembered as processed: no toast, no write, no change of
    the session cache or of the counters; and from then on it is
    ignored without asking the store. *)
Theorem event_stored_message_only_remembered
    (config : PluginConfig) (env env' : Env) (message : Message) (st : State) :
  qualifies message = true ->
  msg_id message ∉ processedMessages st ->
  hasMessage (msg_id message) (db st) = true ->
  let st' := snd (event config env (MessageUpdated message) st) in
  fst (event config env (MessageUpdated message) st) = []
  /\ db st' = db st
  /\ sessionStats st' = sessionStats st
  /\ (lastToastTime st', messagesSinceToast st', costSinceToast st')
     = (lastToastTime st, messagesSinceToast st, costSinceToast st)
  /\ processedMessages st' = {[msg_id message]} ∪ processedMessages st
  /\ event config env' (MessageUpdated message) st' = ([], st').
Proof.
  intros Hq Hp Hdb. cbv zeta.
  rewrite (event_known _ _ _ _ Hq Hp Hdb). cbn [fst snd].
  repeat split. apply event_processed.
  unfold remembered. cbn [processedMessages withProcessed]. set_solver.
Qed.

(** After a restart: the store holds message [m1], the cache is
    empty. *)
Lemma event_stored_message_only_remembered_witness :
  let stored := row "id0" "s1" "m1" "openai/gpt-5" 1000 500 None
                  "2024-03-01T09:00:00.000Z" in
  let message :=
    assistantMessage "m1" "s1" (ModelString "openai/gpt-5") 1000 500 None in
  let env := envAt "id1" "2024-03-01T10:00:00.000Z" false 1709287200000 in
  db (snd (event defaultConfig env (MessageUpdated message)
             (initialState [stored] 0)))
  = [stored].
Proof.
  intros stored message env.
  assert (Hp : msg_id message ∉ processedMessages (initialState [stored] 0)).
  { cbn [processedMessages initialState]. set_solver. }
  exact (proj1 (proj2 (event_stored_message_only_remembered defaultConfig env env
                         message (initialState [stored] 0) eq_refl Hp eq_refl))).
Defined.

Section RunFacts.

Lemma events_delta config l st sessionId :
  freshIds config l st = true ->
  cachedTotal sessionId (events config l st) - cachedTotal sessionId st
  = storedTotal sessionId (db (events config l st))
    - storedTotal sessionId (db st).
Proof.
  revert st. induction l as [|[env ev] l IH]; intros st; simpl; [lia|].
  intros [Hid Hl]%andb_prop. apply negb_true_iff in Hid.
  destruct (event_totals config env ev st sessionId) as [_ Hdelta].
  specialize (Hdelta Hid). specialize (IH _ Hl). lia.
Qed.

Lemma statsAfter_messageCount config env message raw st :
  messageCount (statsAfter config env message raw st)
  = messageCount (nullish (sessionStats st !! sessionID message)
                    (freshStats (e_now env))) + 1.
Proof. reflexivity. Qed.

Lemma events_messageCount config l st :
  (forall sid s, sessionStats st !! sid = Some s -> 1 <= messageCount s) ->
  forall sid s,
    sessionStats (events config l st) !! sid = Some s -> 1 <= messageCount s.
Proof.
  revert st. induction l as [|[env ev] l IH]; intros st Hinv; [exact Hinv|].
  cbn [events]. apply IH. intros sid s.
  destruct (event_cache config env ev st) as [-> | (m & raw & ->)];
    [apply Hinv|].
  destruct (decide (sessionID m = sid)) as [<-|Hne].
  - rewrite lookup_insert_eq. intros [= <-].
    rewrite statsAfter_messageCount.
    destruct (sessionStats st !! sessionID m) as [s0|] eqn:E; cbn [nullish].
    + specialize (Hinv _ _ E). lia.
    + cbn [freshStats messageCount]. lia.
  - rewrite lookup_insert_ne by assumption. apply Hinv.
Qed.

Lemma events_breakdown config l st :
  plainEvents l = true ->
  (forall sid s, sessionStats st !! sid = Some s ->
                 breakdownStats (byModel s) = totalTokens s) ->
  forall sid s,
    sessionStats (events config l st) !! sid = Some s ->
    breakdownStats (byModel s) = totalTokens s.
Proof.
  revert st. induction l as [|[env ev] l IH]; intros st Hplain Hinv;
    [exact Hinv|].
  cbn [events]. unfold plainEvents in Hplain. cbn [List.forallb snd] in Hplain.
  apply andb_prop in Hplain as [Hev Hl]. apply (IH _ Hl). intros sid s.
  destruct (event_cache_of config env ev st) as [-> | (m & raw & -> & ->)];
    [apply Hinv|].
  cbn [plainEvent] in Hev. apply negb_true_iff in Hev.
  destruct (decide (sessionID m = sid)) as [<-|Hne].
  - rewrite lookup_insert_eq. intros [= <-].
    unfold statsAfter. rewrite updateStats_breakdown, (read_plain _ _ _ _ Hev).
    unfold updateStats at 1. cbn [totalTokens]. unfold tokensTotal.
    destruct (sessionStats st !! sessionID m) as [s0|] eqn:E; cbn [nullish].
    + now rewrite (Hinv _ _ E).
    + reflexivity.
  - rewrite lookup_insert_ne by assumption. apply Hinv.
Qed.

Lemma hasMessage_insert_mono m f r d :
  hasMessage m d = true -> hasMessage m (fst (insert f r d)) = true.
Proof.
  intros H. destruct (insert_appends f r d) as (a & -> & _).
  now rewrite hasMessage_app, H.
Qed.

Lemma events_processed_stored config l st :
  freshIds config l st = true ->
  (forall m, m ∈ processedMessages st -> hasMessage m (db st) = true) ->
  forall m, m ∈ processedMessages (events config l st) ->
            hasMessage m (db (events config l st)) = true.
Proof.
  revert st. induction l as [|[env ev] l IH]; intros st Hfresh Hinv;
    [exact Hinv|].
  cbn [events freshIds] in *. apply andb_prop in Hfresh as [Hid Hl].
  apply negb_true_iff in Hid. apply (IH _ Hl). intros m.
  destruct (event_cases config env ev st)
    as [E|[(msg & _ & Hdb & E)|[(msg & raw & _ & _ & _ & _ & E)
       |(msg & raw & t & _ & Hin & _ & _ & HE)]]].
  - rewrite E. apply Hinv.
  - rewrite E. cbn [snd remembered processedMessages withProcessed db].
    intros [->%elem_of_singleton|Hm]%elem_of_union; [exact Hdb | now apply Hinv].
  - rewrite E. apply Hinv.
  - assert (Hnew : hasMessage (msg_id msg) (db st) = false).
    { rewrite ingestible_split in Hin. apply andb_prop in Hin as [_ Hin].
      now apply negb_true_iff in Hin. }
    assert (Hst : processedMessages (snd (event config env ev st))
                  = {[msg_id msg]} ∪ processedMessages st
                  /\ db (snd (event config env ev st))
                     = db st ++ [recordOf config env msg raw]).
    { destruct HE as [E|E]; rewrite E;
        cbn [snd processedMessages db withToast ingested];
        now rewrite (insert_fresh (recordOf config env msg raw) (db st) Hnew Hid). }
    destruct Hst as [-> ->]. rewrite hasMessage_app.
    intros [->%elem_of_singleton|Hm]%elem_of_union.
    + unfold hasMessage at 2. cbn. rewrite String.eqb_refl. apply orb_true_r.
    + now rewrite (Hinv _ Hm).
Qed.

End RunFacts.


(** The cached token total of a session counts exactly the rows the
    hook has written for it since the plugin started: the stored total
    of the session now, less its stored total at the start. Rows of an
    earlier run are not part of it. *)
Theorem cache_counts_rows_of_this_run
    (config : PluginConfig) (rows : Table) (t0 : Z) (l : list (Env * Event))
    (sessionId : string) :
  freshIds config l (initialState rows t0) = true ->
  let st := events config l (initialState rows t0) in
  cachedTotal sessionId st
  = storedTotal sessionId (db st) - storedTotal sessionId rows.
Proof.
  intros Hfresh. cbv zeta.
  pose proof (events_delta config l (initialState rows t0) sessionId Hfresh) as H.
  unfold cachedTotal at 2 in H. cbn [initialState sessionStats db] in H.
  rewrite lookup_empty in H. lia.
Qed.

(** A session with a row of 30 tokens from an earlier run, and one new
    message of 5 tokens: the cache says 5. *)
Lemma cache_counts_rows_of_this_run_witness :
  let rows := [row "id0" "s1" "m0" "openai/gpt-5" 10 20 None
                 "2024-03-01T09:00:00.000Z"] in
  let run :=
    [ (envAt "id1" "2024-03-01T10:00:00.000Z" false 1709287200000,
       MessageUpdated
         (assistantMessage "m1" "s1" (ModelString "openai/gpt-5") 2 3 None)) ] in
  let st := events defaultConfig run (initialState rows 0) in
  cachedTotal "s1" st = storedTotal "s1" (db st) - storedTotal "s1" rows
  /\ cachedTotal "s1" st = 5.
Proof.
  intros rows run st.
  assert (H : freshIds defaultConfig run (initialState rows 0) = true)
    by (vm_compute; reflexivity).
  split.
  - exact (cache_counts_rows_of_this_run defaultConfig rows 0 run "s1" H).
  - vm_compute. reflexivity.
Defined.

Section CacheRule.

Lemma tokensOf_recordOf config env message raw :
  tokensOf (recordOf config env message raw) = extractTokens raw.
Proof.
  unfold tokensOf, recordOf.
  cbn [input_tokens output_tokens cache_read_tokens cache_write_tokens].
  now destruct (extractTokens raw).
Qed.

Lemma ingestAll_snoc t rs r :
  ingestAll t (rs ++ [r])
  = updateStats (model r) (tokensOf r) (cost r) (ingestAll t rs).
Proof. unfold ingestAll. now rewrite List.fold_left_app. Qed.

Lemma updateStats_startTime m t c s :
  startTime (updateStats m t c s) = startTime s.
Proof. reflexivity. Qed.

Lemma ingestAll_startTime t rs : startTime (ingestAll t rs) = t.
Proof.
  induction rs as [|r rs IH] using List.rev_ind; [reflexivity|].
  now rewrite ingestAll_snoc.
Qed.

Lemma ingested_cacheFollows config env message raw st added :
  cacheFollows added st ->
  cacheFollows (added ++ [recordOf config env message raw])
    (ingested config env message raw st).
Proof.
  intros Hinv sid. specialize (Hinv sid).
  unfold ingested. cbn [sessionStats].
  unfold ofSession. rewrite List.filter_app. cbn [List.filter recordOf session_id].
  fold (ofSession sid added).
  destruct (String.eqb_spec (sessionID message) sid) as [<-|Hne].
  - rewrite lookup_insert_eq. split; [now destruct (ofSession _ added)|].
    rewrite ingestAll_snoc, tokensOf_recordOf. cbn [model cost recordOf].
    unfold statsAfter.
    destruct (sessionStats st !! sessionID message) as [s0|]; cbn [nullish].
    + destruct Hinv as [_ Hs0]. rewrite updateStats_startTime.
      now rewrite <- Hs0.
    + rewrite Hinv. reflexivity.
  - rewrite lookup_insert_ne by assumption. now rewrite List.app_nil_r.
Qed.

Lemma events_cacheFollows config l st base added :
  freshIds config l st = true ->
  db st = base ++ added -> cacheFollows added st ->
  exists added',
    db (events config l st) = base ++ added'
    /\ cacheFollows added' (events config l st).
Proof.
  revert st added. induction l as [|[env ev] l IH]; intros st added Hfresh Hdb Hinv.
  - exists added. auto.
  - cbn [events freshIds] in *. apply andb_prop in Hfresh as [Hid Hl].
    apply negb_true_iff in Hid.
    destruct (event_cases config env ev st)
      as [E|[(msg & _ & _ & E)|[(msg & raw & _ & _ & _ & _ & E)
         |(msg & raw & t & _ & Hin & _ & _ & HE)]]].
    + apply (IH _ added Hl); rewrite E; assumption.
    + apply (IH _ added Hl); rewrite E; assumption.
    + apply (IH _ added Hl); rewrite E; assumption.
    + assert (Hnew : hasMessage (msg_id msg) (db st) = false).
      { rewrite ingestible_split in Hin. apply andb_prop in Hin as [_ Hin].
        now apply negb_true_iff in Hin. }
      apply (IH _ (added ++ [recordOf config env msg raw]) Hl).
      * destruct HE as [E|E]; rewrite E; cbn [snd db withToast ingested];
          rewrite (insert_fresh (recordOf config env msg raw) (db st) Hnew Hid);
          cbn [fst]; now rewrite Hdb, List.app_assoc.
      * destruct HE as [E|E]; rewrite E; cbn [snd];
          [|intros sid; cbn [sessionStats withToast]];
          now apply ingested_cacheFollows.
Qed.

End CacheRule.

(** Within one run of the plugin. With ids that are new and no message
    whose model names a member every object inherits, the cache entry
    of a session is what the hook's update gives when folded over the
    rows written for the session in this run, in the order written, and
    there is no entry when none was written. With token counts that are
    not negative the cached token total never decreases along the run.
    The stats rebuilt from the store count the four token fields of all
    stored rows of the session; they are at least the cached total (ids
    new, stored counts not negative), and they have the totals, the
    message count and the per-model entries that folding the same
    update over these rows gives. *)
Theorem session_cache_follows_rule
    (config : PluginConfig) (rows : Table) (t0 : Z) (l : list (Env * Event))
    (sessionId : string) (parseDate : string -> Z) (now : Z) :
  let st := events config l (initialState rows t0) in
  let records := getSessionStats sessionId (db st) in
  let rebuilt := buildSessionStats parseDate now records in
  (if plainEvents l && freshIds config l (initialState rows t0) then
     exists added,
       db st = rows ++ added
       /\ match sessionStats st !! sessionId with
          | Some stats =>
              ofSession sessionId added <> []
              /\ stats = ingestAll (startTime stats) (ofSession sessionId added)
          | None => ofSession sessionId added = []
          end
   else True)
  /\ (if nonnegEvents l then
        forall l1 l2, l = l1 ++ l2 ->
          cachedTotal sessionId (events config l1 (initialState rows t0))
          <= cachedTotal sessionId st
      else True)
  /\ totalTokens rebuilt
     = sumZ (List.map recordTokens (ofSession sessionId (db st)))
  /\ (if List.forallb nonnegRow rows && freshIds config l (initialState rows t0)
      then cachedTotal sessionId st <= totalTokens rebuilt
      else True)
  /\ totalTokens rebuilt = totalTokens (ingestAll now records)
  /\ totalCost rebuilt = totalCost (ingestAll now records)
  /\ messageCount rebuilt = messageCount (ingestAll now records)
  /\ byModel rebuilt = byModel (ingestAll now records)
  /\ (let stored := row "id0" "s1" "m0" "openai/gpt-5" 10 20 None
                      "2024-03-01T09:00:00.000Z" in
      let run :=
        [ (envAt "id1" "2024-03-01T10:00:00.000Z" false 1709287200000,
           MessageUpdated
             (assistantMessage "m1" "s1" (ModelString "openai/gpt-5")
                1000 500 None));
          (envAt "id2" "2024-03-01T10:05:00.000Z" false 1709287500000,
           MessageUpdated
             (assistantMessage "m2" "s1" (ModelString "acme/x") 7 7 None)) ] in
      let after := events defaultConfig run (initialState [stored] 0) in
      option_map (fun s => (totalTokens s, messageCount s,
                            List.map fst (byModel s)))
        (sessionStats after !! "s1")
      = Some (1514, 2, ["openai/gpt-5"; "acme/x"])
      /\ List.map message_id (db after) = ["m0"; "m1"; "m2"]
      /\ storedTotal "s1" (db after) = 1544).
Proof.
  cbv zeta.
  assert (Hrun :
    let stored := row "id0" "s1" "m0" "openai/gpt-5" 10 20 None
                    "2024-03-01T09:00:00.000Z" in
    let run :=
      [ (envAt "id1" "2024-03-01T10:00:00.000Z" false 1709287200000,
         MessageUpdated
           (assistantMessage "m1" "s1" (ModelString "openai/gpt-5")
              1000 500 None));
        (envAt "id2" "2024-03-01T10:05:00.000Z" false 1709287500000,
         MessageUpdated
           (assistantMessage "m2" "s1" (ModelString "acme/x") 7 7 None)) ] in
    let after := events defaultConfig run (initialState [stored] 0) in
    option_map (fun s => (totalTokens s, messageCount s,
                          List.map fst (byModel s)))
      (sessionStats after !! "s1")
    = Some (1514, 2, ["openai/gpt-5"; "acme/x"])
    /\ List.map message_id (db after) = ["m0"; "m1"; "m2"]
    /\ storedTotal "s1" (db after) = 1544).
  { vm_compute. repeat split; reflexivity. }
  cbv zeta in Hrun.
  split.
  { destruct (plainEvents l); [|exact I]. cbn [andb].
    destruct (freshIds config l (initialState rows t0)) eqn:Hfresh; [|exact I].
    destruct (events_cacheFollows config l (initialState rows t0) rows []
                Hfresh) as (added & Hdb & Hinv).
    - cbn [initialState db]. now rewrite List.app_nil_r.
    - intros sid. cbn [initialState sessionStats]. now rewrite lookup_empty.
    - exists added. split; [exact Hdb | apply Hinv]. }
  split.
  { destruct (nonnegEvents l) eqn:Hev; [|exact I].
    intros l1 l2 ->. rewrite events_app. apply events_monotone.
    unfold nonnegEvents in *. rewrite List.forallb_app in Hev.
    now apply andb_prop in Hev as [_ Hev]. }
  split; [apply rebuilt_totalTokens|].
  split.
  { destruct (List.forallb nonnegRow rows) eqn:Hrows; [|exact I]. cbn [andb].
    destruct (freshIds config l (initialState rows t0)) eqn:Hfresh; [|exact I].
    rewrite rebuilt_totalTokens. apply events_below_store; [assumption|].
    unfold cachedTotal, initialState. cbn [sessionStats db].
    rewrite lookup_empty. now apply storedTotal_nonneg. }
  destruct (rebuild_agrees parseDate now now
              (getSessionStats sessionId
                 (db (events config l (initialState rows t0)))))
    as (H1 & H2 & H3 & H4).
  auto 10.
Qed.

(** Every entry of the session cache counts at least one message, so
    for a session that has an entry (and an id that is not the empty
    string) the [usage] tool reports the entry itself: it neither
    answers that there is no data nor rebuilds the stats from the
    store. *)
Theorem cached_session_is_reported
    (config : PluginConfig) (rows : Table) (t0 : Z) (l : list (Env * Event))
    (sessionId : string) (stats : SessionStats)
    (parseDate : string -> Z) (now : Z) (full : bool) :
  let st := events config l (initialState rows t0) in
  sessionStats st !! sessionId = Some stats ->
  1 <= messageCount stats
  /\ fst (usage_execute parseDate now full (Some sessionId) st)
     = (if String.eqb sessionId "" then NoActiveSession else Report full stats).
Proof.
  cbv zeta. intros Hget.
  assert (Hcount : 1 <= messageCount stats).
  { apply (events_messageCount config l (initialState rows t0)) with sessionId;
      [|exact Hget].
    intros sid s. cbn [initialState sessionStats]. now rewrite lookup_empty. }
  split; [exact Hcount|].
  destruct sessionId as [|c sid]; [reflexivity|].
  change (String.eqb (String c sid) "") with false. cbv iota.
  unfold usage_execute, bind, gets, ret. rewrite Hget.
  destruct (Z.eqb_spec (messageCount stats) 0); [lia | reflexivity].
Qed.

(** One ingested message. *)
Lemma cached_session_is_reported_witness :
  let run :=
    [ (envAt "id1" "2024-03-01T10:00:00.000Z" false 1709287200000,
       MessageUpdated
         (assistantMessage "m1" "s1" (ModelString "openai/gpt-5") 2 3 None)) ] in
  let st := events defaultConfig run (initialState [] 0) in
  fst (usage_execute (fun _ => 0) 0 true (Some "s1") st)
  = Report true (statsAfter defaultConfig
                   (envAt "id1" "2024-03-01T10:00:00.000Z" false 1709287200000)
                   (assistantMessage "m1" "s1" (ModelString "openai/gpt-5") 2 3 None)
                   {| mt_input := Some 2; mt_output := Some 3; mt_cache := None |}
                   (initialState [] 0)).
Proof.
  intros run st.
  exact (proj2 (cached_session_is_reported defaultConfig [] 0 run "s1" _
                  (fun _ => 0) 0 true eq_refl)).
Defined.

(** A message is marked as processed only when the store holds it:
    with ids that are new, every processed id has a stored row. *)
Theorem processed_messages_are_stored
    (config : PluginConfig) (rows : Table) (t0 : Z) (l : list (Env * Event))
    (m : string) :
  freshIds config l (initialState rows t0) = true ->
  let st := events config l (initialState rows t0) in
  m ∈ processedMessages st -> hasMessage m (db st) = true.
Proof.
  intros Hfresh. cbv zeta.
  apply (events_processed_stored config l (initialState rows t0) Hfresh).
  intros m0. cbn [initialState processedMessages]. set_solver.
Qed.

(** A message ingested, then a second one whose write fails. *)
Lemma processed_messages_are_stored_witness :
  let run :=
    [ (envAt "id1" "2024-03-01T10:00:00.000Z" false 1709287200000,
       MessageUpdated
         (assistantMessage "m1" "s1" (ModelString "openai/gpt-5") 2 3 None));
      (envAt "id2" "2024-03-01T10:01:00.000Z" true 1709287260000,
       MessageUpdated
         (assistantMessage "m2" "s1" (ModelString "openai/gpt-5") 4 5 None)) ] in
  hasMessage "m1" (db (events defaultConfig run (initialState [] 0))) = true.
Proof.
  intros run.
  assert (H : freshIds defaultConfig run (initialState [] 0) = true)
    by (vm_compute; reflexivity).
  assert (Hin : "m1" ∈ processedMessages
                         (events defaultConfig run (initialState [] 0))).
  { vm_compute. set_solver. }
  exact (processed_messages_are_stored defaultConfig [] 0 run "m1" H Hin).
Defined.

(** When no message has a model that names a member every object
    inherits, the per-model token counts of every entry of the session
    cache add up to the entry's token total. A message of model
    ["constructor"] is counted in the total but gets no per-model
    entry. *)
Theorem cache_breakdown_adds_up
    (config : PluginConfig) (rows : Table) (t0 : Z) (l : list (Env * Event))
    (sessionId : string) (stats : SessionStats) :
  plainEvents l = true ->
  sessionStats (events config l (initialState rows t0)) !! sessionId
  = Some stats ->
  breakdownStats (byModel stats) = totalTokens stats
  /\ (let odd :=
        [ (envAt "id1" "2024-03-01T10:00:00.000Z" false 1709287200000,
           MessageUpdated
             (assistantMessage "m1" "s1" (ModelString "constructor") 10 5 None)) ] in
      option_map (fun s => (byModel s, totalTokens s))
        (sessionStats (events defaultConfig odd (initialState [] 0)) !! "s1")
      = Some ([], 15)).
Proof.
  intros Hplain Hget. split; [|vm_compute; reflexivity].
  revert Hget. apply (events_breakdown config l (initialState rows t0) Hplain).
  intros sid s. cbn [initialState sessionStats]. now rewrite lookup_empty.
Qed.

(** Two messages of two models in one session. *)
Lemma cache_breakdown_adds_up_witness :
  let run :=
    [ (envAt "id1" "2024-03-01T10:00:00.000Z" false 1709287200000,
       MessageUpdated
         (assistantMessage "m1" "s1" (ModelString "openai/gpt-5") 2 3 None));
      (envAt "id2" "2024-03-01T10:01:00.000Z" false 1709287260000,
       MessageUpdated
         (assistantMessage "m2" "s1" (ModelString "acme/x") 4 5 None)) ] in
  match sessionStats (events defaultConfig run (initialState [] 0)) !! "s1" with
  | Some stats => breakdownStats (byModel stats) = totalTokens stats
  | None => False
  end.
Proof.
  intros run.
  destruct (sessionStats (events defaultConfig run (initialState [] 0)) !! "s1")
    as [stats|] eqn:E.
  - exact (proj1 (cache_breakdown_adds_up defaultConfig [] 0 run "s1" stats
                    eq_refl E)).
  - vm_compute in E. discriminate E.
Defined.

(* ================================================================== *)
(** * Writing and reading back; the start of the plugin *)
(* ================================================================== *)

Section ReadBack.

Lemma sumZ_filter_le (f g : TokenUsageRecord -> bool) (d : Table) :
  (forall r, f r = true -> g r = true) ->
  List.forallb nonnegRow d = true ->
  sumZ (List.map recordTokens (List.filter f d))
  <= sumZ (List.map recordTokens (List.filter g d)).
Proof.
  intros H. induction d as [|r d IH]; simpl; [lia|].
  intros [Hr Hd]%andb_prop. specialize (IH Hd).
  assert (0 <= recordTokens r).
  { unfold nonnegRow in Hr.
    apply andb_prop in Hr as [[[H1 H2]%andb_prop H3]%andb_prop H4].
    apply Z.leb_le in H1, H2, H3, H4. unfold recordTokens. lia. }
  destruct (f r) eqn:Hf.
  - rewrite (H _ Hf). cbn [List.map]. rewrite !sumZ_cons. lia.
  - destruct (g r); cbn [List.map]; rewrite ?sumZ_cons; lia.
Qed.


End ReadBack.



(** A period that starts earlier never reports fewer messages or
    sessions, nor, with token counts that are not negative, fewer
    tokens: what [globalusage] shows for the week is at least what it
    shows for today. *)
Theorem period_earlier_start_reports_more
    (machineId start1 start2 : string) (modelFilter : option string)
    (st : State) :
  strLe start1 start2 ->
  List.forallb nonnegRow (db st) = true ->
  let wide := fst (period machineId start1 modelFilter st) in
  let narrow := fst (period machineId start2 modelFilter st) in
  messages narrow <= messages wide
  /\ sessions narrow <= sessions wide
  /\ tokens narrow <= tokens wide.
Proof.
  intros Hle Hnn. cbv zeta. unfold period, bind, gets, ret.
  cbn [fst messages sessions tokens].
  assert (Hin : forall r,
    rangeWhere machineId start2 farFuture modelFilter r = true ->
    rangeWhere machineId start1 farFuture modelFilter r = true).
  { intros r. rewrite !rangeWhere_inRange.
    intros (Hm & Hs & He & Hf). repeat split; try assumption.
    eapply strLe_trans; eassumption. }
  split; [|split].
  - unfold calculateAggregates, getAggregateStats. cbn [agg_messages fst].
    rewrite !(Permutation_length (orderByCreatedAt_Permutation _)).
    apply inj_le, filter_length_le, Hin.
  - unfold getAggregateStats. cbn [snd].
    rewrite !Set_size_distinct. apply distinctCount_incl.
    intros s (r & <- & Hr)%List.in_map_iff. apply List.in_map.
    apply (Permutation_in _ (orderByCreatedAt_Permutation _)) in Hr.
    apply (Permutation_in _ (Permutation_sym (orderByCreatedAt_Permutation _))).
    apply List.filter_In in Hr as [Hdb Hr].
    apply List.filter_In. split; [exact Hdb | now apply Hin].
  - rewrite !aggregate_tokens. unfold getAggregateStats. cbn [fst].
    rewrite (sumZ_Permutation _ _
               (Permutation_map recordTokens (orderByCreatedAt_Permutation
                  (List.filter (rangeWhere machineId start2 farFuture modelFilter)
                     (db st))))).
    rewrite (sumZ_Permutation _ _
               (Permutation_map recordTokens (orderByCreatedAt_Permutation
                  (List.filter (rangeWhere machineId start1 farFuture modelFilter)
                     (db st))))).
    now apply sumZ_filter_le.
Qed.

(** Today inside the week. *)
Lemma period_earlier_start_reports_more_witness :
  let r1 := row "a" "s1" "m1" "openai/gpt-5" 1 1 None "2024-03-04T08:00:00.000Z" in
  let r2 := row "b" "s2" "m2" "openai/gpt-5" 2 2 None "2024-03-06T08:00:00.000Z" in
  let st := initialState [r1; r2] 0 in
  tokens (fst (period "host" "2024-03-06T00:00:00.000Z" None st))
  <= tokens (fst (period "host" "2024-03-04T00:00:00.000Z" None st)).
Proof.
  intros r1 r2 st.
  exact (proj2 (proj2 (period_earlier_start_reports_more "host"
    "2024-03-04T00:00:00.000Z" "2024-03-06T00:00:00.000Z" None st
    eq_refl eq_refl))).
Defined.

(** The start of the plugin. Disabled, it shows nothing and installs no
    hook; when the store cannot be opened it shows one error toast and
    installs no hook; otherwise the hooks start on exactly the rows the
    database file holds (none for a new file), with an empty cache, no
    processed id and the toast counters at zero, and the first [usage]
    report of a session (one with an id that is not the empty string)
    is built from all its stored rows. *)
Theorem plugin_start
    (hostname : string) (rawConfig : option RawConfig) (openFault : bool)
    (file : option Table) (now : Z)
    (parseDate : string -> Z) (t : Z) (full : bool) (sessionId : string) :
  let config := getConfig hostname rawConfig in
  let rows := match file with Some rows => rows | None => [] end in
  match UsageTrackerPlugin hostname rawConfig openFault file now with
  | (NoHooks, toasts) =>
      (enabled config = false /\ toasts = [])
      \/ (enabled config = true /\ openFault = true
          /\ toasts = [ToastOpenFailed])
  | (Hooks config' st, toasts) =>
      enabled config = true /\ openFault = false /\ toasts = []
      /\ config' = config
      /\ db st = rows /\ sessionStats st = ∅
      /\ processedMessages st = ∅
      /\ lastToastTime st = now /\ messagesSinceToast st = 0
      /\ costSinceToast st = 0%float
      /\ fst (usage_execute parseDate t full (Some sessionId) st)
         = (if String.eqb sessionId "" then NoActiveSession
            else match getSessionStats sessionId rows with
                 | [] => NoUsageData
                 | records => Report full (buildSessionStats parseDate t records)
                 end)
      /\ totalTokens
           (buildSessionStats parseDate t (getSessionStats sessionId rows))
         = storedTotal sessionId rows
  end.
Proof.
  cbv zeta. unfold UsageTrackerPlugin, UsageDatabase.
  destruct (enabled (getConfig hostname rawConfig)); cbn [negb]; [|now left].
  destruct openFault; [right; auto|].
  assert (Hrows : migrate file = match file with Some rows => rows | None => [] end)
    by reflexivity.
  rewrite Hrows. repeat split.
  - destruct sessionId as [|c sid]; [reflexivity|].
    change (String.eqb (String c sid) "") with false. cbv iota.
    unfold usage_execute, bind, gets, ret, initialState.
    cbn [db sessionStats]. rewrite lookup_empty. cbn [db].
    destruct (getSessionStats (String c sid) _); reflexivity.
  - apply rebuilt_totalTokens.
Qed.

(** The week starts on a Monday that is today or one of the six days
    before: [getStartOfWeek] moves the date back by 0 to 6 days, to the
    day whose day of the week is 1, and not at all on a Monday. *)
Theorem weekStartDate_is_last_monday (date day : Z) :
  0 <= day <= 6 ->
  0 <= date - weekStartDate date day <= 6
  /\ (day - (date - weekStartDate date day)) mod 7 = 1
  /\ date - weekStartDate date day = (day + 6) mod 7
  /\ weekStartDate date 1 = date
  /\ weekStartDate date 0 = date - 6.
Proof.
  intros Hday. unfold weekStartDate.
  assert (Hback : date - (date - day + (if day =? 0 then -6 else 1))
                  = if day =? 0 then 6 else day - 1)
    by (destruct (Z.eqb_spec day 0); lia).
  rewrite Hback.
  split; [|split; [|split; [|split; cbn [Z.eqb]; ring]]].
  - destruct (Z.eqb_spec day 0); lia.
  - assert (Hcases : day = 0 \/ day = 1 \/ day = 2 \/ day = 3 \/ day = 4
                     \/ day = 5 \/ day = 6) by lia.
    destruct Hcases as [-> | [-> | [-> | [-> | [-> | [-> | ->]]]]]];
      reflexivity.
  - assert (Hcases : day = 0 \/ day = 1 \/ day = 2 \/ day = 3 \/ day = 4
                     \/ day = 5 \/ day = 6) by lia.
    destruct Hcases as [-> | [-> | [-> | [-> | [-> | [-> | ->]]]]]];
      reflexivity.
Qed.

(** A Sunday, the third of the month: the week started on the
    twenty-eighth before. *)
Lemma weekStartDate_is_last_monday_witness :
  3 - weekStartDate 3 0 = 6.
Proof.
  assert (H : 0 <= 0 <= 6) by lia.
  exact (eq_trans (proj1 (proj2 (proj2 (weekStartDate_is_last_monday 3 0 H))))
           eq_refl).
Defined.
